(** * Service-to-invoice workflow of the vehicle service shop

    A shallow embedding of the request handlers of [server/routes.ts]
    that carry a service visit to an approved, paid invoice: part
    resolution, the service-visit update, invoice creation, approval,
    payment recording, token-gated PDF retrieval and warranty-card
    synchronisation.

    Conventions of the embedding.
    - A Mongoose collection is a finite map from the document id to the
      document; [findById] distinguishes a hit, a miss and the cast
      failure Mongoose raises for an id that is not a valid ObjectId.
    - A handler is a function from the request and the stores to a
      response and the new stores; [try]/[catch] blocks are written
      out as matches on the outcome of the guarded step.
    - Money amounts are JavaScript numbers, that is doubles.  They are
      written as integers ([Z]): the counts of a binary unit that the
      amounts of one run have in common (whole rupees, or [2^-s] of a
      rupee when amounts have a fraction).  The sums of invoice
      creation are taken exact, as they are on counts below 2^53; the
      running sums of the payment handlers are rounded as doubles are
      ([Js.round53]).
    - Database writes and the activity log ([logActivity]) are taken
      to resolve, and logging is left out.  Where one of them rejects,
      the handler's [catch] answers with an error and what was written
      before it stays written; the statements below are about the
      requests whose writes resolve. *)

From Stdlib Require Import ZArith String Ascii List Bool Lia.
From Stdlib Require Import Decimal DecimalString DecimalNat.
From stdpp Require Import gmap strings list.

Local Open Scope string_scope.
Local Open Scope Z_scope.

(** ** JavaScript string primitives used by the handlers *)

Module Js.

(** [s.startsWith(p)] *)
Definition startsWith (p s : string) : bool := String.prefix p s.

Fixpoint drop_chars (n : nat) (s : string) : string :=
  match n, s with
  | O, _ => s
  | S n', String _ s' => drop_chars n' s'
  | S _, EmptyString => EmptyString
  end.

(** [s.replace(pat, rep)] with a string pattern: only the first
    (leftmost) occurrence is replaced. *)
Fixpoint replace_first (pat rep s : string) : string :=
  if String.prefix pat s then String.append rep (drop_chars (String.length pat) s)
  else match s with
       | EmptyString => EmptyString
       | String c s' => String c (replace_first pat rep s')
       end.

Definition is_digit (c : ascii) : bool :=
  let n := nat_of_ascii c in (48 <=? n)%nat && (n <=? 57)%nat.

Definition is_lower (c : ascii) : bool :=
  let n := nat_of_ascii c in (97 <=? n)%nat && (n <=? 122)%nat.

Definition is_upper (c : ascii) : bool :=
  let n := nat_of_ascii c in (65 <=? n)%nat && (n <=? 90)%nat.

Definition upper_char (c : ascii) : ascii :=
  if is_lower c then ascii_of_nat (nat_of_ascii c - 32) else c.

(** [s.toUpperCase()] on ASCII text: the letters [a] to [z] are
    mapped, every other byte is kept, so a text with letters beyond
    ASCII is outside the model. *)
Fixpoint toUpperCase (s : string) : string :=
  match s with
  | EmptyString => EmptyString
  | String c s' => String (upper_char c) (toUpperCase s')
  end.

(** The digits at the head of [s]: the greedy [\d+] once a digit has
    been found. *)
Fixpoint take_digits (s : string) : string :=
  match s with
  | String c s' => if is_digit c then String c (take_digits s') else EmptyString
  | EmptyString => EmptyString
  end.

(** [s.match(/\d+/)?.[0]]: the leftmost maximal run of digits, or
    [None] when [s] has no digit. *)
Fixpoint match_digits (s : string) : option string :=
  match s with
  | EmptyString => None
  | String c s' =>
      if is_digit c then Some (String c (take_digits s')) else match_digits s'
  end.

Definition digit_value (c : ascii) : Z := Z.of_nat (nat_of_ascii c) - 48.

Fixpoint parse_digits (acc : Z) (s : string) : Z :=
  match s with
  | String c s' => if is_digit c then parse_digits (10 * acc + digit_value c) s' else acc
  | EmptyString => acc
  end.

(** [parseInt(s)] on a string that starts with a digit (the only
    strings the handlers pass to it). *)
Definition parseInt (s : string) : Z := parse_digits 0 s.

(** [hay.includes(needle)] on strings *)
Fixpoint includes (needle hay : string) : bool :=
  String.prefix needle hay
  || match hay with
     | EmptyString => false
     | String _ hay' => includes needle hay'
     end.

(** *** Numbers

    The sum or difference of two doubles is the exact one rounded to
    53 significant bits, ties to even.  On numbers written as counts
    of a common binary unit this is [round53] of the exact count,
    whatever the unit.  Results beyond the range of doubles
    ([Infinity]) and [NaN] are outside the model. *)
Definition round53 (n : Z) : Z :=
  let a := Z.abs n in
  let shift := Z.log2 a - 52 in
  if shift <=? 0 then n
  else
    let q := Z.shiftr a shift in
    let r := a - Z.shiftl q shift in
    let half := Z.shiftl 1 (shift - 1) in
    let q' := if (half <? r) || ((r =? half) && Z.odd q) then q + 1 else q in
    Z.sgn n * Z.shiftl q' shift.

(** [a + b] and [a - b] on numbers *)
Definition num_add (a b : Z) : Z := round53 (a + b).
Definition num_sub (a b : Z) : Z := round53 (a - b).

End Js.

(** ** Collections *)

Module Db.

Inductive FindResult (A : Type) : Type :=
| Found (doc : A)
| Missing
| CastError.

Arguments Found {A} doc.
Arguments Missing {A}.
Arguments CastError {A}.

Section Collection.
(** Whether a string casts to an ObjectId; the rule belongs to the
    driver and is kept abstract. *)
Variable validObjectId : string -> bool.
Context {A : Type}.

(** [Model.findById(id)]: rejects with a cast error on an id that
    is not an ObjectId, resolves to [null] on a miss. *)
Definition findById (coll : gmap string A) (id : string) : FindResult A :=
  if validObjectId id then
    match coll !! id with
    | Some doc => Found doc
    | None => Missing
    end
  else CastError.
End Collection.

End Db.

(** ** Documents *)

(** [models/Product]: the fields the handlers read. *)
Record Product := mkProduct {
  product_name : string;
  product_category : string;
  product_brand : string;
  sellingPrice : Z;
  product_warranty : option string;
  stockQty : Z
}.

(** An entry of the static catalog of [@shared/vehicleData]. *)
Record PredefinedPart := mkPredefinedPart {
  part_id : string;
  part_name : string;
  part_category : string;
  part_price : Z
}.

(** ** Part resolver: POST /api/products/resolve-by-ids *)

Module PartResolver.

Inductive Source := database | predefined.

Record ProductData := mkProductData {
  pd_id : string;
  pd_name : string;
  pd_category : string;
  pd_brand : option string;
  pd_price : Z;
  pd_warranty : option string;
  pd_stockQty : option Z;
  pd_source : Source
}.

Inductive Response :=
| Json (products : list ProductData) (notFound : list string)
| Error (code : Z) (message : string).

(** [productId.startsWith('product-') ? productId.replace('product-', '') : productId] *)
Definition mongoId (productId : string) : string :=
  if Js.startsWith "product-" productId
  then Js.replace_first "product-" "" productId
  else productId.

Definition fromDatabase (productId : string) (dbProduct : Product) : ProductData :=
  {| pd_id := productId;
     pd_name := product_name dbProduct;
     pd_category := product_category dbProduct;
     pd_brand := Some (product_brand dbProduct);
     pd_price := sellingPrice dbProduct;
     pd_warranty := product_warranty dbProduct;
     pd_stockQty := Some (stockQty dbProduct);
     pd_source := database |}.

Definition fromCatalog (predefinedPart : PredefinedPart) : ProductData :=
  {| pd_id := part_id predefinedPart;
     pd_name := part_name predefinedPart;
     pd_category := part_category predefinedPart;
     pd_brand := None;
     pd_price := part_price predefinedPart;
     pd_warranty := None;
     pd_stockQty := None;
     pd_source := predefined |}.

Section Resolve.
Variable validObjectId : string -> bool.
(** The catalog lookup of [@shared/vehicleData]. *)
Variable getPartById : string -> option PredefinedPart.
Variable products : gmap string Product.

(** The [try] block of the loop body: a cast error of [findById]
    is swallowed by the empty [catch] and leaves [productData]
    at [null]. *)
Definition tryDatabase (productId : string) : option ProductData :=
  match Db.findById validObjectId products (mongoId productId) with
  | Db.Found dbProduct => Some (fromDatabase productId dbProduct)
  | Db.Missing => None
  | Db.CastError => None
  end.

(** One iteration: the value of [productData] at the final test. *)
Definition resolveOne (productId : string) : option ProductData :=
  match tryDatabase productId with
  | Some productData => Some productData
  | None =>
      match getPartById productId with
      | Some predefinedPart => Some (fromCatalog predefinedPart)
      | None => None
      end
  end.

(** The [for ... of productIds] loop with its two accumulators. *)
Fixpoint resolveLoop (productIds : list string)
         (resolvedProducts : list ProductData) (notFoundIds : list string)
  : list ProductData * list string :=
  match productIds with
  | [] => (resolvedProducts, notFoundIds)
  | productId :: rest =>
      match resolveOne productId with
      | Some productData => resolveLoop rest (resolvedProducts ++ [productData])%list notFoundIds
      | None => resolveLoop rest resolvedProducts (notFoundIds ++ [productId])%list
      end
  end.

(** The handler; [None] stands for a body whose [productIds] is
    not an array. *)
Definition resolveByIds (productIds : option (list string)) : Response :=
  match productIds with
  | None => Error 400 "productIds must be an array"
  | Some ids => let '(ps, nf) := resolveLoop ids [] [] in Json ps nf
  end.

(** The persisted product an identifier denotes, if any. *)
Definition persisted (productId : string) : option Product :=
  match Db.findById validObjectId products (mongoId productId) with
  | Db.Found p => Some p
  | _ => None
  end.
End Resolve.

End PartResolver.

(** ** Dates

    A [Date] is held by its fields in the server's local calendar
    (daylight-saving shifts are not modelled).  [setDate] and
    [setMonth] renormalise an overflowing day of the month the way
    ECMAScript's MakeDay does. *)

Module Date.

Record t := mk {
  year : Z;
  month : Z;      (* 0 .. 11, as [getMonth] *)
  date : Z;       (* 1 .. 31, as [getDate] *)
  time : Z        (* milliseconds within the day *)
}.

Definition isLeap (y : Z) : bool :=
  ((y mod 4 =? 0) && negb (y mod 100 =? 0)) || (y mod 400 =? 0).

(** Days of the month with index [ym = 12 * year + month]. *)
Definition daysInMonth (ym : Z) : Z :=
  let m := ym mod 12 in
  if m =? 1 then (if isLeap (ym / 12) then 29 else 28)
  else if (m =? 3) || (m =? 5) || (m =? 8) || (m =? 10) then 30
  else 31.

(** Carries a day of the month past the end of its month into the
    following months. *)
Fixpoint carryDays (fuel : nat) (ym d : Z) : Z * Z :=
  match fuel with
  | O => (ym, d)
  | S fuel' =>
      if daysInMonth ym <? d then carryDays fuel' (ym + 1) (d - daysInMonth ym)
      else (ym, d)
  end.

(** MakeDay for a day of the month that is at least 1. *)
Definition makeDay (ym d tm : Z) : t :=
  let '(ym', d') := carryDays (Z.to_nat d) ym d in
  {| year := ym' / 12; month := ym' mod 12; date := d'; time := tm |}.

Definition monthIndex (x : t) : Z := 12 * year x + month x.

(** [x.setDate(d)] *)
Definition setDate (x : t) (d : Z) : t := makeDay (monthIndex x) d (time x).

(** [x.setMonth(m)] *)
Definition setMonth (x : t) (m : Z) : t := makeDay (12 * year x + m) (date x) (time x).

Definition wellFormed (x : t) : Prop :=
  0 <= month x < 12 /\ 1 <= date x <= daysInMonth (monthIndex x).

(** [a > b] on the time values. *)
Definition gtb (a b : t) : bool :=
  (year b <? year a)
  || ((year a =? year b)
      && ((month b <? month a)
          || ((month a =? month b)
              && ((date b <? date a)
                  || ((date a =? date b) && (time b <? time a)))))).

Definition leb (a b : t) : bool := negb (gtb a b).

End Date.

(** ** Service visits: PATCH /api/service-visits/:id *)

Module ServiceVisit.

(** The status enum of the schema; a value outside it does not pass
    schema validation and is excluded by the type. *)
Inductive Status := inquired | working | waiting | completed.

Definition Status_eqb (a b : Status) : bool :=
  match a, b with
  | inquired, inquired | working, working
  | waiting, waiting | completed, completed => true
  | _, _ => false
  end.

Record StageTimestamps := mkStageTimestamps {
  ts_inquired : option Date.t;
  ts_working : option Date.t;
  ts_waiting : option Date.t;
  ts_completed : option Date.t
}.

Record PartUsed := mkPartUsed {
  pu_productId : string;
  pu_quantity : Z
}.

Record t := mk {
  customerId : option string;
  vehicleReg : string;
  status : Status;
  notes : option string;
  beforeImages : list string;
  afterImages : list string;
  handlerIds : list string;
  partsUsed : list PartUsed;
  totalAmount : option Z;
  stageTimestamps : StageTimestamps
}.

(** The fields of [req.body]; [None] is [undefined]. *)
Record Body := mkBody {
  b_status : option Status;
  b_notes : option string;
  b_beforeImages : option (list string);
  b_afterImages : option (list string);
  b_handlerIds : option (list string);
  b_partsUsed : option (list PartUsed);
  b_totalAmount : option Z
}.

Inductive Response :=
| Json (visit : t)
| Error (code : Z) (message : string).

(** *** Image validation *)

(** [/^https?:\/\//] *)
Definition httpUrlRegex_test (img : string) : bool :=
  Js.startsWith "http://" img || Js.startsWith "https://" img.

Definition dataUriPrefixes : list string :=
  [ "data:image/png;base64,"; "data:image/jpeg;base64,"; "data:image/jpg;base64,";
    "data:image/gif;base64,"; "data:image/webp;base64," ].

(** [/^data:image\/(png|jpeg|jpg|gif|webp);base64,/]: the text after
    the matched prefix, or [None] when the test fails. *)
Fixpoint dataUri_rest (prefixes : list string) (img : string) : option string :=
  match prefixes with
  | [] => None
  | p :: ps =>
      if Js.startsWith p img then Some (Js.drop_chars (String.length p) img)
      else dataUri_rest ps img
  end.

Definition is_base64_char (c : ascii) : bool :=
  Js.is_upper c || Js.is_lower c || Js.is_digit c
  || Ascii.eqb c "+"%char || Ascii.eqb c "/"%char.

Fixpoint skip_base64 (s : string) : string :=
  match s with
  | String c s' => if is_base64_char c then skip_base64 s' else s
  | EmptyString => EmptyString
  end.

(** [/^[A-Za-z0-9+/]*={0,2}$/] *)
Definition base64Regex_test (s : string) : bool :=
  let r := skip_base64 s in
  String.eqb r "" || String.eqb r "=" || String.eqb r "==".

(** The callback of [images.every]; the size test
    [length * 0.75 / (1024 * 1024) <= 50] is written on integers. *)
Definition validImage (img : string) : bool :=
  if String.eqb img "" then true
  else if httpUrlRegex_test img then true
  else match dataUri_rest dataUriPrefixes img with
       | None => false
       | Some base64Content =>
           if negb (base64Regex_test base64Content) then false
           else 3 * Z.of_nat (String.length base64Content) <=? 4 * (50 * (1024 * 1024))
       end.

Definition validateImages (images : list string) : bool := forallb validImage images.

(** [req.body.xImages && !validateImages(req.body.xImages)] *)
Definition imagesRejected (images : option (list string)) : bool :=
  match images with
  | None => false
  | Some imgs => negb (validateImages imgs)
  end.

(** *** Field assignment *)

Definition assign {A} (field : A) (fromBody : option A) : A :=
  match fromBody with Some v => v | None => field end.

Definition assignOpt {A} (field : option A) (fromBody : option A) : option A :=
  match fromBody with Some v => Some v | None => field end.

(** The block of [if (req.body.x !== undefined) visit.x = req.body.x]. *)
Definition applyBody (visit : t) (body : Body) : t :=
  {| customerId := customerId visit;
     vehicleReg := vehicleReg visit;
     status := assign (status visit) (b_status body);
     notes := assignOpt (notes visit) (b_notes body);
     beforeImages := assign (beforeImages visit) (b_beforeImages body);
     afterImages := assign (afterImages visit) (b_afterImages body);
     handlerIds := assign (handlerIds visit) (b_handlerIds body);
     partsUsed := assign (partsUsed visit) (b_partsUsed body);
     totalAmount := assignOpt (totalAmount visit) (b_totalAmount body);
     stageTimestamps := stageTimestamps visit |}.

(** *** The save hook *)

Definition nonEmpty {A} (l : list A) : bool :=
  match l with [] => false | _ :: _ => true end.

(** Modelled from the spec: the transition preconditions of the
    pre-save hook of [models/ServiceVisit], which is not among the
    sources.  Targets [working] and [waiting] need a handler and a
    before-image; target [completed] needs an after-image and, by the
    handler rule of every target other than [inquired], a handler;
    target [inquired] needs nothing. *)
Definition preconditionsMet (visit : t) : bool :=
  match status visit with
  | inquired => true
  | working | waiting => nonEmpty (handlerIds visit) && nonEmpty (beforeImages visit)
  | completed => nonEmpty (handlerIds visit) && nonEmpty (afterImages visit)
  end.

(** Modelled from the spec: the stamping of the pre-save hook of
    [models/ServiceVisit].  The timestamp of the new phase is set,
    those of the other phases are kept. *)
Definition stamp (now : Date.t) (visit : t) : t :=
  let ts := stageTimestamps visit in
  let ts' :=
    match status visit with
    | inquired => mkStageTimestamps (Some now) (ts_working ts) (ts_waiting ts) (ts_completed ts)
    | working => mkStageTimestamps (ts_inquired ts) (Some now) (ts_waiting ts) (ts_completed ts)
    | waiting => mkStageTimestamps (ts_inquired ts) (ts_working ts) (Some now) (ts_completed ts)
    | completed => mkStageTimestamps (ts_inquired ts) (ts_working ts) (ts_waiting ts) (Some now)
    end in
  {| customerId := customerId visit;
     vehicleReg := vehicleReg visit;
     status := status visit;
     notes := notes visit;
     beforeImages := beforeImages visit;
     afterImages := afterImages visit;
     handlerIds := handlerIds visit;
     partsUsed := partsUsed visit;
     totalAmount := totalAmount visit;
     stageTimestamps := ts' |}.

(** Modelled from the spec: the pre-save hook of
    [models/ServiceVisit], which is not among the sources.  It acts
    when the status differs from the stored one: the preconditions
    are validated before the change is persisted, and an accepted
    change is stamped.  [None] is the validation error that makes
    [save] reject. *)
Definition preSave (now : Date.t) (previousStatus : Status) (visit : t) : option t :=
  if Status_eqb previousStatus (status visit) then Some visit
  else if preconditionsMet visit then Some (stamp now visit)
  else None.

(** *** The handler *)

Section Handler.
Variable validObjectId : string -> bool.
Variable now : Date.t.
(** Whether [notifyServiceVisitStatus] resolves. *)
Variable notifyOk : bool.

Definition patch (visits : gmap string t) (id : string) (body : Body)
  : Response * gmap string t :=
  match Db.findById validObjectId visits id with
  | Db.CastError => (Error 400 "Failed to update service visit", visits)
  | Db.Missing => (Error 404 "Service visit not found", visits)
  | Db.Found visit =>
      if imagesRejected (b_beforeImages body) then
        (Error 400 "Invalid before images: must be valid base64 image data (PNG, JPEG, GIF, WebP) under 50MB per image", visits)
      else if imagesRejected (b_afterImages body) then
        (Error 400 "Invalid after images: must be valid base64 image data (PNG, JPEG, GIF, WebP) under 50MB per image", visits)
      else
        let previousStatus := status visit in
        match preSave now previousStatus (applyBody visit body) with
        | None => (Error 400 "Failed to update service visit", visits)
        | Some saved =>
            let visits' := <[id := saved]> visits in
            if negb (Status_eqb previousStatus (status saved)) && negb notifyOk
            then (Error 400 "Failed to update service visit", visits')
            else (Json saved, visits')
        end
  end.
End Handler.

End ServiceVisit.

(** ** Customers, vehicles and coupons *)

Record Customer := mkCustomer {
  customer_id : string;
  referenceCode : string;
  fullName : string;
  mobileNumber : string;
  alternativeNumber : option string;
  email : option string;
  address : string;
  city : string;
  taluka : string;
  district : string;
  state : string;
  pinCode : string;
  referralSource : option string;
  isVerified : bool;
  customer_createdAt : Date.t
}.

(** An entry of a vehicle's [warrantyCards]. *)
Record VehicleWarrantyCard := mkVehicleWarrantyCard {
  partId : string;
  partName : string;
  fileData : string
}.

Record Vehicle := mkVehicle {
  vehicle_oid : string;                 (* [_id] *)
  vehicleId : option string;
  vehicle_customerId : string;
  vehicleNumber : option string;
  vehicleBrand : string;
  vehicleModel : string;
  customModel : option string;
  variant : option string;
  color : option string;
  yearOfPurchase : option Z;
  vehiclePhoto : string;
  isNewVehicle : bool;
  chassisNumber : option string;
  selectedParts : option (list string);
  warrantyCards : option (list VehicleWarrantyCard);
  vehicle_createdAt : Date.t
}.

Definition setWarrantyCards (cards : list VehicleWarrantyCard) (v : Vehicle) : Vehicle :=
  {| vehicle_oid := vehicle_oid v;
     vehicleId := vehicleId v;
     vehicle_customerId := vehicle_customerId v;
     vehicleNumber := vehicleNumber v;
     vehicleBrand := vehicleBrand v;
     vehicleModel := vehicleModel v;
     customModel := customModel v;
     variant := variant v;
     color := color v;
     yearOfPurchase := yearOfPurchase v;
     vehiclePhoto := vehiclePhoto v;
     isNewVehicle := isNewVehicle v;
     chassisNumber := chassisNumber v;
     selectedParts := selectedParts v;
     warrantyCards := Some cards;
     vehicle_createdAt := vehicle_createdAt v |}.

Record CouponUsage := mkCouponUsage {
  usage_invoiceId : string;
  usage_customerId : string;
  discountApplied : Z
}.

Record Coupon := mkCoupon {
  coupon_id : string;
  code : string;
  coupon_discountType : string;
  coupon_discountValue : Z;
  usedCount : Z;
  usageHistory : list CouponUsage
}.

(** [Coupon.findOne({ code })]: the first document with that code. *)
Definition findCouponByCode (coupons : list Coupon) (c : string) : option Coupon :=
  List.find (fun k => String.eqb (code k) c) coupons.

(** The update [{ $inc: { usedCount: 1 }, $push: { usageHistory: u } }]. *)
Definition redeem (u : CouponUsage) (k : Coupon) : Coupon :=
  {| coupon_id := coupon_id k;
     code := code k;
     coupon_discountType := coupon_discountType k;
     coupon_discountValue := coupon_discountValue k;
     usedCount := usedCount k + 1;
     usageHistory := (usageHistory k ++ [u])%list |}.

(** [Coupon.findByIdAndUpdate(id, update)]: the first document with
    that id is updated, the others are left alone. *)
Fixpoint findByIdAndUpdate (id : string) (f : Coupon -> Coupon) (coupons : list Coupon)
  : list Coupon :=
  match coupons with
  | [] => []
  | k :: rest =>
      if String.eqb (coupon_id k) id then f k :: rest
      else k :: findByIdAndUpdate id f rest
  end.

(** ** Invoices *)

Module Invoice.

Inductive Status := draft | pending_approval | approved | rejected | cancelled.

Definition Status_eqb (a b : Status) : bool :=
  match a, b with
  | draft, draft | pending_approval, pending_approval | approved, approved
  | rejected, rejected | cancelled, cancelled => true
  | _, _ => false
  end.

Definition Status_name (s : Status) : string :=
  match s with
  | draft => "draft"
  | pending_approval => "pending_approval"
  | approved => "approved"
  | rejected => "rejected"
  | cancelled => "cancelled"
  end.

Inductive PaymentStatus := unpaid | partial | paid.

Inductive ItemType := product | service.

(** An entry of a line item's [warrantyCards]. *)
Record ItemWarrantyCard := mkItemWarrantyCard {
  url : string;
  filename : string;
  uploadedAt : Date.t
}.

Record Item := mkItem {
  type : ItemType;
  productId : option string;
  name : string;
  description : option string;
  quantity : Z;
  unitPrice : Z;
  total : Z;
  hasGst : bool;
  gstAmount : Z;
  hasWarranty : bool;
  item_warrantyCards : option (list ItemWarrantyCard)
}.

Record CustomerDetails := mkCustomerDetails {
  cd_referenceCode : string;
  cd_fullName : string;
  cd_mobileNumber : string;
  cd_alternativeNumber : option string;
  cd_email : option string;
  cd_address : string;
  cd_city : string;
  cd_taluka : string;
  cd_district : string;
  cd_state : string;
  cd_pinCode : string;
  cd_referralSource : option string;
  cd_isVerified : bool;
  cd_registrationDate : Date.t
}.

Record VehicleDetails := mkVehicleDetails {
  vd_vehicleId : option string;
  vd_vehicleNumber : option string;
  vd_vehicleBrand : string;
  vd_vehicleModel : string;
  vd_customModel : option string;
  vd_variant : option string;
  vd_color : option string;
  vd_yearOfPurchase : option Z;
  vd_vehiclePhoto : string;
  vd_isNewVehicle : bool;
  vd_chassisNumber : option string;
  vd_selectedParts : option (list string);
  vd_vehicleRegistrationDate : Date.t
}.

Record ApprovalStatus := mkApprovalStatus {
  approvedBy : option string;
  approvedAt : option Date.t;
  rejectedBy : option string;
  rejectedAt : option Date.t;
  rejectionReason : option string
}.

Record Payment := mkPayment {
  amount : Z;
  paymentMode : string;
  transactionId : option string;
  payment_notes : option string;
  recordedBy : string;
  transactionDate : Date.t
}.

Record t := mk {
  id : string;                          (* [_id] *)
  invoiceNumber : string;
  serviceVisitId : string;
  customerId : option string;
  customerDetails : CustomerDetails;
  vehicleDetails : list VehicleDetails;
  items : list Item;
  subtotal : Z;
  discountType : string;
  discountValue : Z;
  discountAmount : Z;
  couponCode : option string;
  couponId : option string;
  taxRate : Z;
  taxAmount : Z;
  totalAmount : Z;
  paidAmount : Z;
  dueAmount : Z;
  createdBy : string;
  status : Status;
  approvalStatus : option ApprovalStatus;
  paymentStatus : PaymentStatus;
  paymentMethod : option string;
  payments : list Payment;
  notes : option string;
  terms : option string;
  pdfAccessToken : option string;
  pdfTokenExpiry : option Date.t;
  pdfPath : option string;
  createdAt : Date.t
}.

(** *** Field updates *)

Definition setApproval (s : Status) (a : ApprovalStatus) (i : t) : t :=
  mk (id i) (invoiceNumber i) (serviceVisitId i) (customerId i) (customerDetails i)
     (vehicleDetails i) (items i) (subtotal i) (discountType i) (discountValue i)
     (discountAmount i) (couponCode i) (couponId i) (taxRate i) (taxAmount i)
     (totalAmount i) (paidAmount i) (dueAmount i) (createdBy i)
     s (Some a) (paymentStatus i) (paymentMethod i) (payments i)
     (notes i) (terms i) (pdfAccessToken i) (pdfTokenExpiry i) (pdfPath i) (createdAt i).

Definition setToken (token : string) (expiry : Date.t) (i : t) : t :=
  mk (id i) (invoiceNumber i) (serviceVisitId i) (customerId i) (customerDetails i)
     (vehicleDetails i) (items i) (subtotal i) (discountType i) (discountValue i)
     (discountAmount i) (couponCode i) (couponId i) (taxRate i) (taxAmount i)
     (totalAmount i) (paidAmount i) (dueAmount i) (createdBy i)
     (status i) (approvalStatus i) (paymentStatus i) (paymentMethod i) (payments i)
     (notes i) (terms i) (Some token) (Some expiry) (pdfPath i) (createdAt i).

Definition setPdfPath (path : string) (i : t) : t :=
  mk (id i) (invoiceNumber i) (serviceVisitId i) (customerId i) (customerDetails i)
     (vehicleDetails i) (items i) (subtotal i) (discountType i) (discountValue i)
     (discountAmount i) (couponCode i) (couponId i) (taxRate i) (taxAmount i)
     (totalAmount i) (paidAmount i) (dueAmount i) (createdBy i)
     (status i) (approvalStatus i) (paymentStatus i) (paymentMethod i) (payments i)
     (notes i) (terms i) (pdfAccessToken i) (pdfTokenExpiry i) (Some path) (createdAt i).

Definition setPayment (ps : PaymentStatus) (method : option string)
           (paid due : Z) (ledger : list Payment) (i : t) : t :=
  mk (id i) (invoiceNumber i) (serviceVisitId i) (customerId i) (customerDetails i)
     (vehicleDetails i) (items i) (subtotal i) (discountType i) (discountValue i)
     (discountAmount i) (couponCode i) (couponId i) (taxRate i) (taxAmount i)
     (totalAmount i) paid due (createdBy i)
     (status i) (approvalStatus i) ps method ledger
     (notes i) (terms i) (pdfAccessToken i) (pdfTokenExpiry i) (pdfPath i) (createdAt i).

Definition setItems (its : list Item) (i : t) : t :=
  mk (id i) (invoiceNumber i) (serviceVisitId i) (customerId i) (customerDetails i)
     (vehicleDetails i) its (subtotal i) (discountType i) (discountValue i)
     (discountAmount i) (couponCode i) (couponId i) (taxRate i) (taxAmount i)
     (totalAmount i) (paidAmount i) (dueAmount i) (createdBy i)
     (status i) (approvalStatus i) (paymentStatus i) (paymentMethod i) (payments i)
     (notes i) (terms i) (pdfAccessToken i) (pdfTokenExpiry i) (pdfPath i) (createdAt i).

Definition setItemCards (cards : list ItemWarrantyCard) (it : Item) : Item :=
  mkItem (type it) (productId it) (name it) (description it) (quantity it)
         (unitPrice it) (total it) (hasGst it) (gstAmount it) (hasWarranty it)
         (Some cards).

End Invoice.

Record Warranty := mkWarranty {
  warranty_invoiceId : string;
  warranty_customerId : option string;
  warranty_productId : string;
  productName : string;
  warrantyType : string;
  durationMonths : Z;
  startDate : Date.t;
  endDate : Date.t;
  coverage : string;
  warranty_status : string
}.

(** The JSON body of an error response. *)
Record ErrorBody := mkErrorBody {
  error : string;
  currentStatus : option string;
  details : option string
}.

Definition errorOnly (message : string) : ErrorBody :=
  {| error := message; currentStatus := None; details := None |}.

(** A JavaScript truthiness test on an optional string. *)
Definition truthy (s : option string) : bool :=
  match s with
  | Some v => negb (String.eqb v "")
  | None => false
  end.

(** ** Invoice creation: POST /api/invoices/from-service-visit *)

Module CreateInvoice.

Import Invoice.

Record Body := mkBody {
  b_serviceVisitId : string;
  b_items : list Item;
  b_couponCode : option string;
  b_taxRate : option Z;
  b_notes : option string;
  b_terms : option string
}.

Inductive Response :=
| Json (invoice : Invoice.t)
| Error (code : Z) (body : ErrorBody).

Record Stores := mkStores {
  visits : gmap string ServiceVisit.t;
  customers : gmap string Customer;
  vehicles : list Vehicle;
  coupons : list Coupon;
  invoices : gmap string Invoice.t
}.

Definition customerDetailsOf (customer : Customer) : CustomerDetails :=
  {| cd_referenceCode := referenceCode customer;
     cd_fullName := fullName customer;
     cd_mobileNumber := mobileNumber customer;
     cd_alternativeNumber := alternativeNumber customer;
     cd_email := email customer;
     cd_address := address customer;
     cd_city := city customer;
     cd_taluka := taluka customer;
     cd_district := district customer;
     cd_state := state customer;
     cd_pinCode := pinCode customer;
     cd_referralSource := referralSource customer;
     cd_isVerified := isVerified customer;
     cd_registrationDate := customer_createdAt customer |}.

Definition vehicleDetailsOf (vehicle : Vehicle) : VehicleDetails :=
  {| vd_vehicleId := vehicleId vehicle;
     vd_vehicleNumber := vehicleNumber vehicle;
     vd_vehicleBrand := vehicleBrand vehicle;
     vd_vehicleModel := vehicleModel vehicle;
     vd_customModel := customModel vehicle;
     vd_variant := variant vehicle;
     vd_color := color vehicle;
     vd_yearOfPurchase := yearOfPurchase vehicle;
     vd_vehiclePhoto := vehiclePhoto vehicle;
     vd_isNewVehicle := isNewVehicle vehicle;
     vd_chassisNumber := chassisNumber vehicle;
     vd_selectedParts := selectedParts vehicle;
     vd_vehicleRegistrationDate := vehicle_createdAt vehicle |}.

(** [items.reduce((sum, item) => sum + item.total, 0)] *)
Definition subtotalOf (its : list Item) : Z :=
  fold_left (fun sum item => sum + total item) its 0.

(** The outcome of the coupon block: the four variables it may set. *)
Record CouponOutcome := mkCouponOutcome {
  co_discountAmount : Z;
  co_couponId : option string;
  co_discountType : string;
  co_discountValue : Z
}.

(** Modelled from the spec: the default of [paidAmount] in the schema
    of [models/Invoice], which is not among the sources.  A new
    invoice has nothing paid. *)
Definition defaultPaidAmount : Z := 0.

(** Modelled from the spec: the default of [paymentStatus] in the
    schema of [models/Invoice], which is not among the sources.  The
    payment state starts at [unpaid]. *)
Definition defaultPaymentStatus : PaymentStatus := unpaid.

Definition noCoupon : CouponOutcome :=
  {| co_discountAmount := 0; co_couponId := None;
     co_discountType := "none"; co_discountValue := 0 |}.

Section Handler.
Variable validObjectId : string -> bool.
Variable now : Date.t.
(** [coupon.isValid(customerId, amount).valid] and
    [coupon.calculateDiscount(amount)] of [models/Coupon]. *)
Variable isValid : Coupon -> string -> Z -> bool.
Variable calculateDiscount : Coupon -> Z -> Z.
(** The [_id] and the invoice number the new document receives. *)
Variable newId : string.
Variable newInvoiceNumber : string.
Variable userId : string.

Definition applyCoupon (coupons : list Coupon) (couponCode : option string)
           (customerId : string) (subtotal : Z) : CouponOutcome :=
  match couponCode with
  | Some c =>
      if String.eqb c "" then noCoupon
      else match findCouponByCode coupons (Js.toUpperCase c) with
           | Some coupon =>
               if isValid coupon customerId subtotal then
                 {| co_discountAmount := calculateDiscount coupon subtotal;
                    co_couponId := Some (coupon_id coupon);
                    co_discountType := coupon_discountType coupon;
                    co_discountValue := coupon_discountValue coupon |}
               else noCoupon
           | None => noCoupon
           end
  | None => noCoupon
  end.

(** [new Invoice({...})]; the fields the handler does not pass take
    the schema defaults. *)
Definition newInvoice (body : Body) (customer : Customer) (vs : list Vehicle)
           (sub : Z) (co : CouponOutcome) : Invoice.t :=
  let totalAmount := sub - co_discountAmount co in
  {| id := newId;
     invoiceNumber := newInvoiceNumber;
     serviceVisitId := b_serviceVisitId body;
     customerId := Some (customer_id customer);
     customerDetails := customerDetailsOf customer;
     vehicleDetails := map vehicleDetailsOf vs;
     items := b_items body;
     subtotal := sub;
     discountType := co_discountType co;
     discountValue := co_discountValue co;
     discountAmount := co_discountAmount co;
     couponCode := option_map Js.toUpperCase (b_couponCode body);
     couponId := co_couponId co;
     taxRate := match b_taxRate body with Some r => r | None => 18 end;
     taxAmount := 0;
     totalAmount := totalAmount;
     paidAmount := defaultPaidAmount;
     dueAmount := totalAmount;
     createdBy := userId;
     status := pending_approval;
     approvalStatus := None;
     paymentStatus := defaultPaymentStatus;
     paymentMethod := None;
     payments := [];
     notes := b_notes body;
     terms := b_terms body;
     pdfAccessToken := None;
     pdfTokenExpiry := None;
     pdfPath := None;
     createdAt := now |}.

(** [.populate('customerId')]: the customer document, or [null]
    when the visit has no customer or the reference dangles. *)
Definition populateCustomer (cs : gmap string Customer) (visit : ServiceVisit.t)
  : option Customer :=
  match ServiceVisit.customerId visit with
  | Some cid => cs !! cid
  | None => None
  end.

Definition fromServiceVisit (st : Stores) (body : Body) : Response * Stores :=
  match Db.findById validObjectId (visits st) (b_serviceVisitId body) with
  | Db.CastError => (Error 500 (errorOnly "Failed to create invoice"), st)
  | Db.Missing => (Error 404 (errorOnly "Service visit not found"), st)
  | Db.Found serviceVisit =>
      match populateCustomer (customers st) serviceVisit with
      | None => (Error 400 (errorOnly "Service visit has no associated customer"), st)
      | Some customer =>
          match ServiceVisit.status serviceVisit with
          | ServiceVisit.completed =>
              let vs := List.filter (fun v => String.eqb (vehicle_customerId v) (customer_id customer))
                               (vehicles st) in
              let sub := subtotalOf (b_items body) in
              let co := applyCoupon (coupons st) (b_couponCode body) (customer_id customer) sub in
              let invoice := newInvoice body customer vs sub co in
              let coupons' :=
                match co_couponId co with
                | Some cid =>
                    findByIdAndUpdate cid
                      (redeem {| usage_invoiceId := id invoice;
                                 usage_customerId := customer_id customer;
                                 discountApplied := co_discountAmount co |})
                      (coupons st)
                | None => coupons st
                end in
              (Json invoice,
               {| visits := visits st;
                  customers := customers st;
                  vehicles := vehicles st;
                  coupons := coupons';
                  invoices := <[id invoice := invoice]> (invoices st) |})
          | _ =>
              (Error 400 (errorOnly "Can only generate invoice for completed service visits"), st)
          end
      end
  end.
End Handler.

End CreateInvoice.

(** ** Invoice approval: POST /api/invoices/:id/approve *)

Module Approve.

Import Invoice.

Inductive Response :=
| Json (invoice : Invoice.t)
| Error (code : Z) (body : ErrorBody).

(** What the collaborators of one approval do. *)
Record Env := mkEnv {
  now : Date.t;
  (** [crypto.randomBytes(32).toString('hex')] *)
  token : string;
  (** [generateInvoicePDF]: the path, or [None] when it throws. *)
  pdf : option string;
  (** Whether [Warranty.create] resolves for a given record. *)
  createOk : Warranty -> bool;
  (** Whether [sendInvoiceNotifications] resolves. *)
  notifyOk : bool
}.

Section Handler.
Variable validObjectId : string -> bool.
Variable userId : string.
Variable env : Env.

(** The message of the driver's cast error, cut to its fixed head:
    Mongoose goes on to name the value, the path and the model. *)
Definition castMessage : string := "Cast to ObjectId failed".

(** [tokenExpiry.setDate(tokenExpiry.getDate() + 7)] *)
Definition tokenExpiry : Date.t := Date.setDate (now env) (Date.date (now env) + 7).

(** [parseInt(product.warranty.match(/\d+/)?.[0] || '12')] *)
Definition durationOf (warranty : string) : Z :=
  Js.parseInt (match Js.match_digits warranty with
               | Some digits => digits
               | None => "12"
               end).

(** The [filter] of the warranty step. *)
Definition eligible (item : Item) : bool :=
  hasWarranty item && match type item with product => true | service => false end.

(** The body of the [map] callback: the record handed to
    [Warranty.create], or [None] when the callback returns [null]
    or [Product.findById] rejects. *)
Definition warrantyFor (products : gmap string Product) (invoice : Invoice.t)
           (item : Item) : option Warranty :=
  match productId item with
  | None => None
  | Some pid =>
      match Db.findById validObjectId products pid with
      | Db.Found dbProduct =>
          match product_warranty dbProduct with
          | Some w =>
              if String.eqb w "" then None
              else
                let months := durationOf w in
                let start := now env in
                Some {| warranty_invoiceId := id invoice;
                        warranty_customerId := customerId invoice;
                        warranty_productId := pid;
                        productName := name item;
                        warrantyType := "manufacturer";
                        durationMonths := months;
                        startDate := start;
                        endDate := Date.setMonth start (Date.month start + months);
                        coverage := w;
                        warranty_status := "active" |}
          | None => None
          end
      | Db.Missing => None
      | Db.CastError => None
      end
  end.

(** The records the warranty step stores: each callback runs on
    its own, so a rejected one does not undo the others. *)
Definition createdWarranties (products : gmap string Product) (invoice : Invoice.t)
  : list Warranty :=
  List.filter (createOk env)
              (omap (warrantyFor products invoice) (List.filter eligible (items invoice))).

Definition approve (products : gmap string Product)
           (invoices : gmap string Invoice.t) (warranties : list Warranty)
           (invoiceId : string)
  : Response * gmap string Invoice.t * list Warranty :=
  match Db.findById validObjectId invoices invoiceId with
  | Db.CastError =>
      (* [details] carries the message of the error that was thrown *)
      (Error 500 {| error := "Failed to approve invoice";
                    currentStatus := None;
                    details := Some castMessage |}, invoices, warranties)
  | Db.Missing => (Error 404 (errorOnly "Invoice not found"), invoices, warranties)
  | Db.Found invoice =>
      match status invoice with
      | pending_approval =>
          let approval :=
            {| approvedBy := Some userId; approvedAt := Some (now env);
               rejectedBy := None; rejectedAt := None; rejectionReason := None |} in
          let invoice1 := setToken (token env) tokenExpiry (setApproval approved approval invoice) in
          let invoices1 := <[invoiceId := invoice1]> invoices in
          (* PDF step *)
          let '(invoice2, invoices2) :=
            match pdf env with
            | Some pdfPath =>
                let i := setPdfPath pdfPath invoice1 in (i, <[invoiceId := i]> invoices1)
            | None => (invoice1, invoices1)
            end in
          (* warranty step *)
          let warranties' := (warranties ++ createdWarranties products invoice2)%list in
          (* notification step: its outcome is only logged *)
          (Json invoice2, invoices2, warranties')
      | other =>
          (Error 400 {| error := "Invoice is not pending approval";
                        currentStatus := Some (Status_name other);
                        details := None |}, invoices, warranties)
      end
  end.
End Handler.

End Approve.

(** ** Payments: PATCH /api/invoices/:id/payment-status and
       POST /api/invoices/:id/payments *)

Module Payments.

Import Invoice.

Inductive Response :=
| Json (invoice : Invoice.t)
| Error (code : Z) (body : ErrorBody).

(** [['paid', 'unpaid', 'partial'].includes(paymentStatus)], with
    the enum value the accepted string denotes. *)
Definition parsePaymentStatus (s : string) : option PaymentStatus :=
  if String.eqb s "paid" then Some paid
  else if String.eqb s "unpaid" then Some unpaid
  else if String.eqb s "partial" then Some partial
  else None.

Definition paymentMethods : list string :=
  [ "UPI"; "Cash"; "Card"; "Net Banking"; "Cheque" ].

Definition isPaymentMethod (m : string) : bool :=
  existsb (String.eqb m) paymentMethods.

Record StatusBody := mkStatusBody {
  b_paymentStatus : option string;
  b_paymentMethod : option string
}.

Record PaymentBody := mkPaymentBody {
  b_amount : Z;
  b_paymentMode : string;
  b_transactionId : option string;
  b_notes : option string
}.

Section Handlers.
Variable validObjectId : string -> bool.
Variable now : Date.t.
Variable userId : string.

(** The assignments between the status check and [save]. *)
Definition applyPaymentStatus (ps : PaymentStatus) (method : option string)
           (invoice : Invoice.t) : Invoice.t :=
  match ps with
  | paid =>
      setPayment paid
                 (if truthy method then method else paymentMethod invoice)
                 (totalAmount invoice) 0 (payments invoice) invoice
  | unpaid =>
      setPayment unpaid None 0 (totalAmount invoice) (payments invoice) invoice
  | partial =>
      setPayment partial (paymentMethod invoice)
                 (paidAmount invoice) (dueAmount invoice) (payments invoice) invoice
  end.

Definition setPaymentStatus (invoices : gmap string Invoice.t) (invoiceId : string)
           (body : StatusBody) : Response * gmap string Invoice.t :=
  let invalid :=
    (Error 400 (errorOnly "Invalid payment status. Must be 'paid', 'unpaid', or 'partial'"),
     invoices) in
  match b_paymentStatus body with
  | None => invalid
  | Some s =>
      match parsePaymentStatus s with
      | None => invalid
      | Some ps =>
          if match ps with paid => true | _ => false end
             && truthy (b_paymentMethod body)
             && negb (match b_paymentMethod body with
                      | Some m => isPaymentMethod m
                      | None => false
                      end)
          then (Error 400 (errorOnly "Invalid payment method"), invoices)
          else
            match Db.findById validObjectId invoices invoiceId with
            | Db.CastError =>
                (Error 500 (errorOnly "Failed to update payment status"), invoices)
            | Db.Missing => (Error 404 (errorOnly "Invoice not found"), invoices)
            | Db.Found invoice =>
                match status invoice with
                | approved =>
                    let invoice' := applyPaymentStatus ps (b_paymentMethod body) invoice in
                    (Json invoice', <[invoiceId := invoice']> invoices)
                | _ =>
                    (Error 400 (errorOnly "Can only update payment status for approved invoices"),
                     invoices)
                end
            end
      end
  end.

(** The ledger entry and the amount updates of a payment. *)
Definition applyPayment (body : PaymentBody) (invoice : Invoice.t) : Invoice.t :=
  let payment :=
    {| amount := b_amount body;
       paymentMode := b_paymentMode body;
       transactionId := b_transactionId body;
       payment_notes := b_notes body;
       recordedBy := userId;
       transactionDate := now |} in
  let paid' := Js.num_add (paidAmount invoice) (b_amount body) in
  let due' := Js.num_sub (dueAmount invoice) (b_amount body) in
  let ps :=
    if due' =? 0 then paid
    else if 0 <? paid' then partial
    else paymentStatus invoice in
  setPayment ps (paymentMethod invoice) paid' due' (payments invoice ++ [payment])%list invoice.

Definition recordPayment (invoices : gmap string Invoice.t) (invoiceId : string)
           (body : PaymentBody) : Response * gmap string Invoice.t :=
  match Db.findById validObjectId invoices invoiceId with
  | Db.CastError => (Error 500 (errorOnly "Failed to add payment"), invoices)
  | Db.Missing => (Error 404 (errorOnly "Invoice not found"), invoices)
  | Db.Found invoice =>
      match status invoice with
      | approved =>
          if dueAmount invoice <? b_amount body then
            (Error 400 (errorOnly "Payment amount exceeds due amount"), invoices)
          else
            let invoice' := applyPayment body invoice in
            (Json invoice', <[invoiceId := invoice']> invoices)
      | _ => (Error 400 (errorOnly "Can only add payments to approved invoices"), invoices)
      end
  end.

(** A call of either payment operation, and a run of calls on one
    invoice. *)
Inductive Call :=
| RecordPayment (body : PaymentBody)
| SetPaymentStatus (body : StatusBody).

Definition call (invoices : gmap string Invoice.t) (invoiceId : string) (c : Call)
  : Response * gmap string Invoice.t :=
  match c with
  | RecordPayment body => recordPayment invoices invoiceId body
  | SetPaymentStatus body => setPaymentStatus invoices invoiceId body
  end.

(** The stores after each call of a run, in order. *)
Fixpoint run (invoices : gmap string Invoice.t) (invoiceId : string) (cs : list Call)
  : list (gmap string Invoice.t) :=
  match cs with
  | [] => []
  | c :: rest =>
      let invoices' := snd (call invoices invoiceId c) in
      invoices' :: run invoices' invoiceId rest
  end.
End Handlers.

End Payments.

(** ** Token-gated PDF: GET /api/public/invoices/:id/pdf *)

Module PublicPdf.

Import Invoice.

Inductive Response :=
| Stream (pdfPath : string)
| Error (code : Z) (body : ErrorBody).

Section Handler.
Variable validObjectId : string -> bool.
Variable now : Date.t.
(** [fs.existsSync] *)
Variable existsSync : string -> bool.
(** [generateInvoicePDF]: the path, or [None] when it throws. *)
Variable pdf : option string.

(** [tokenExpiry && new Date() > new Date(tokenExpiry)] *)
Definition expired (tokenExpiry : option Date.t) : bool :=
  match tokenExpiry with
  | Some e => Date.gtb now e
  | None => false
  end.

(** [!expectedToken || expectedToken !== token] *)
Definition tokenMismatch (expectedToken token : option string) : bool :=
  negb (truthy expectedToken)
  || negb match expectedToken, token with
          | Some e, Some t => String.eqb e t
          | _, _ => false
          end.

Definition download (invoices : gmap string Invoice.t) (invoiceId : string)
           (token : option string) : Response * gmap string Invoice.t :=
  match Db.findById validObjectId invoices invoiceId with
  | Db.CastError => (Error 500 (errorOnly "Failed to download PDF"), invoices)
  | Db.Missing => (Error 404 (errorOnly "Invoice not found"), invoices)
  | Db.Found invoice =>
      match status invoice with
      | approved =>
          if tokenMismatch (pdfAccessToken invoice) token then
            (Error 403 (errorOnly "Invalid or missing access token"), invoices)
          else if expired (pdfTokenExpiry invoice) then
            (Error 403 (errorOnly "Access token has expired"), invoices)
          else
            match pdfPath invoice with
            | Some path =>
                if existsSync path then (Stream path, invoices)
                else match pdf with
                     | Some path' =>
                         (Stream path', <[invoiceId := setPdfPath path' invoice]> invoices)
                     | None => (Error 500 (errorOnly "Failed to download PDF"), invoices)
                     end
            | None =>
                match pdf with
                | Some path' =>
                    (Stream path', <[invoiceId := setPdfPath path' invoice]> invoices)
                | None => (Error 500 (errorOnly "Failed to download PDF"), invoices)
                end
            end
      | _ =>
          (Error 400 (errorOnly "PDF can only be accessed for approved invoices"), invoices)
      end
  end.
End Handler.

End PublicPdf.

(** ** Warranty cards: POST /api/invoices/:id/warranty-cards *)

Module WarrantyCards.

Import Invoice.

Record Body := mkBody {
  b_itemIndex : option Z;           (* [None]: not a number *)
  b_warrantyCardData : option string;
  b_filename : option string
}.

Inductive Response :=
| Uploaded (card : ItemWarrantyCard)
| Error (code : Z) (body : ErrorBody).

(** The text before the first [;] and the text after it. *)
Fixpoint splitSemicolon (s : string) : option (string * string) :=
  match s with
  | EmptyString => None
  | String c s' =>
      if Ascii.eqb c ";"%char then Some (EmptyString, s')
      else match splitSemicolon s' with
           | Some (a, b) => Some (String c a, b)
           | None => None
           end
  end.

(** LF and CR *)
Definition isLineTerminator (c : ascii) : bool :=
  (nat_of_ascii c =? 10)%nat || (nat_of_ascii c =? 13)%nat.

(** The bytes [80 A8] and [80 A9] that follow [E2] in U+2028 (line
    separator) and U+2029 (paragraph separator); a text beyond ASCII
    is held as its UTF-8 bytes. *)
Definition isSeparatorTail (s : string) : bool :=
  match s with
  | String b1 (String b2 _) =>
      (nat_of_ascii b1 =? 128)%nat
      && ((nat_of_ascii b2 =? 168)%nat || (nat_of_ascii b2 =? 169)%nat)
  | _ => false
  end.

(** Whether [s] holds a character the [.] of a pattern does not
    match: LF, CR, U+2028 or U+2029. *)
Fixpoint hasLineTerminator (s : string) : bool :=
  match s with
  | EmptyString => false
  | String c s' =>
      isLineTerminator c
      || ((nat_of_ascii c =? 226)%nat && isSeparatorTail s')
      || hasLineTerminator s'
  end.

(** [data.match(/^data:([^;]+);base64,(.+)$/)]: the two groups. *)
Definition dataUrlMatch (data : string) : option (string * string) :=
  if Js.startsWith "data:" data then
    match splitSemicolon (Js.drop_chars 5 data) with
    | Some (mimeType, rest) =>
        if String.eqb mimeType "" then None
        else if Js.startsWith "base64," rest then
          let base64Data := Js.drop_chars 7 rest in
          if String.eqb base64Data "" || hasLineTerminator base64Data then None
          else Some (mimeType, base64Data)
        else None
    | None => None
    end
  else None.

Definition allowedMimeTypes : list string :=
  [ "image/jpeg"; "image/jpg"; "image/png"; "image/gif"; "image/webp"; "application/pdf" ].

(** [Math.ceil((length * 3) / 4) > 50 * 1024 * 1024] *)
Definition tooLarge (base64Data : string) : bool :=
  50 * 1024 * 1024 <? (Z.of_nat (String.length base64Data) * 3 + 3) / 4.

(** [(invoice.vehicleDetails || []).filter(vd => vd.vehicleId).map(vd => vd.vehicleId)] *)
Definition invoiceVehicleIds (invoice : Invoice.t) : list string :=
  omap (fun vd => if truthy (vd_vehicleId vd) then vd_vehicleId vd else None)
       (vehicleDetails invoice).

Definition includes (x : string) (l : list string) : bool := existsb (String.eqb x) l.

(** [invoiceVehicleIds.includes(vehicle.vehicleId) ||
     invoiceVehicleIds.includes(vehicle._id.toString())] *)
Definition vehicleIdMatch (ids : list string) (vehicle : Vehicle) : bool :=
  match vehicleId vehicle with
  | Some vid => includes vid ids
  | None => false
  end
  || includes (vehicle_oid vehicle) ids.

(** [vehicle.selectedParts && vehicle.selectedParts.includes(productIdStr)] *)
Definition hasProductInSelectedParts (productIdStr : string) (vehicle : Vehicle) : bool :=
  match selectedParts vehicle with
  | Some parts => includes productIdStr parts
  | None => false
  end.

(** [cards.findIndex(wc => wc.partId === productIdStr)] *)
Fixpoint findIndex (productIdStr : string) (cards : list VehicleWarrantyCard) : option nat :=
  match cards with
  | [] => None
  | wc :: rest =>
      if String.eqb (partId wc) productIdStr then Some O
      else option_map S (findIndex productIdStr rest)
  end.

(** The replace-or-push on a vehicle's [warrantyCards]. *)
Definition upsertCard (card : VehicleWarrantyCard) (cards : list VehicleWarrantyCard)
  : list VehicleWarrantyCard :=
  match findIndex (partId card) cards with
  | Some existingIndex => <[existingIndex := card]> cards
  | None => (cards ++ [card])%list
  end.

(** Whether the loop reaches the update for this vehicle. *)
Definition syncs (customer : string) (ids : list string) (productIdStr : string)
           (vehicle : Vehicle) : bool :=
  String.eqb (vehicle_customerId vehicle) customer
  && vehicleIdMatch ids vehicle
  && hasProductInSelectedParts productIdStr vehicle.

(** One iteration of [for (const vehicle of vehicles)], on a
    vehicle of the collection. *)
Definition syncVehicle (customer : string) (ids : list string)
           (card : VehicleWarrantyCard) (vehicle : Vehicle) : Vehicle :=
  if syncs customer ids (partId card) vehicle then
    setWarrantyCards
      (upsertCard card (match warrantyCards vehicle with Some cs => cs | None => [] end))
      vehicle
  else vehicle.

(** The synchronisation block after the invoice is saved. *)
Definition syncVehicles (invoice : Invoice.t) (item : Item) (data : string)
           (vehicles : list Vehicle) : list Vehicle :=
  match productId item, customerId invoice with
  | Some productIdStr, Some customer =>
      let ids := invoiceVehicleIds invoice in
      match ids with
      | [] => vehicles
      | _ :: _ =>
          map (syncVehicle customer ids
                 {| partId := productIdStr; partName := name item; fileData := data |})
              vehicles
      end
  | _, _ => vehicles
  end.

Section Handler.
Variable validObjectId : string -> bool.
Variable now : Date.t.

Definition upload (invoices : gmap string Invoice.t) (vehicles : list Vehicle)
           (invoiceId : string) (body : Body)
  : Response * gmap string Invoice.t * list Vehicle :=
  let fail code message := (Error code (errorOnly message), invoices, vehicles) in
  match b_itemIndex body, b_warrantyCardData body, b_filename body with
  | Some itemIndex, Some warrantyCardData, Some filename =>
      if String.eqb warrantyCardData "" || String.eqb filename "" then
        fail 400 "Missing required fields"
      else if negb (Js.startsWith "data:" warrantyCardData) then
        fail 400 "Invalid file data format"
      else
        match dataUrlMatch warrantyCardData with
        | None => fail 400 "Invalid base64 format"
        | Some (mimeType, base64Data) =>
            if negb (includes mimeType allowedMimeTypes) then
              fail 400 "Invalid file type. Only images and PDFs are allowed"
            else if tooLarge base64Data then
              fail 400 "File size exceeds 50MB limit"
            else
              match Db.findById validObjectId invoices invoiceId with
              | Db.CastError => fail 500 "Failed to upload warranty card"
              | Db.Missing => fail 404 "Invoice not found"
              | Db.Found invoice =>
                  if (itemIndex <? 0) || (Z.of_nat (length (items invoice)) <=? itemIndex)
                  then fail 400 "Invalid item index"
                  else
                    match items invoice !! Z.to_nat itemIndex with
                    | None => fail 400 "Invalid item index"
                    | Some item =>
                        let card :=
                          {| url := warrantyCardData; filename := filename;
                             uploadedAt := now |} in
                        let cards :=
                          (match item_warrantyCards item with
                           | Some cs => cs
                           | None => []
                           end ++ [card])%list in
                        let item' := setItemCards cards item in
                        let invoice' :=
                          setItems (<[Z.to_nat itemIndex := item']> (items invoice)) invoice in
                        (Uploaded card,
                         <[invoiceId := invoice']> invoices,
                         syncVehicles invoice' item' warrantyCardData vehicles)
                    end
              end
        end
  | _, _, _ => fail 400 "Missing required fields"
  end.
End Handler.

End WarrantyCards.

(** * Vocabulary of the statements

    Predicates and measures the properties below are stated with, and
    the sample data their instances are checked on. *)

Definition ServiceVisitStatus_name (s : ServiceVisit.Status) : string :=
  match s with
  | ServiceVisit.inquired => "inquired"
  | ServiceVisit.working => "working"
  | ServiceVisit.waiting => "waiting"
  | ServiceVisit.completed => "completed"
  end.

(** Whether an error body carries the text [s] in one of its fields. *)
Definition names (b : ErrorBody) (s : string) : bool :=
  Js.includes s (error b)
  || match currentStatus b with Some c => Js.includes s c | None => false end
  || match details b with Some d => Js.includes s d | None => false end.

(** Whether an identifier resolves to nothing. *)
Definition isMiss (validObjectId : string -> bool)
           (getPartById : string -> option PredefinedPart)
           (products : gmap string Product) (productId : string) : bool :=
  match PartResolver.resolveOne validObjectId getPartById products productId with
  | Some _ => false
  | None => true
  end.

Section ServiceVisitVocabulary.
Import ServiceVisit.

(** What a change of status to [target] needs of the visit as the
    request leaves it. *)
Definition transitionReady (target : Status) (visit : t) : Prop :=
  match target with
  | inquired => True
  | working | waiting => handlerIds visit <> [] /\ beforeImages visit <> []
  | completed => handlerIds visit <> [] /\ afterImages visit <> []
  end.

(** The timestamp of a phase. *)
Definition stageTimestamp (s : Status) (visit : t) : option Date.t :=
  match s with
  | inquired => ts_inquired (stageTimestamps visit)
  | working => ts_working (stageTimestamps visit)
  | waiting => ts_waiting (stageTimestamps visit)
  | completed => ts_completed (stageTimestamps visit)
  end.

End ServiceVisitVocabulary.

(** The precondition of invoice creation: the visit is there, its
    customer is there, and it is completed. *)
Definition visitReady (validObjectId : string -> bool)
           (st : CreateInvoice.Stores) (body : CreateInvoice.Body) : Prop :=
  exists visit customer,
    Db.findById validObjectId (CreateInvoice.visits st) (CreateInvoice.b_serviceVisitId body)
    = Db.Found visit
    /\ CreateInvoice.populateCustomer (CreateInvoice.customers st) visit = Some customer
    /\ ServiceVisit.status visit = ServiceVisit.completed.

Section CalendarVocabulary.
Import Date.

(** The same time of day [n] days later, for [n] up to four weeks. *)
Definition plusDays (x : t) (n : Z) : t :=
  let ym := monthIndex x in
  if date x + n <=? daysInMonth ym
  then mk (year x) (month x) (date x + n) (time x)
  else mk ((ym + 1) / 12) ((ym + 1) mod 12) (date x + n - daysInMonth ym) (time x).

(** The same day and time [n] months later; a day the target month
    does not have runs over into the month after it. *)
Definition plusMonths (x : t) (n : Z) : t :=
  let ym := monthIndex x + n in
  if date x <=? daysInMonth ym
  then mk (ym / 12) (ym mod 12) (date x) (time x)
  else mk ((ym + 1) / 12) ((ym + 1) mod 12) (date x - daysInMonth ym) (time x).

End CalendarVocabulary.

Section DigitVocabulary.
Import Js.

Fixpoint all_digits (s : string) : bool :=
  match s with
  | EmptyString => true
  | String c s' => is_digit c && all_digits s'
  end.

Fixpoint no_digit (s : string) : bool :=
  match s with
  | EmptyString => true
  | String c s' => negb (is_digit c) && no_digit s'
  end.

(** [s] does not go on with a digit. *)
Definition stops (s : string) : bool :=
  match s with
  | EmptyString => true
  | String c _ => negb (is_digit c)
  end.

End DigitVocabulary.

(** The months a warranty text stands for: its first integer literal,
    or 12 when it has none. *)
Definition monthsOf (text : string) : Z :=
  match Js.match_digits text with
  | Some digits => Js.parseInt digits
  | None => 12
  end.

Section PaymentVocabulary.
Import Invoice.

(** The amounts of an invoice add up. *)
Definition balanced (invoice : Invoice.t) : Prop :=
  paidAmount invoice + dueAmount invoice = totalAmount invoice.

(** The invoice stored under [invoiceId] is there and its amounts add
    up to the total [total]. *)
Definition balancedAt (invoiceId : string) (total : Z) (invoices : gmap string Invoice.t) : Prop :=
  exists invoice,
    invoices !! invoiceId = Some invoice
    /\ totalAmount invoice = total
    /\ balanced invoice.

(** The paid and the due amount are below 2^53 in magnitude; a sum
    that gave such an amount was not rounded. *)
Definition unrounded (invoice : Invoice.t) : bool :=
  (Z.abs (paidAmount invoice) <? 2 ^ 53) && (Z.abs (dueAmount invoice) <? 2 ^ 53).

Definition unroundedAt (invoiceId : string) (invoices : gmap string Invoice.t) : bool :=
  match invoices !! invoiceId with
  | Some invoice => unrounded invoice
  | None => true
  end.

End PaymentVocabulary.

Section WarrantyCardVocabulary.
Import WarrantyCards.

Definition cardsOf (vehicle : Vehicle) : list VehicleWarrantyCard :=
  match warrantyCards vehicle with Some cs => cs | None => [] end.

(** The number of cards of a list kept under part [p]. *)
Definition countPart (p : string) (cards : list VehicleWarrantyCard) : nat :=
  length (List.filter (fun wc => String.eqb (partId wc) p) cards).

(** A synchronised upload as the loop sees it: the customer of the
    invoice, the vehicle ids of the invoice, and the card. *)
Definition Sync : Type := string * list string * VehicleWarrantyCard.

Definition applySync (vehicle : Vehicle) (u : Sync) : Vehicle :=
  let '(customer, ids, card) := u in syncVehicle customer ids card vehicle.

Definition syncsTo (vehicle : Vehicle) (p : string) (u : Sync) : Prop :=
  let '(customer, ids, card) := u in
  partId card = p /\ syncs customer ids p vehicle = true.

End WarrantyCardVocabulary.

(** ** Sample data *)

Definition anyObjectId (_ : string) : bool := true.

Definition jan15 : Date.t := Date.mk 2025 0 15 0.

Definition noTimestamps : ServiceVisit.StageTimestamps :=
  ServiceVisit.mkStageTimestamps None None None None.

(** A visit just taken in: a handler is assigned, no image yet. *)
Definition visitTakenIn : ServiceVisit.t :=
  {| ServiceVisit.customerId := Some "c1";
     ServiceVisit.vehicleReg := "MH12AB1234";
     ServiceVisit.status := ServiceVisit.inquired;
     ServiceVisit.notes := None;
     ServiceVisit.beforeImages := [];
     ServiceVisit.afterImages := [];
     ServiceVisit.handlerIds := ["h1"];
     ServiceVisit.partsUsed := [];
     ServiceVisit.totalAmount := None;
     ServiceVisit.stageTimestamps := noTimestamps |}.

Definition visitsTakenIn : gmap string ServiceVisit.t := {[ "v0" := visitTakenIn ]}.

(** A visit under work. *)
Definition visitInWork : ServiceVisit.t :=
  {| ServiceVisit.customerId := Some "c1";
     ServiceVisit.vehicleReg := "MH12AB1234";
     ServiceVisit.status := ServiceVisit.working;
     ServiceVisit.notes := None;
     ServiceVisit.beforeImages := ["https://cdn.example/before.jpg"];
     ServiceVisit.afterImages := [];
     ServiceVisit.handlerIds := ["h1"];
     ServiceVisit.partsUsed := [];
     ServiceVisit.totalAmount := None;
     ServiceVisit.stageTimestamps := noTimestamps |}.

Definition statusOnly (s : ServiceVisit.Status) : ServiceVisit.Body :=
  ServiceVisit.mkBody (Some s) None None None None None None.

(** A request that completes the visit and brings one after-image. *)
Definition completeWithAfterImage : ServiceVisit.Body :=
  ServiceVisit.mkBody (Some ServiceVisit.completed) None None
                      (Some ["https://cdn.example/after.jpg"]) None None None.

Definition customer1 : Customer :=
  {| customer_id := "c1"; referenceCode := "CUST001"; fullName := "Asha Patil";
     mobileNumber := "9000000001"; alternativeNumber := None; email := None;
     address := "12 MG Road"; city := "Pune"; taluka := "Haveli"; district := "Pune";
     state := "Maharashtra"; pinCode := "411001"; referralSource := None;
     isVerified := true; customer_createdAt := jan15 |}.

Definition visitDone : ServiceVisit.t :=
  {| ServiceVisit.customerId := Some "c1";
     ServiceVisit.vehicleReg := "MH12AB1234";
     ServiceVisit.status := ServiceVisit.completed;
     ServiceVisit.notes := None;
     ServiceVisit.beforeImages := ["https://cdn.example/before.jpg"];
     ServiceVisit.afterImages := ["https://cdn.example/after.jpg"];
     ServiceVisit.handlerIds := ["h1"];
     ServiceVisit.partsUsed := [];
     ServiceVisit.totalAmount := None;
     ServiceVisit.stageTimestamps := noTimestamps |}.

(** A coupon on file; whether it applies is for [isValid] to say. *)
Definition save10 : Coupon :=
  {| coupon_id := "k1"; code := "SAVE10"; coupon_discountType := "percentage";
     coupon_discountValue := 10; usedCount := 0; usageHistory := [] |}.

Definition shop : CreateInvoice.Stores :=
  {| CreateInvoice.visits := {[ "v1" := visitInWork; "v2" := visitDone ]};
     CreateInvoice.customers := {[ "c1" := customer1 ]};
     CreateInvoice.vehicles := [];
     CreateInvoice.coupons := [save10];
     CreateInvoice.invoices := ∅ |}.

Definition brakePads : Invoice.Item :=
  {| Invoice.type := Invoice.product; Invoice.productId := Some "p1";
     Invoice.name := "Brake pads"; Invoice.description := None;
     Invoice.quantity := 1; Invoice.unitPrice := 500; Invoice.total := 500;
     Invoice.hasGst := false; Invoice.gstAmount := 0;
     Invoice.hasWarranty := true; Invoice.item_warrantyCards := None |}.

Definition invoiceRequest (visitId : string) (couponCode : option string)
  : CreateInvoice.Body :=
  {| CreateInvoice.b_serviceVisitId := visitId;
     CreateInvoice.b_items := [brakePads];
     CreateInvoice.b_couponCode := couponCode;
     CreateInvoice.b_taxRate := None;
     CreateInvoice.b_notes := None;
     CreateInvoice.b_terms := None |}.

(** A validity check that turns every coupon down, and a discount of
    ten percent. *)
Definition neverValid (_ : Coupon) (_ : string) (_ : Z) : bool := false.
Definition tenPercent (_ : Coupon) (amount : Z) : Z := amount / 10.

(** An invoice awaiting approval for the brake pads of [visitDone]. *)
Definition pendingInvoice : Invoice.t :=
  CreateInvoice.newInvoice jan15 "i1" "INV/0001" "u1"
    (invoiceRequest "v2" None) customer1 [] 500 CreateInvoice.noCoupon.

Definition stock : gmap string Product :=
  {[ "p1" := {| product_name := "Brake pads"; product_category := "Brakes";
                product_brand := "Bosch"; sellingPrice := 500;
                product_warranty := Some "12 months"; stockQty := 4 |} ]}.

Definition pendingInvoices : gmap string Invoice.t := {[ "i1" := pendingInvoice ]}.

(** An approval during which the renderer and the notifier fail. *)
Definition roughDay : Approve.Env :=
  {| Approve.now := jan15;
     Approve.token := "5f2a9c";
     Approve.pdf := None;
     Approve.createOk := fun _ => true;
     Approve.notifyOk := false |}.

Definition approvedInvoice : Invoice.t :=
  match fst (fst (Approve.approve anyObjectId "u1" roughDay stock pendingInvoices [] "i1")) with
  | Approve.Json invoice => invoice
  | Approve.Error _ _ => pendingInvoice
  end.

Definition approvedInvoices : gmap string Invoice.t := {[ "i1" := approvedInvoice ]}.

Definition pay (amount : Z) : Payments.Call :=
  Payments.RecordPayment
    {| Payments.b_amount := amount; Payments.b_paymentMode := "Cash";
       Payments.b_transactionId := None; Payments.b_notes := None |}.

Definition toggle (paymentStatus : string) : Payments.StatusBody :=
  {| Payments.b_paymentStatus := Some paymentStatus; Payments.b_paymentMethod := None |}.

Definition paidInvoice : Invoice.t :=
  Payments.applyPaymentStatus Invoice.paid None approvedInvoice.

(** An approved invoice for labour of a given total, nothing paid. *)
Definition labour (total : Z) : Invoice.Item :=
  {| Invoice.type := Invoice.service; Invoice.productId := None;
     Invoice.name := "Labour"; Invoice.description := None;
     Invoice.quantity := 1; Invoice.unitPrice := total; Invoice.total := total;
     Invoice.hasGst := false; Invoice.gstAmount := 0;
     Invoice.hasWarranty := false; Invoice.item_warrantyCards := None |}.

Definition labourInvoice (total : Z) : Invoice.t :=
  Invoice.setApproval Invoice.approved
    (Invoice.mkApprovalStatus (Some "u2") (Some jan15) None None None)
    (CreateInvoice.newInvoice jan15 "i1" "INV/0001" "u1"
       {| CreateInvoice.b_serviceVisitId := "v2";
          CreateInvoice.b_items := [labour total];
          CreateInvoice.b_couponCode := None;
          CreateInvoice.b_taxRate := None;
          CreateInvoice.b_notes := None;
          CreateInvoice.b_terms := None |}
       customer1 [] total CreateInvoice.noCoupon).

Definition labourInvoices (total : Z) : gmap string Invoice.t :=
  {[ "i1" := labourInvoice total ]}.

(** The doubles 356.2 and 100.1, as counts of 2^-46 of a rupee. *)
Definition rupees_356_2 : Z := 25065346676083916.
Definition rupees_100_1 : Z := 7043911292184166.

Definition paidInvoices : gmap string Invoice.t := <[ "i1" := paidInvoice ]> approvedInvoices.

(** An invoice that holds a token and an expiry and was then
    cancelled. *)
Definition cancelledInvoice : Invoice.t :=
  Invoice.setApproval Invoice.cancelled
    (Invoice.mkApprovalStatus None None None None None) approvedInvoice.

Definition cancelledInvoices : gmap string Invoice.t := {[ "i1" := cancelledInvoice ]}.

Definition hatchback (cards : option (list VehicleWarrantyCard)) : Vehicle :=
  {| vehicle_oid := "64b000000000000000000001"; vehicleId := Some "VEH001";
     vehicle_customerId := "c1"; vehicleNumber := Some "MH12AB1234";
     vehicleBrand := "Maruti"; vehicleModel := "Swift"; customModel := None;
     variant := None; color := None; yearOfPurchase := Some 2021;
     vehiclePhoto := "https://cdn.example/swift.jpg"; isNewVehicle := false;
     chassisNumber := None; selectedParts := Some ["p1"];
     warrantyCards := cards; vehicle_createdAt := jan15 |}.

(** The same part twice in the list, as a vehicle update that writes
    [warrantyCards] from its request body can leave it. *)
Definition twoCards : list VehicleWarrantyCard :=
  [ {| partId := "p1"; partName := "Brake pads"; fileData := "data:image/png;base64,AAAA" |};
    {| partId := "p1"; partName := "Brake pads"; fileData := "data:image/png;base64,BBBB" |} ].

Definition invoiceOfHatchback : Invoice.t :=
  CreateInvoice.newInvoice jan15 "i2" "INV/0002" "u1"
    (invoiceRequest "v2" None) customer1 [hatchback None] 500 CreateInvoice.noCoupon.

Definition hatchbackInvoices : gmap string Invoice.t := {[ "i2" := invoiceOfHatchback ]}.

Definition cardUpload (data : string) : WarrantyCards.Body :=
  {| WarrantyCards.b_itemIndex := Some 0;
     WarrantyCards.b_warrantyCardData := Some data;
     WarrantyCards.b_filename := Some "card.pdf" |}.

Definition brakeCard (data : string) : VehicleWarrantyCard :=
  {| partId := "p1"; partName := "Brake pads"; fileData := data |}.

(** An ObjectId as a text of 24 hexadecimal digits. *)
Definition isHexDigit (c : ascii) : bool :=
  let n := nat_of_ascii c in
  Js.is_digit c || ((97 <=? n)%nat && (n <=? 102)%nat) || ((65 <=? n)%nat && (n <=? 70)%nat).

Fixpoint allHex (s : string) : bool :=
  match s with
  | EmptyString => true
  | String c s' => isHexDigit c && allHex s'
  end.

Definition hex24 (s : string) : bool := (String.length s =? 24)%nat && allHex s.

Definition wiperBlade : PredefinedPart :=
  {| part_id := "wiper-blade"; part_name := "Wiper blade";
     part_category := "Exterior"; part_price := 350 |}.

Definition catalog (partId : string) : option PredefinedPart :=
  if String.eqb partId "wiper-blade" then Some wiperBlade else None.

Definition brakePadsProduct : Product :=
  {| product_name := "Brake pads"; product_category := "Brakes";
     product_brand := "Bosch"; sellingPrice := 500;
     product_warranty := Some "12 months"; stockQty := 4 |}.

Definition shelf : gmap string Product :=
  {[ "64b0000000000000000000a1" := brakePadsProduct ]}.

(** * Properties *)

(** ** Part resolver *)

Section PartResolverFacts.
Import PartResolver.
Variable validObjectId : string -> bool.
Variable getPartById : string -> option PredefinedPart.
Variable products : gmap string Product.

Local Abbreviation resolveOne := (resolveOne validObjectId getPartById products).
Local Abbreviation resolveLoop := (resolveLoop validObjectId getPartById products).
Local Abbreviation resolveByIds := (resolveByIds validObjectId getPartById products).
Local Abbreviation persisted := (persisted validObjectId products).
Local Abbreviation isMiss := (isMiss validObjectId getPartById products).

Lemma prefix_append (p rest : string) : String.prefix p (String.append p rest) = true.
Proof.
  induction p as [|c p IH]; simpl.
  - now destruct rest.
  - destruct (ascii_dec c c); [exact IH | congruence].
Qed.

Lemma drop_chars_append (p rest : string) :
  Js.drop_chars (String.length p) (String.append p rest) = rest.
Proof. induction p as [|c p IH]; simpl; auto. Qed.

Lemma replace_first_unfold (pat rep s : string) :
  Js.replace_first pat rep s =
  if String.prefix pat s then String.append rep (Js.drop_chars (String.length pat) s)
  else match s with
       | EmptyString => EmptyString
       | String c s' => String c (Js.replace_first pat rep s')
       end.
Proof. now destruct s. Qed.

Lemma replace_first_prefix (p rep rest : string) :
  Js.replace_first p rep (String.append p rest) = String.append rep rest.
Proof.
  now rewrite replace_first_unfold, prefix_append, drop_chars_append.
Qed.

Lemma mongoId_prefixed (rest : string) :
  mongoId (String.append "product-" rest) = rest.
Proof.
  unfold mongoId, Js.startsWith.
  now rewrite prefix_append, replace_first_prefix.
Qed.

Lemma mongoId_bare (productId : string) :
  Js.startsWith "product-" productId = false -> mongoId productId = productId.
Proof. intros H. unfold mongoId. now rewrite H. Qed.

Lemma persisted_lookup (productId : string) (p : Product) :
  persisted productId = Some p <->
  validObjectId (mongoId productId) = true /\ products !! mongoId productId = Some p.
Proof.
  unfold PartResolver.persisted, Db.findById.
  destruct (validObjectId (mongoId productId)); [| split; [discriminate | intros [? _]; discriminate]].
  destruct (products !! mongoId productId) as [q|].
  - split; [intros [= ->]; auto | intros [_ [= ->]]; reflexivity].
  - split; [discriminate | intros [_ ?]; discriminate].
Qed.

Lemma resolveOne_cases (productId : string) :
  resolveOne productId =
  match persisted productId with
  | Some p => Some (fromDatabase productId p)
  | None => option_map fromCatalog (getPartById productId)
  end.
Proof.
  unfold PartResolver.resolveOne, tryDatabase, PartResolver.persisted.
  destruct (Db.findById validObjectId products (mongoId productId));
    try reflexivity; now destruct (getPartById productId).
Qed.

Lemma resolveLoop_acc (ids : list string) :
  forall acc nf,
    resolveLoop ids acc nf =
    ((acc ++ omap resolveOne ids)%list, (nf ++ List.filter isMiss ids)%list).
Proof.
  induction ids as [|productId rest IH]; intros acc nf; simpl.
  - now rewrite !app_nil_r.
  - unfold isMiss at 1.
    destruct (resolveOne productId) as [d|]; rewrite IH; simpl.
    + now rewrite <- app_assoc.
    + now rewrite <- app_assoc.
Qed.

Lemma resolveByIds_lists (ids : list string) :
  resolveByIds (Some ids) = Json (omap resolveOne ids) (List.filter isMiss ids).
Proof.
  unfold PartResolver.resolveByIds. now rewrite resolveLoop_acc.
Qed.

Lemma In_omap_resolved (ids : list string) (productId : string) (d : ProductData) :
  In productId ids -> resolveOne productId = Some d -> In d (omap resolveOne ids).
Proof.
  intros Hin Hres. apply list_elem_of_In, list_elem_of_omap.
  exists productId. split; [now apply list_elem_of_In | exact Hres].
Qed.


End PartResolverFacts.

Example resolve_mixed_batch :
  PartResolver.resolveByIds hex24 catalog shelf
    (Some [ "product-64b0000000000000000000a1"; "wiper-blade";
            "product-wiper-blade"; "64b0000000000000000000ff"; "not an id" ])
  = PartResolver.Json
      [ PartResolver.fromDatabase "product-64b0000000000000000000a1" brakePadsProduct;
        PartResolver.fromCatalog wiperBlade ]
      [ "product-wiper-blade"; "64b0000000000000000000ff"; "not an id" ].
Proof. vm_compute. reflexivity. Qed.

(** ** Service-visit update *)

Section ServiceVisitFacts.
Import ServiceVisit.
Variable validObjectId : string -> bool.
Variable now : Date.t.
Variable notifyOk : bool.

Local Abbreviation patch := (patch validObjectId now notifyOk).

Lemma nonEmpty_true {A} (l : list A) : nonEmpty l = true <-> l <> [].
Proof. destruct l; simpl; split; congruence. Qed.

Lemma preconditionsMet_ready (visit : t) :
  preconditionsMet visit = true <-> transitionReady (status visit) visit.
Proof.
  unfold preconditionsMet, transitionReady.
  destruct (status visit); rewrite ?andb_true_iff, ?nonEmpty_true; tauto.
Qed.

Lemma Status_eqb_eq (a b : Status) : Status_eqb a b = true <-> a = b.
Proof. destruct a, b; simpl; split; congruence. Qed.

Lemma status_applyBody (visit : t) (body : Body) (target : Status) :
  b_status body = Some target -> status (applyBody visit body) = target.
Proof. intros H. simpl. now rewrite H. Qed.

Lemma status_stamp (visit : t) : status (stamp now visit) = status visit.
Proof. reflexivity. Qed.

Lemma stamp_timestamps (visit : t) (s : Status) :
  stageTimestamp s (stamp now visit) =
  if Status_eqb s (status visit) then Some now else stageTimestamp s visit.
Proof. destruct s; simpl; destruct (status visit); reflexivity. Qed.

(** C1, as amended.  For a stored visit and a PATCH that changes the
    status to [target]: when [target] is [working] or [waiting] and
    the visit, with the fields of the request applied, lacks a handler
    or a before-image, or [target] is [completed] and it lacks a
    handler or an after-image, the request is answered with a 400 and
    the store is left as it was; when what the target needs is there
    and the images of the request are well formed, the visit is stored
    with the new status and the timestamp of that phase, the other
    timestamps being kept. *)
Theorem patch_status_guard (visits : gmap string t) (id : string)
        (visit : t) (body : Body) (target : Status) :
  Db.findById validObjectId visits id = Db.Found visit ->
  b_status body = Some target ->
  target <> status visit ->
  (~ transitionReady target (applyBody visit body) ->
   exists message, patch visits id body = (Error 400 message, visits))
  /\ (transitionReady target (applyBody visit body) ->
      imagesRejected (b_beforeImages body) = false ->
      imagesRejected (b_afterImages body) = false ->
      exists saved,
        snd (patch visits id body) = <[id := saved]> visits
        /\ status saved = target
        /\ handlerIds saved = handlerIds (applyBody visit body)
        /\ beforeImages saved = beforeImages (applyBody visit body)
        /\ afterImages saved = afterImages (applyBody visit body)
        /\ stageTimestamp target saved = Some now
        /\ forall s, s <> target -> stageTimestamp s saved = stageTimestamp s visit).
Proof.
  intros Hfind Hstatus Hchange.
  pose proof (status_applyBody visit body target Hstatus) as Hst.
  assert (Hneq : Status_eqb (status visit) (status (applyBody visit body)) = false).
  { rewrite Hst. destruct (Status_eqb (status visit) target) eqn:E; [| reflexivity].
    apply Status_eqb_eq in E. congruence. }
  split.
  - intros Hnot. unfold ServiceVisit.patch. rewrite Hfind.
    destruct (imagesRejected (b_beforeImages body)); [eauto |].
    destruct (imagesRejected (b_afterImages body)); [eauto |].
    unfold preSave. rewrite Hneq.
    destruct (preconditionsMet (applyBody visit body)) eqn:Hpre; [| eauto].
    apply preconditionsMet_ready in Hpre. rewrite Hst in Hpre. contradiction.
  - intros Hready Hb Ha. unfold ServiceVisit.patch. rewrite Hfind, Hb, Ha.
    unfold preSave. rewrite Hneq.
    assert (Hpre : preconditionsMet (applyBody visit body) = true).
    { apply preconditionsMet_ready. now rewrite Hst. }
    rewrite Hpre. exists (stamp now (applyBody visit body)).
    split.
    { destruct (negb _ && negb notifyOk); reflexivity. }
    split; [now rewrite status_stamp |].
    do 3 (split; [reflexivity |]).
    split.
    + rewrite stamp_timestamps, Hst.
      destruct (Status_eqb target target) eqn:E; [reflexivity |].
      destruct target; discriminate.
    + intros s Hs. rewrite stamp_timestamps, Hst.
      destruct (Status_eqb s target) eqn:E.
      * apply Status_eqb_eq in E. contradiction.
      * destruct s; reflexivity.
Qed.

End ServiceVisitFacts.

Lemma patch_status_guard_witness :
  exists message,
    ServiceVisit.patch anyObjectId jan15 true visitsTakenIn "v0" (statusOnly ServiceVisit.waiting)
    = (ServiceVisit.Error 400 message, visitsTakenIn).
Proof.
  apply (proj1 (patch_status_guard anyObjectId jan15 true visitsTakenIn "v0" visitTakenIn
                  (statusOnly ServiceVisit.waiting) ServiceVisit.waiting
                  eq_refl eq_refl ltac:(discriminate))).
  simpl. intros [_ H]. now apply H.
Defined.

Example patch_to_working_with_before_image :
  let body := ServiceVisit.mkBody (Some ServiceVisit.working) None
                (Some ["data:image/png;base64,iVBORw0KGgo="]) None None None None in
  option_map (fun v => (ServiceVisit.status v, stageTimestamp ServiceVisit.working v))
             (snd (ServiceVisit.patch anyObjectId jan15 true visitsTakenIn "v0" body) !! "v0")
  = Some (ServiceVisit.working, Some jan15).
Proof. vm_compute. reflexivity. Qed.

Example patch_refuses_malformed_image :
  let body := ServiceVisit.mkBody (Some ServiceVisit.working) None
                (Some ["data:image/png;base64,not base64!"]) None None None None in
  snd (ServiceVisit.patch anyObjectId jan15 true visitsTakenIn "v0" body) = visitsTakenIn.
Proof. vm_compute. reflexivity. Qed.

(** C1 as worded does not hold: a change to [completed] of a visit
    that has a handler and an after-image and no before-image is
    accepted and stored. *)
Lemma patch_completed_without_before_image :
  let visit' := ServiceVisit.applyBody visitTakenIn completeWithAfterImage in
  let result := ServiceVisit.patch anyObjectId jan15 true visitsTakenIn "v0" completeWithAfterImage in
  ServiceVisit.beforeImages visit' = []
  /\ ServiceVisit.handlerIds visit' = ["h1"]
  /\ fst result = ServiceVisit.Json (ServiceVisit.stamp jan15 visit')
  /\ snd result !! "v0" = Some (ServiceVisit.stamp jan15 visit')
  /\ ServiceVisit.status (ServiceVisit.stamp jan15 visit') = ServiceVisit.completed
  /\ snd result <> visitsTakenIn.
Proof.
  repeat split; try reflexivity.
  intros H. apply (f_equal (fun m => m !! "v0")) in H.
  vm_compute in H. discriminate.
Qed.

(** ** Invoice creation *)

Section CreateInvoiceFacts.
Import CreateInvoice.
Variable validObjectId : string -> bool.
Variable now : Date.t.
Variable isValid : Coupon -> string -> Z -> bool.
Variable calculateDiscount : Coupon -> Z -> Z.
Variable newId newInvoiceNumber userId : string.

Local Abbreviation fromServiceVisit :=
  (fromServiceVisit validObjectId now isValid calculateDiscount newId newInvoiceNumber userId).
Local Abbreviation applyCoupon := (applyCoupon isValid calculateDiscount).
Local Abbreviation visitReady := (visitReady validObjectId).

(** C8, as amended.  When the visit is missing, has no customer or is
    not completed, the call fails and the stores, the invoices among
    them, are left as they were.  The error is one of four fixed
    answers chosen by the precondition that failed; for a visit with
    a customer whose status is not [completed] it is the 400 "Can only
    generate invoice for completed service visits", which carries no
    status field and does not name the status the visit has. *)
Theorem from_service_visit_precondition (st : Stores) (body : Body) :
  ~ visitReady st body ->
  snd (fromServiceVisit st body) = st
  /\ (fst (fromServiceVisit st body) = Error 404 (errorOnly "Service visit not found")
      \/ fst (fromServiceVisit st body) = Error 500 (errorOnly "Failed to create invoice")
      \/ fst (fromServiceVisit st body)
         = Error 400 (errorOnly "Service visit has no associated customer")
      \/ fst (fromServiceVisit st body)
         = Error 400 (errorOnly "Can only generate invoice for completed service visits"))
  /\ (forall visit customer,
         Db.findById validObjectId (visits st) (b_serviceVisitId body) = Db.Found visit ->
         populateCustomer (customers st) visit = Some customer ->
         fst (fromServiceVisit st body)
         = Error 400 (errorOnly "Can only generate invoice for completed service visits")
         /\ names (errorOnly "Can only generate invoice for completed service visits")
                  (ServiceVisitStatus_name (ServiceVisit.status visit)) = false).
Proof.
  intros Hnot. unfold CreateInvoice.fromServiceVisit.
  destruct (Db.findById validObjectId (visits st) (b_serviceVisitId body)) as [visit| |] eqn:Hfind.
  - destruct (populateCustomer (customers st) visit) as [customer|] eqn:Hpop.
    + destruct (ServiceVisit.status visit) eqn:Hst.
      4: { exfalso. apply Hnot. exists visit, customer. auto. }
      all: split; [reflexivity |]; split; [auto |].
      all: intros v c [= <-] _; rewrite Hst; split; reflexivity.
    + split; [reflexivity |]. split; [auto |]. intros v c [= <-] Hc. congruence.
  - split; [reflexivity |]. split; [auto |]. intros v c Hv. discriminate.
  - split; [reflexivity |]. split; [auto |]. intros v c Hv. discriminate.
Qed.

(** A coupon the handler does not apply leaves the discount fields at
    their defaults and the coupons alone, and still yields an invoice
    whose [couponCode] is the supplied text in upper case. *)
Lemma from_service_visit_coupon_not_applied (st : Stores) (body : Body)
      (visit : ServiceVisit.t) (customer : Customer) :
  Db.findById validObjectId (visits st) (b_serviceVisitId body) = Db.Found visit ->
  populateCustomer (customers st) visit = Some customer ->
  ServiceVisit.status visit = ServiceVisit.completed ->
  co_couponId (applyCoupon (coupons st) (b_couponCode body) (customer_id customer)
                           (subtotalOf (b_items body))) = None ->
  exists invoice,
    fst (fromServiceVisit st body) = Json invoice
    /\ invoices (snd (fromServiceVisit st body)) = <[newId := invoice]> (invoices st)
    /\ coupons (snd (fromServiceVisit st body)) = coupons st
    /\ Invoice.couponId invoice = None
    /\ Invoice.couponCode invoice = option_map Js.toUpperCase (b_couponCode body).
Proof.
  intros Hfind Hpop Hst Hco. unfold CreateInvoice.fromServiceVisit.
  rewrite Hfind, Hpop, Hst. cbn [fst snd invoices coupons]. rewrite Hco.
  eexists. repeat split; try reflexivity. simpl. exact Hco.
Qed.

(** A coupon that validates is stored on the invoice with its
    discount, and its counter and ledger are updated. *)
Lemma from_service_visit_coupon_applied (st : Stores) (body : Body)
      (visit : ServiceVisit.t) (customer : Customer) (c : string) (coupon : Coupon) :
  Db.findById validObjectId (visits st) (b_serviceVisitId body) = Db.Found visit ->
  populateCustomer (customers st) visit = Some customer ->
  ServiceVisit.status visit = ServiceVisit.completed ->
  b_couponCode body = Some c -> c <> "" ->
  findCouponByCode (coupons st) (Js.toUpperCase c) = Some coupon ->
  isValid coupon (customer_id customer) (subtotalOf (b_items body)) = true ->
  let sub := subtotalOf (b_items body) in
  exists invoice,
    fst (fromServiceVisit st body) = Json invoice
    /\ invoices (snd (fromServiceVisit st body)) = <[newId := invoice]> (invoices st)
    /\ Invoice.discountAmount invoice = calculateDiscount coupon sub
    /\ Invoice.discountType invoice = coupon_discountType coupon
    /\ Invoice.discountValue invoice = coupon_discountValue coupon
    /\ Invoice.couponId invoice = Some (coupon_id coupon)
    /\ Invoice.totalAmount invoice = sub - calculateDiscount coupon sub
    /\ coupons (snd (fromServiceVisit st body))
       = findByIdAndUpdate (coupon_id coupon)
           (redeem {| usage_invoiceId := newId;
                      usage_customerId := customer_id customer;
                      discountApplied := calculateDiscount coupon sub |})
           (coupons st).
Proof.
  intros Hfind Hpop Hst Hc Hne Hcoupon Hvalid sub. subst sub.
  unfold CreateInvoice.fromServiceVisit. rewrite Hfind, Hpop, Hst.
  set (sub := subtotalOf (b_items body)) in *.
  assert (Hco : applyCoupon (coupons st) (b_couponCode body) (customer_id customer) sub
                = {| co_discountAmount := calculateDiscount coupon sub;
                     co_couponId := Some (coupon_id coupon);
                     co_discountType := coupon_discountType coupon;
                     co_discountValue := coupon_discountValue coupon |}).
  { unfold CreateInvoice.applyCoupon. rewrite Hc.
    destruct (String.eqb c "") eqn:E; [apply String.eqb_eq in E; contradiction |].
    rewrite Hcoupon. now rewrite Hvalid. }
  rewrite Hco. cbn [fst snd invoices coupons co_couponId co_discountAmount].
  eexists. repeat split; reflexivity.
Qed.

End CreateInvoiceFacts.

Lemma from_service_visit_precondition_witness :
  snd (CreateInvoice.fromServiceVisit anyObjectId jan15 neverValid tenPercent
         "i1" "INV/0001" "u1" shop (invoiceRequest "v1" None)) = shop.
Proof.
  apply (from_service_visit_precondition anyObjectId jan15 neverValid tenPercent
           "i1" "INV/0001" "u1" shop (invoiceRequest "v1" None)).
  intros (visit & customer & Hfind & _ & Hstatus).
  vm_compute in Hfind. injection Hfind as <-. discriminate.
Defined.

(** C8 as worded does not hold: for a visit that is [working] the
    error has no status field and its text does not contain
    "working". *)
Lemma from_service_visit_error_hides_status :
  ServiceVisit.status visitInWork = ServiceVisit.working
  /\ exists body,
      CreateInvoice.fromServiceVisit anyObjectId jan15 neverValid tenPercent
        "i1" "INV/0001" "u1" shop (invoiceRequest "v1" None)
      = (CreateInvoice.Error 400 body, shop)
      /\ currentStatus body = None
      /\ names body "working" = false.
Proof.
  split; [reflexivity |]. eexists. split; [vm_compute; reflexivity |].
  split; reflexivity.
Qed.

(** C5 fails on the code: the coupon is turned down, the invoice is
    created without discount and without coupon reference, and yet its
    [couponCode] holds the code of the request. *)
Lemma from_service_visit_keeps_refused_code :
  exists invoice st',
    CreateInvoice.fromServiceVisit anyObjectId jan15 neverValid tenPercent
      "i1" "INV/0001" "u1" shop (invoiceRequest "v2" (Some "save10"))
    = (CreateInvoice.Json invoice, st')
    /\ CreateInvoice.invoices st' !! "i1" = Some invoice
    /\ CreateInvoice.coupons st' = [save10]
    /\ Invoice.discountAmount invoice = 0
    /\ Invoice.discountType invoice = "none"
    /\ Invoice.couponId invoice = None
    /\ Invoice.totalAmount invoice = 500
    /\ Invoice.couponCode invoice = Some "SAVE10".
Proof.
  do 2 eexists. split; [vm_compute; reflexivity |].
  repeat split; vm_compute; reflexivity.
Qed.

(** ** Calendar arithmetic *)

Module DateFacts.
Import Date.

Lemma daysInMonth_bounds (ym : Z) : 28 <= daysInMonth ym <= 31.
Proof.
  unfold daysInMonth.
  destruct (ym mod 12 =? 1); [destruct (isLeap (ym / 12)); lia |].
  destruct ((ym mod 12 =? 3) || (ym mod 12 =? 5) || (ym mod 12 =? 8) || (ym mod 12 =? 10)); lia.
Qed.

Lemma carryDays_fits (fuel : nat) (ym d : Z) :
  d <= daysInMonth ym -> carryDays fuel ym d = (ym, d).
Proof.
  intros H. destruct fuel; simpl; [reflexivity |].
  destruct (daysInMonth ym <? d) eqn:E; [lia | reflexivity].
Qed.

Lemma carryDays_once (fuel : nat) (ym d : Z) :
  daysInMonth ym < d -> d <= daysInMonth ym + 28 ->
  carryDays (S fuel) ym d = (ym + 1, d - daysInMonth ym).
Proof.
  intros Hlt Hle. simpl.
  destruct (daysInMonth ym <? d) eqn:E; [| lia].
  apply carryDays_fits. pose proof (daysInMonth_bounds (ym + 1)). lia.
Qed.

Lemma makeDay_cases (ym d tm : Z) :
  1 <= d -> d <= daysInMonth ym + 28 ->
  makeDay ym d tm =
  if d <=? daysInMonth ym
  then mk (ym / 12) (ym mod 12) d tm
  else mk ((ym + 1) / 12) ((ym + 1) mod 12) (d - daysInMonth ym) tm.
Proof.
  intros H1 H2. unfold makeDay.
  destruct (d <=? daysInMonth ym) eqn:E.
  - rewrite carryDays_fits by lia. reflexivity.
  - destruct (Z.to_nat d) as [|fuel] eqn:F; [lia |].
    rewrite carryDays_once by lia. reflexivity.
Qed.

Lemma monthIndex_split (x : t) :
  0 <= month x < 12 -> monthIndex x / 12 = year x /\ monthIndex x mod 12 = month x.
Proof.
  intros H. unfold monthIndex.
  rewrite (Z.mul_comm 12), Z.add_comm.
  rewrite Z.div_add, Z.mod_add by lia.
  rewrite Z.div_small, Z.mod_small by lia. lia.
Qed.

Lemma setDate_plusDays (x : t) (n : Z) :
  wellFormed x -> 0 <= n <= 28 -> setDate x (date x + n) = plusDays x n.
Proof.
  intros [Hm Hd] Hn. unfold setDate, plusDays.
  rewrite makeDay_cases by lia.
  destruct (monthIndex_split x Hm) as [-> ->]. reflexivity.
Qed.

Lemma setMonth_plusMonths (x : t) (n : Z) :
  wellFormed x -> setMonth x (month x + n) = plusMonths x n.
Proof.
  intros [Hm Hd]. unfold setMonth, plusMonths.
  pose proof (daysInMonth_bounds (monthIndex x)).
  pose proof (daysInMonth_bounds (12 * year x + (month x + n))).
  rewrite makeDay_cases by lia.
  replace (12 * year x + (month x + n)) with (monthIndex x + n) by (unfold monthIndex; lia).
  reflexivity.
Qed.

End DateFacts.

(** ** The first integer literal of a text *)

Module DigitFacts.
Import Js.

Lemma take_digits_split (s : string) :
  exists post,
    s = String.append (take_digits s) post
    /\ all_digits (take_digits s) = true
    /\ stops post = true.
Proof.
  induction s as [|c s (post & Hs & Hall & Hstop)]; simpl.
  - exists EmptyString. auto.
  - destruct (is_digit c) eqn:E.
    + exists post. simpl. rewrite E, Hall. split; [| auto].
      change (String c s = String c (String.append (take_digits s) post)). now f_equal.
    + exists (String c s). simpl. rewrite E. auto.
Qed.

(** A match of [/\d+/] is the leftmost maximal run of digits: no
    digit comes before it, it is made of digits, it is not empty and
    no digit follows it. *)
Lemma match_digits_first (s d : string) :
  match_digits s = Some d ->
  exists pre post,
    s = String.append pre (String.append d post)
    /\ no_digit pre = true
    /\ all_digits d = true
    /\ d <> EmptyString
    /\ stops post = true.
Proof.
  induction s as [|c s IH]; simpl; [discriminate |].
  destruct (is_digit c) eqn:E.
  - intros [= <-]. destruct (take_digits_split s) as (post & Hs & Hall & Hstop).
    exists EmptyString, post. simpl. rewrite E, Hall.
    repeat split; auto.
    change (String c s = String c (String.append (take_digits s) post)). now f_equal.
  - intros H. destruct (IH H) as (pre & post & Hs & Hpre & Hall & Hne & Hstop).
    exists (String c pre), post. simpl. rewrite E, Hpre.
    repeat split; auto.
    change (String c s = String c (String.append pre (String.append d post))). now f_equal.
Qed.

Lemma match_digits_none (s : string) : match_digits s = None -> no_digit s = true.
Proof.
  induction s as [|c s IH]; simpl; [auto |].
  destruct (is_digit c); [discriminate |]. auto.
Qed.

Lemma parse_digits_snoc (d : string) (c : ascii) :
  all_digits d = true -> is_digit c = true ->
  forall acc,
    parse_digits acc (String.append d (String c EmptyString))
    = 10 * parse_digits acc d + digit_value c.
Proof.
  induction d as [|a d IH]; simpl; intros Hd Hc acc.
  - now rewrite Hc.
  - apply andb_true_iff in Hd as [Ha Hd]. rewrite Ha. now apply IH.
Qed.

(** [parseInt] reads a run of digits as a decimal numeral. *)
Lemma parseInt_snoc (d : string) (c : ascii) :
  all_digits d = true -> is_digit c = true ->
  parseInt (String.append d (String c EmptyString)) = 10 * parseInt d + digit_value c.
Proof. intros Hd Hc. now apply parse_digits_snoc. Qed.

Example duration_of_months : option_map parseInt (match_digits "12 months") = Some 12.
Proof. reflexivity. Qed.

Example duration_takes_first_number :
  option_map parseInt (match_digits "Up to 2 years or 24000 km") = Some 2.
Proof. reflexivity. Qed.

Example duration_without_number : match_digits "lifetime" = None.
Proof. reflexivity. Qed.

End DigitFacts.

(** ** Invoice approval *)

Section ApproveFacts.
Import Invoice Approve.
Variable validObjectId : string -> bool.
Variable userId : string.

Local Abbreviation approve := (approve validObjectId userId).
Local Abbreviation warrantyFor := (warrantyFor validObjectId).
Local Abbreviation createdWarranties := (createdWarranties validObjectId).

Lemma Status_name_inj (a b : Status) : Status_name a = Status_name b -> a = b.
Proof. destruct a, b; simpl; intros H; try reflexivity; discriminate. Qed.

(** C2.  On an invoice that is not [pending_approval] the approval
    fails with an error that carries the status the invoice has, and
    neither the invoices nor the warranties change.  On a
    [pending_approval] invoice, whatever the PDF renderer, the
    warranty store and the notifier do, the stored invoice ends
    [approved] with the fresh access token and an expiry seven days
    after the approval. *)
Theorem approve_status_gate (env : Env) (products : gmap string Product)
        (invoices : gmap string Invoice.t) (warranties : list Warranty)
        (invoiceId : string) (invoice : Invoice.t) :
  Db.findById validObjectId invoices invoiceId = Db.Found invoice ->
  (status invoice <> pending_approval ->
   approve env products invoices warranties invoiceId
   = (Error 400 {| error := "Invoice is not pending approval";
                   currentStatus := Some (Status_name (status invoice));
                   details := None |},
      invoices, warranties))
  /\ (status invoice = pending_approval ->
      exists invoice',
        fst (fst (approve env products invoices warranties invoiceId)) = Json invoice'
        /\ snd (fst (approve env products invoices warranties invoiceId)) !! invoiceId
           = Some invoice'
        /\ status invoice' = approved
        /\ pdfAccessToken invoice' = Some (token env)
        /\ pdfTokenExpiry invoice' = Some (Date.setDate (now env) (Date.date (now env) + 7))
        /\ (Date.wellFormed (now env) ->
            pdfTokenExpiry invoice' = Some (plusDays (now env) 7))
        /\ totalAmount invoice' = totalAmount invoice
        /\ items invoice' = items invoice).
Proof.
  intros Hfind. unfold Approve.approve. rewrite Hfind. split.
  - intros Hst. destruct (status invoice); try reflexivity. contradiction.
  - intros ->.
    destruct (pdf env) as [path|]; cbn [fst snd];
      (eexists; split; [reflexivity |]; split; [apply lookup_insert_eq |]);
      (split; [reflexivity |]; split; [reflexivity |]; split; [reflexivity |]);
      (split; [| split; reflexivity]);
      intros Hwf; cbn; unfold tokenExpiry; f_equal;
      apply DateFacts.setDate_plusDays; [assumption | lia | assumption | lia].
Qed.

End ApproveFacts.

Section WarrantyFacts.
Import Invoice Approve.
Variable validObjectId : string -> bool.
Variable userId : string.
Variable env : Env.
Variable products : gmap string Product.

Local Abbreviation approve := (approve validObjectId userId env products).
Local Abbreviation warrantyFor := (warrantyFor validObjectId env products).

Lemma durationOf_monthsOf (text : string) : durationOf text = monthsOf text.
Proof. unfold durationOf, monthsOf. now destruct (Js.match_digits text). Qed.

Lemma warrantyFor_some (invoice : Invoice.t) (item : Item) (w : Warranty) :
  warrantyFor invoice item = Some w ->
  exists pid p text,
    productId item = Some pid
    /\ Db.findById validObjectId products pid = Db.Found p
    /\ product_warranty p = Some text
    /\ text <> ""
    /\ w = {| warranty_invoiceId := id invoice;
              warranty_customerId := customerId invoice;
              warranty_productId := pid;
              productName := name item;
              warrantyType := "manufacturer";
              durationMonths := monthsOf text;
              startDate := now env;
              endDate := Date.setMonth (now env) (Date.month (now env) + monthsOf text);
              coverage := text;
              warranty_status := "active" |}.
Proof.
  unfold Approve.warrantyFor.
  destruct (productId item) as [pid|]; [| discriminate].
  destruct (Db.findById validObjectId products pid) as [p| |] eqn:Hfind; try discriminate.
  destruct (product_warranty p) as [text|] eqn:Htext; [| discriminate].
  destruct (String.eqb text "") eqn:E; [discriminate |].
  intros [= <-]. exists pid, p, text. rewrite durationOf_monthsOf.
  repeat split; auto. intros ->. discriminate.
Qed.

Lemma warrantyFor_none (invoice : Invoice.t) (item : Item) :
  warrantyFor invoice item = None <->
  ~ exists pid p text,
      productId item = Some pid
      /\ Db.findById validObjectId products pid = Db.Found p
      /\ product_warranty p = Some text
      /\ text <> "".
Proof.
  unfold Approve.warrantyFor. split.
  - intros H (pid & p & text & Hpid & Hfind & Htext & Hne).
    rewrite Hpid, Hfind, Htext in H.
    destruct (String.eqb text "") eqn:E; [| discriminate].
    apply String.eqb_eq in E. contradiction.
  - intros H.
    destruct (productId item) as [pid|]; [| reflexivity].
    destruct (Db.findById validObjectId products pid) as [p| |] eqn:Hfind; try reflexivity.
    destruct (product_warranty p) as [text|] eqn:Htext; [| reflexivity].
    destruct (String.eqb text "") eqn:E; [reflexivity |].
    exfalso. apply H. exists pid, p, text. repeat split; auto.
    intros ->. discriminate.
Qed.

Lemma warrantyFor_found (invoice : Invoice.t) (item : Item) (pid : string)
      (p : Product) (text : string) :
  productId item = Some pid ->
  Db.findById validObjectId products pid = Db.Found p ->
  product_warranty p = Some text ->
  text <> "" ->
  warrantyFor invoice item
  = Some {| warranty_invoiceId := id invoice;
            warranty_customerId := customerId invoice;
            warranty_productId := pid;
            productName := name item;
            warrantyType := "manufacturer";
            durationMonths := monthsOf text;
            startDate := now env;
            endDate := Date.setMonth (now env) (Date.month (now env) + monthsOf text);
            coverage := text;
            warranty_status := "active" |}.
Proof.
  intros Hpid Hfind Htext Hne. unfold Approve.warrantyFor.
  rewrite Hpid, Hfind, Htext.
  destruct (String.eqb text "") eqn:E; [apply String.eqb_eq in E; contradiction |].
  now rewrite durationOf_monthsOf.
Qed.

(** The records the warranty step stores for an invoice: where each
    comes from, and which line items give one. *)
Lemma createdWarranties_characterised (invoice : Invoice.t) :
  (forall w, In w (createdWarranties validObjectId env products invoice) ->
     exists item pid p text,
       In item (items invoice)
       /\ hasWarranty item = true /\ type item = product
       /\ productId item = Some pid
       /\ Db.findById validObjectId products pid = Db.Found p
       /\ product_warranty p = Some text /\ text <> ""
       /\ warranty_productId w = pid
       /\ coverage w = text
       /\ durationMonths w = monthsOf text
       /\ (forall digits, Js.match_digits text = Some digits ->
             durationMonths w = Js.parseInt digits
             /\ exists pre post,
                 text = String.append pre (String.append digits post)
                 /\ no_digit pre = true
                 /\ all_digits digits = true
                 /\ digits <> ""
                 /\ stops post = true)
       /\ (no_digit text = true -> durationMonths w = 12)
       /\ startDate w = now env
       /\ endDate w = Date.setMonth (now env) (Date.month (now env) + durationMonths w)
       /\ (Date.wellFormed (now env) ->
           endDate w = plusMonths (now env) (durationMonths w))
       /\ createOk env w = true)
  /\ (forall item pid p text,
        In item (items invoice) ->
        hasWarranty item = true -> type item = product ->
        productId item = Some pid ->
        Db.findById validObjectId products pid = Db.Found p ->
        product_warranty p = Some text -> text <> "" ->
        exists w,
          warranty_invoiceId w = id invoice
          /\ warranty_customerId w = customerId invoice
          /\ warranty_productId w = pid
          /\ productName w = name item
          /\ warrantyType w = "manufacturer"
          /\ coverage w = text
          /\ durationMonths w = monthsOf text
          /\ startDate w = now env
          /\ endDate w = Date.setMonth (now env) (Date.month (now env) + monthsOf text)
          /\ warranty_status w = "active"
          /\ (createOk env w = true ->
              In w (createdWarranties validObjectId env products invoice))).
Proof.
  split.
  - intros w Hw. unfold Approve.createdWarranties in Hw.
    apply filter_In in Hw as [Hw Hok].
    apply list_elem_of_In, list_elem_of_omap in Hw as (item & Hitem & Hfor).
    apply list_elem_of_In, filter_In in Hitem as [Hitem Hel].
    apply andb_true_iff in Hel as [Hhas Hty].
    destruct (warrantyFor_some _ _ _ Hfor)
      as (pid & p & text & Hpid & Hfind & Htext & Hne & Hw).
    rewrite Hw in Hok. rewrite Hw. clear Hw.
    exists item, pid, p, text; cbn [durationMonths startDate endDate warranty_productId coverage].
    repeat (split; [first [assumption | reflexivity | now destruct (type item)] |]).
    split; [intros digits Hd; unfold monthsOf; rewrite Hd; split;
            [reflexivity | now apply DigitFacts.match_digits_first] |].
    split.
    { intros Hno. unfold monthsOf.
      destruct (Js.match_digits text) as [digits|] eqn:Hd; [| reflexivity]. exfalso.
      destruct (DigitFacts.match_digits_first _ _ Hd)
        as (pre & post & Hs & Hpre & Hall & Hn & _).
      subst text. clear - Hno Hall Hn.
      induction pre as [|a pre IH]; simpl in Hno;
        [destruct digits as [|c digits]; [congruence |]; simpl in *;
         destruct (Js.is_digit c); simpl in *; congruence
        | apply andb_true_iff in Hno as [_ Hno]; auto]. }
    split; [reflexivity |]. split; [reflexivity |].
    split; [intros Hwf; now apply DateFacts.setMonth_plusMonths | exact Hok].
  - intros item pid p text Hitem Hhas Hty Hpid Hfind Htext Hne.
    pose proof (warrantyFor_found invoice item pid p text Hpid Hfind Htext Hne) as Hfor.
    match type of Hfor with _ = Some ?w => exists w end.
    do 10 (split; [reflexivity |]).
    intros Hok. unfold Approve.createdWarranties.
    apply filter_In. split; [| exact Hok].
    apply list_elem_of_In, list_elem_of_omap. exists item. split; [| exact Hfor].
    apply list_elem_of_In, filter_In. split; [exact Hitem |].
    unfold eligible. now rewrite Hhas, Hty.
Qed.


End WarrantyFacts.

Lemma approve_status_gate_witness :
  exists invoice',
    snd (fst (Approve.approve anyObjectId "u1" roughDay stock
                pendingInvoices [] "i1")) !! "i1" = Some invoice'
    /\ Invoice.status invoice' = Invoice.approved
    /\ Invoice.pdfTokenExpiry invoice' = Some (Date.mk 2025 0 22 0).
Proof.
  destruct (proj2 (approve_status_gate anyObjectId "u1" roughDay stock
                     pendingInvoices [] "i1" pendingInvoice
                     ltac:(vm_compute; reflexivity)) ltac:(reflexivity))
    as (invoice' & _ & Hstored & Hstatus & _ & Hexpiry & _).
  exists invoice'. split; [exact Hstored |]. split; [exact Hstatus |].
  rewrite Hexpiry. vm_compute. reflexivity.
Defined.


(** ** Numbers *)

Module NumberFacts.
Import Js.

Lemma round53_small (n : Z) : Z.abs n < 2 ^ 53 -> round53 n = n.
Proof.
  intros H. unfold round53.
  destruct (Z.eq_dec (Z.abs n) 0) as [E | E].
  - rewrite E. reflexivity.
  - assert (Hlog : Z.log2 (Z.abs n) < 53) by (apply Z.log2_lt_pow2; lia).
    destruct (Z.log2 (Z.abs n) - 52 <=? 0) eqn:L; [reflexivity | lia].
Qed.

Lemma round53_large (n : Z) : 2 ^ 53 <= Z.abs n -> 2 ^ 53 <= Z.abs (round53 n).
Proof.
  intros H. unfold round53.
  set (a := Z.abs n) in *.
  assert (Hlog : 53 <= Z.log2 a) by (apply Z.log2_le_pow2; lia).
  destruct (Z.log2 a - 52 <=? 0) eqn:L; [lia |].
  set (shift := Z.log2 a - 52) in *.
  assert (Hshift : 1 <= shift) by lia.
  set (q := Z.shiftr a shift).
  assert (Hq : 2 ^ 52 <= q).
  { unfold q. rewrite Z.shiftr_div_pow2 by lia.
    apply Z.div_le_lower_bound; [apply Z.pow_pos_nonneg; lia |].
    rewrite <- Z.pow_add_r by lia.
    replace (shift + 52) with (Z.log2 a) by lia.
    apply Z.log2_spec. lia. }
  match goal with
  | |- context [if ?b then q + 1 else q] => set (q' := if b then q + 1 else q)
  end.
  assert (Hq' : q <= q')
    by (unfold q'; match goal with |- context [if ?b then _ else _] => destruct b end; lia).
  rewrite Z.abs_mul, Z.shiftl_mul_pow2 by lia.
  assert (Hsgn : Z.abs (Z.sgn n) = 1)
    by (destruct n; simpl in *; unfold a in *; simpl in *; lia).
  rewrite Hsgn, Z.mul_1_l.
  assert (Hpow : 2 <= 2 ^ shift).
  { change 2 with (2 ^ 1) at 1. apply Z.pow_le_mono_r; lia. }
  rewrite Z.abs_eq by (apply Z.mul_nonneg_nonneg; lia).
  change (2 ^ 53) with (2 ^ 52 * 2). apply Z.mul_le_mono_nonneg; lia.
Qed.

(** A rounded sum below 2^53 in magnitude is the exact sum. *)
Lemma round53_in_range (n : Z) : Z.abs (round53 n) < 2 ^ 53 -> round53 n = n.
Proof.
  intros H. destruct (Z_lt_le_dec (Z.abs n) (2 ^ 53)) as [Hs | Hl].
  - now apply round53_small.
  - apply round53_large in Hl. lia.
Qed.

Lemma round53_nonneg (n : Z) : 0 <= n -> 0 <= round53 n.
Proof.
  intros H. unfold round53.
  destruct (Z.log2 (Z.abs n) - 52 <=? 0) eqn:L; [exact H |].
  apply Z.leb_gt in L.
  apply Z.mul_nonneg_nonneg; [destruct n; simpl; lia |].
  apply Z.shiftl_nonneg.
  assert (0 <= Z.shiftr (Z.abs n) (Z.log2 (Z.abs n) - 52))
    by (apply Z.shiftr_nonneg; lia).
  match goal with |- context [if ?b then _ else _] => destruct b end; lia.
Qed.

(** Rounding does not depend on the binary unit the amounts are
    counted in. *)
Lemma round53_scale (n k : Z) : 0 <= k -> round53 (n * 2 ^ k) = round53 n * 2 ^ k.
Proof.
  intros Hk.
  assert (Hpk : 0 < 2 ^ k) by (apply Z.pow_pos_nonneg; lia).
  destruct (Z.eq_dec n 0) as [-> | Hn]; [reflexivity |].
  unfold round53.
  assert (Habs : Z.abs (n * 2 ^ k) = Z.abs n * 2 ^ k) by (rewrite Z.abs_mul, (Z.abs_eq (2 ^ k)); lia).
  assert (Hsgn : Z.sgn (n * 2 ^ k) = Z.sgn n)
    by (rewrite Z.sgn_mul, (Z.sgn_pos (2 ^ k)) by lia; lia).
  rewrite Habs, Hsgn.
  set (a := Z.abs n) in *.
  assert (Ha : 0 < a) by (unfold a; lia).
  rewrite (Z.log2_mul_pow2 a k) by lia.
  set (shift := Z.log2 a - 52).
  replace (k + Z.log2 a - 52) with (shift + k) by (unfold shift; lia).
  destruct (shift + k <=? 0) eqn:L'.
  { apply Z.leb_le in L'. destruct (shift <=? 0) eqn:L; [reflexivity |].
    apply Z.leb_gt in L. lia. }
  apply Z.leb_gt in L'.
  rewrite !Z.shiftr_div_pow2, !Z.shiftl_mul_pow2 by lia.
  destruct (shift <=? 0) eqn:L.
  - apply Z.leb_le in L.
    assert (Hq : a * 2 ^ k / 2 ^ (shift + k) = a * 2 ^ (- shift)).
    { replace (a * 2 ^ k) with (a * 2 ^ (- shift) * 2 ^ (shift + k)).
      - apply Z.div_mul. apply Z.pow_nonzero; lia.
      - rewrite <- Z.mul_assoc, <- Z.pow_add_r by lia. do 2 f_equal. lia. }
    rewrite Hq.
    assert (Hr : a * 2 ^ k - a * 2 ^ (- shift) * 2 ^ (shift + k) = 0).
    { rewrite <- Z.mul_assoc, <- Z.pow_add_r by lia.
      replace (- shift + (shift + k)) with k by lia. lia. }
    rewrite Hr.
    assert (Hhalf : 0 < 1 * 2 ^ (shift + k - 1)) by (rewrite Z.mul_1_l; apply Z.pow_pos_nonneg; lia).
    destruct (1 * 2 ^ (shift + k - 1) <? 0) eqn:E1; [apply Z.ltb_lt in E1; lia |].
    destruct (0 =? 1 * 2 ^ (shift + k - 1)) eqn:E2; [apply Z.eqb_eq in E2; lia |].
    cbn [orb andb].
    rewrite <- !Z.mul_assoc, <- Z.pow_add_r by lia.
    replace (- shift + (shift + k)) with k by lia.
    unfold a. rewrite Z.mul_assoc, (Z.mul_comm (Z.sgn n)), Z.abs_sgn. reflexivity.
  - apply Z.leb_gt in L.
    rewrite !Z.shiftr_div_pow2, !Z.shiftl_mul_pow2 by lia.
    assert (Hq : a * 2 ^ k / 2 ^ (shift + k) = a / 2 ^ shift).
    { rewrite Z.pow_add_r by lia.
      apply Z.div_mul_cancel_r; apply Z.pow_nonzero; lia. }
    rewrite Hq. set (q := a / 2 ^ shift).
    assert (Hhalf : 1 * 2 ^ (shift + k - 1) = 1 * 2 ^ (shift - 1) * 2 ^ k).
    { rewrite !Z.mul_1_l, <- Z.pow_add_r by lia. f_equal. lia. }
    assert (Hr : a * 2 ^ k - q * 2 ^ (shift + k) = (a - q * 2 ^ shift) * 2 ^ k).
    { rewrite Z.pow_add_r by lia. lia. }
    rewrite Hhalf, Hr.
    set (r := a - q * 2 ^ shift). set (half := 1 * 2 ^ (shift - 1)).
    assert (E1 : (half * 2 ^ k <? r * 2 ^ k) = (half <? r)).
    { destruct (half <? r) eqn:E; [apply Z.ltb_lt in E; apply Z.ltb_lt; nia
                                  | apply Z.ltb_ge in E; apply Z.ltb_ge; nia]. }
    assert (E2 : (r * 2 ^ k =? half * 2 ^ k) = (r =? half)).
    { destruct (r =? half) eqn:E; [apply Z.eqb_eq in E; apply Z.eqb_eq; nia
                                  | apply Z.eqb_neq in E; apply Z.eqb_neq; nia]. }
    rewrite E1, E2.
    match goal with |- context [if ?b then q + 1 else q] => destruct b end;
      rewrite Z.pow_add_r by lia; ring.
Qed.

Lemma num_sub_diag (n : Z) : num_sub n n = 0.
Proof. unfold num_sub. now rewrite Z.sub_diag. Qed.

End NumberFacts.

(** ** Payments *)

Section PaymentFacts.
Import Invoice Payments.
Variable validObjectId : string -> bool.
Variable now : Date.t.
Variable userId : string.

Local Abbreviation setPaymentStatus := (setPaymentStatus validObjectId).
Local Abbreviation recordPayment := (recordPayment validObjectId now userId).
Local Abbreviation call := (call validObjectId now userId).
Local Abbreviation run := (run validObjectId now userId).

Lemma applyPaymentStatus_balanced (ps : PaymentStatus) (method : option string)
      (invoice : Invoice.t) :
  balanced invoice ->
  balanced (applyPaymentStatus ps method invoice)
  /\ totalAmount (applyPaymentStatus ps method invoice) = totalAmount invoice.
Proof. unfold balanced. destruct ps; simpl; lia. Qed.

Lemma applyPayment_balanced (body : PaymentBody) (invoice : Invoice.t) :
  balanced invoice ->
  unrounded (applyPayment now userId body invoice) = true ->
  balanced (applyPayment now userId body invoice)
  /\ totalAmount (applyPayment now userId body invoice) = totalAmount invoice.
Proof.
  unfold balanced, unrounded. cbn [paidAmount dueAmount totalAmount applyPayment setPayment].
  intros Hbal Hin. apply andb_true_iff in Hin as [Hp Hd].
  apply Z.ltb_lt in Hp, Hd. unfold Js.num_add, Js.num_sub in *.
  rewrite (NumberFacts.round53_in_range _ Hp), (NumberFacts.round53_in_range _ Hd).
  lia.
Qed.

Lemma findById_lookup {A} (coll : gmap string A) (id : string) (doc : A) :
  Db.findById validObjectId coll id = Db.Found doc -> coll !! id = Some doc.
Proof.
  unfold Db.findById. destruct (validObjectId id); [| discriminate].
  destruct (coll !! id); [| discriminate]. now intros [= ->].
Qed.

(** Either the call changes nothing, or it stores under [invoiceId]
    the updated invoice; amounts that were not rounded still add up. *)
Lemma call_balanced (invoices : gmap string Invoice.t) (invoiceId : string)
      (total : Z) (c : Call) :
  balancedAt invoiceId total invoices ->
  unroundedAt invoiceId (snd (call invoices invoiceId c)) = true ->
  balancedAt invoiceId total (snd (call invoices invoiceId c)).
Proof.
  intros (invoice & Hget & Htotal & Hbal).
  assert (Hsame : balancedAt invoiceId total invoices) by (exists invoice; auto).
  destruct c as [body | body]; simpl.
  - unfold Payments.recordPayment.
    destruct (Db.findById validObjectId invoices invoiceId) as [found| |] eqn:Hfind;
      try (intros _; exact Hsame).
    apply findById_lookup in Hfind. assert (found = invoice) as -> by congruence.
    destruct (status invoice); try (intros _; exact Hsame).
    destruct (dueAmount invoice <? b_amount body); [intros _; exact Hsame |].
    cbn [snd]. unfold unroundedAt. rewrite lookup_insert_eq. intros Hin.
    destruct (applyPayment_balanced body invoice Hbal Hin) as [Hb Ht].
    eexists. split; [apply lookup_insert_eq |]. split; [congruence | exact Hb].
  - intros _. unfold Payments.setPaymentStatus.
    destruct (b_paymentStatus body) as [s|]; [| exact Hsame].
    destruct (parsePaymentStatus s) as [ps|]; [| exact Hsame].
    destruct (_ && _ && _); [exact Hsame |].
    destruct (Db.findById validObjectId invoices invoiceId) as [found| |] eqn:Hfind; try exact Hsame.
    apply findById_lookup in Hfind. assert (found = invoice) as -> by congruence.
    destruct (status invoice); try exact Hsame.
    destruct (applyPaymentStatus_balanced ps (b_paymentMethod body) invoice Hbal) as [Hb Ht].
    eexists. split; [apply lookup_insert_eq |]. split; [congruence | exact Hb].
Qed.

(** C3, as amended.  From a stored invoice whose paid and due amounts
    add up to its total, after every call of a run of [recordPayment]
    and [setPaymentStatus] calls on it the stored invoice has the same
    total and its paid and due amounts still add up to it, provided
    the paid and due amounts the run stores stay below 2^53 counts of
    their binary unit in magnitude, so that no sum was rounded. *)
Theorem payments_keep_balance (cs : list Call) (invoices : gmap string Invoice.t)
        (invoiceId : string) (invoice : Invoice.t) :
  invoices !! invoiceId = Some invoice ->
  paidAmount invoice + dueAmount invoice = totalAmount invoice ->
  forallb (unroundedAt invoiceId) (run invoices invoiceId cs) = true ->
  Forall (fun invoices' =>
            exists invoice',
              invoices' !! invoiceId = Some invoice'
              /\ totalAmount invoice' = totalAmount invoice
              /\ paidAmount invoice' + dueAmount invoice' = totalAmount invoice')
         (run invoices invoiceId cs).
Proof.
  intros Hget Hbal.
  assert (H : balancedAt invoiceId (totalAmount invoice) invoices) by (exists invoice; auto).
  clear Hget Hbal. revert invoices H.
  induction cs as [|c cs IH]; intros invoices H; simpl; [constructor |].
  intros Hin. apply andb_true_iff in Hin as [Hc Hcs].
  pose proof (call_balanced _ _ _ c H Hc) as H'.
  constructor; [exact H' | now apply IH].
Qed.

(** C6, as amended.  An accepted call of the payment-status toggle
    leaves the invoice [partial] exactly when the request asks for
    ["partial"], a value the handler accepts; the amounts and the
    payment method are then left as they were.  Requests for ["paid"]
    and ["unpaid"] never leave the invoice [partial]. *)
Theorem set_payment_status_partial (invoices invoices' : gmap string Invoice.t)
        (invoiceId : string) (body : StatusBody) (invoice' : Invoice.t) :
  setPaymentStatus invoices invoiceId body = (Json invoice', invoices') ->
  invoices' !! invoiceId = Some invoice'
  /\ (paymentStatus invoice' = partial <-> b_paymentStatus body = Some "partial")
  /\ (paymentStatus invoice' = partial ->
      exists invoice,
        invoices !! invoiceId = Some invoice
        /\ paidAmount invoice' = paidAmount invoice
        /\ dueAmount invoice' = dueAmount invoice
        /\ paymentMethod invoice' = paymentMethod invoice).
Proof.
  unfold Payments.setPaymentStatus.
  destruct (b_paymentStatus body) as [s|]; [| discriminate].
  destruct (parsePaymentStatus s) as [ps|] eqn:Hparse; [| discriminate].
  destruct (_ && _ && _); [discriminate |].
  destruct (Db.findById validObjectId invoices invoiceId) as [invoice| |] eqn:Hfind;
    try discriminate.
  destruct (status invoice); try discriminate.
  intros [= <- <-]. split; [apply lookup_insert_eq |].
  apply findById_lookup in Hfind.
  unfold parsePaymentStatus in Hparse.
  destruct (String.eqb s "paid") eqn:E1.
  { injection Hparse as <-. apply String.eqb_eq in E1 as ->.
    split; [split; discriminate | discriminate]. }
  destruct (String.eqb s "unpaid") eqn:E2.
  { injection Hparse as <-. apply String.eqb_eq in E2 as ->.
    split; [split; discriminate | discriminate]. }
  destruct (String.eqb s "partial") eqn:E3; [| discriminate].
  injection Hparse as <-. apply String.eqb_eq in E3 as ->.
  split; [split; reflexivity |]. intros _. exists invoice. auto.
Qed.

End PaymentFacts.

Lemma payments_keep_balance_witness :
  Forall (fun invoices' =>
            exists invoice',
              invoices' !! "i1" = Some invoice'
              /\ Invoice.totalAmount invoice' = 500
              /\ Invoice.paidAmount invoice' + Invoice.dueAmount invoice'
                 = Invoice.totalAmount invoice')
         (Payments.run anyObjectId jan15 "u1" approvedInvoices "i1"
            [pay 300; Payments.SetPaymentStatus (toggle "partial"); pay 900;
             Payments.SetPaymentStatus (toggle "unpaid"); pay 500]).
Proof.
  apply (payments_keep_balance anyObjectId jan15 "u1"
           [pay 300; Payments.SetPaymentStatus (toggle "partial"); pay 900;
            Payments.SetPaymentStatus (toggle "unpaid"); pay 500]
           approvedInvoices "i1" approvedInvoice).
  - vm_compute. reflexivity.
  - vm_compute. reflexivity.
  - vm_compute. reflexivity.
Defined.

(** C3 as worded does not hold: on an approved invoice of 356.2 with
    nothing paid, whose amounts add up, a payment of 100.1 is accepted
    and stored, and the paid and due amounts stored no longer add up
    to the total, neither exactly nor as JavaScript adds them. *)
Lemma payments_lose_balance_to_rounding :
  exists invoice' invoices',
    Payments.recordPayment anyObjectId jan15 "u1" (labourInvoices rupees_356_2) "i1"
      {| Payments.b_amount := rupees_100_1; Payments.b_paymentMode := "Cash";
         Payments.b_transactionId := None; Payments.b_notes := None |}
    = (Payments.Json invoice', invoices')
    /\ invoices' !! "i1" = Some invoice'
    /\ Invoice.paidAmount (labourInvoice rupees_356_2)
       + Invoice.dueAmount (labourInvoice rupees_356_2)
       = Invoice.totalAmount (labourInvoice rupees_356_2)
    /\ Invoice.totalAmount invoice' = rupees_356_2
    /\ Invoice.paidAmount invoice' + Invoice.dueAmount invoice' = rupees_356_2 + 2
    /\ Js.num_add (Invoice.paidAmount invoice') (Invoice.dueAmount invoice')
       = rupees_356_2 + 4.
Proof.
  do 2 eexists. split; [vm_compute; reflexivity |].
  repeat split; vm_compute; reflexivity.
Qed.

(** The same beyond 2^53 on whole amounts: with 2^53 paid and 2 due, a
    payment of 1 leaves the paid amount as it was and takes 1 off the
    due amount. *)
Example payment_beyond_safe_integers :
  map (fun invoices' =>
         match invoices' !! "i1" with
         | Some i => Some (Invoice.paidAmount i, Invoice.dueAmount i, Invoice.totalAmount i)
         | None => None
         end)
      (Payments.run anyObjectId jan15 "u1" (labourInvoices (2 ^ 53 + 2)) "i1"
         [pay (2 ^ 53); pay 1])
  = [Some (2 ^ 53, 2, 2 ^ 53 + 2); Some (2 ^ 53, 1, 2 ^ 53 + 2)].
Proof. vm_compute. reflexivity. Qed.

Example payments_of_the_scenario :
  map (fun invoices' =>
         match invoices' !! "i1" with
         | Some i => Some (Invoice.paidAmount i, Invoice.dueAmount i, Invoice.paymentStatus i)
         | None => None
         end)
      (Payments.run anyObjectId jan15 "u1" approvedInvoices "i1" [pay 300; pay 200])
  = [Some (300, 200, Invoice.partial); Some (500, 0, Invoice.paid)].
Proof. vm_compute. reflexivity. Qed.

Lemma set_payment_status_partial_witness :
  paidInvoices !! "i1" = Some paidInvoice
  /\ (Invoice.paymentStatus paidInvoice = Invoice.partial <->
      Payments.b_paymentStatus (toggle "paid") = Some "partial").
Proof.
  destruct (set_payment_status_partial anyObjectId approvedInvoices
              paidInvoices "i1"
              (toggle "paid") paidInvoice ltac:(vm_compute; reflexivity))
    as (Hstored & Hpartial & _).
  split; [exact Hstored | exact Hpartial].
Defined.

(** C6 as worded does not hold: the toggle, asked for ["partial"] on
    an approved invoice with nothing paid, stores it as [partial]. *)
Lemma set_payment_status_reaches_partial :
  exists invoice' invoices',
    Payments.setPaymentStatus anyObjectId approvedInvoices "i1" (toggle "partial")
    = (Payments.Json invoice', invoices')
    /\ invoices' !! "i1" = Some invoice'
    /\ Invoice.paymentStatus invoice' = Invoice.partial
    /\ Invoice.paidAmount invoice' = 0
    /\ Invoice.paymentStatus approvedInvoice = Invoice.unpaid.
Proof.
  do 2 eexists. split; [vm_compute; reflexivity |].
  repeat split; vm_compute; reflexivity.
Qed.

(** ** Token-gated PDF *)

Section PublicPdfFacts.
Import Invoice PublicPdf.
Variable validObjectId : string -> bool.
Variable now : Date.t.
Variable existsSync : string -> bool.
Variable pdf : option string.

Local Abbreviation download := (download validObjectId now existsSync pdf).

(** C10.  For an invoice that is not [approved] the public PDF
    request is refused with the 400 of the status check whatever token
    it presents, the stored token included, and nothing is written. *)
Theorem public_pdf_needs_approval (invoices : gmap string Invoice.t) (invoiceId : string)
        (invoice : Invoice.t) (token : option string) :
  Db.findById validObjectId invoices invoiceId = Db.Found invoice ->
  status invoice <> approved ->
  download invoices invoiceId token
  = (Error 400 (errorOnly "PDF can only be accessed for approved invoices"), invoices).
Proof.
  intros Hfind Hst. unfold PublicPdf.download. rewrite Hfind.
  destruct (status invoice); try reflexivity. contradiction.
Qed.

(** The token tests are reached only for an approved invoice. *)
Lemma public_pdf_token_answers (invoices : gmap string Invoice.t) (invoiceId : string)
      (token : option string) (invoices' : gmap string Invoice.t) (message : string) :
  download invoices invoiceId token = (Error 403 (errorOnly message), invoices') ->
  exists invoice,
    Db.findById validObjectId invoices invoiceId = Db.Found invoice
    /\ status invoice = approved.
Proof.
  unfold PublicPdf.download.
  destruct (Db.findById validObjectId invoices invoiceId) as [invoice| |]; try discriminate.
  destruct (status invoice) eqn:E; try discriminate. eauto.
Qed.

End PublicPdfFacts.

Lemma public_pdf_needs_approval_witness :
  Invoice.pdfAccessToken cancelledInvoice = Some "5f2a9c"
  /\ PublicPdf.expired jan15 (Invoice.pdfTokenExpiry cancelledInvoice) = false
  /\ PublicPdf.download anyObjectId jan15 (fun _ => true) None cancelledInvoices "i1"
       (Some "5f2a9c")
     = (PublicPdf.Error 400 (errorOnly "PDF can only be accessed for approved invoices"),
        cancelledInvoices).
Proof.
  split; [vm_compute; reflexivity |]. split; [vm_compute; reflexivity |].
  apply (public_pdf_needs_approval anyObjectId jan15 (fun _ => true) None
           cancelledInvoices "i1" cancelledInvoice (Some "5f2a9c")).
  - vm_compute. reflexivity.
  - vm_compute. discriminate.
Defined.

(** ** Warranty cards on vehicles *)

Module WarrantyCardFacts.
Import WarrantyCards.

Lemma countPart_app (p : string) (l1 l2 : list VehicleWarrantyCard) :
  countPart p (l1 ++ l2) = (countPart p l1 + countPart p l2)%nat.
Proof. unfold countPart. now rewrite List.filter_app, length_app. Qed.

Lemma findIndex_none (p : string) (cards : list VehicleWarrantyCard) :
  findIndex p cards = None -> countPart p cards = O.
Proof.
  induction cards as [|wc cards IH]; simpl; [reflexivity |].
  unfold countPart. simpl.
  destruct (String.eqb (partId wc) p); [discriminate |].
  destruct (findIndex p cards); [discriminate |]. intros _. now apply IH.
Qed.

(** Replacing the first card of part [p] by another card of part [p]
    keeps the number of cards under every part. *)
Lemma countPart_replace (card : VehicleWarrantyCard) (q : string)
      (cards : list VehicleWarrantyCard) (i : nat) :
  findIndex (partId card) cards = Some i ->
  countPart q (<[i := card]> cards) = countPart q cards
  /\ (1 <= countPart (partId card) cards)%nat.
Proof.
  revert i. induction cards as [|wc cards IH]; intros i; simpl; [discriminate |].
  destruct (String.eqb (partId wc) (partId card)) eqn:E.
  - intros [= <-]. simpl. unfold countPart. simpl. rewrite E.
    apply String.eqb_eq in E. rewrite E.
    destruct (String.eqb (partId card) q); simpl; lia.
  - destruct (findIndex (partId card) cards) as [j|]; [| discriminate].
    intros [= <-]. destruct (IH j eq_refl) as [IH1 IH2]. simpl.
    unfold countPart in *. simpl. rewrite E.
    destruct (String.eqb (partId wc) q); simpl; lia.
Qed.

Lemma countPart_upsert (card : VehicleWarrantyCard) (q : string)
      (cards : list VehicleWarrantyCard) :
  countPart q (upsertCard card cards) =
  if String.eqb (partId card) q then Nat.max 1 (countPart q cards) else countPart q cards.
Proof.
  unfold upsertCard.
  destruct (findIndex (partId card) cards) as [i|] eqn:Hfind.
  - destruct (countPart_replace card q cards i Hfind) as [Hsame Hpos]. rewrite Hsame.
    destruct (String.eqb (partId card) q) eqn:E; [| reflexivity].
    apply String.eqb_eq in E. subst q. lia.
  - rewrite countPart_app. unfold countPart at 2. simpl.
    destruct (String.eqb (partId card) q) eqn:E; simpl; [| lia].
    apply String.eqb_eq in E. subst q. rewrite (findIndex_none _ _ Hfind). reflexivity.
Qed.

Lemma syncs_setWarrantyCards (customer : string) (ids : list string) (p : string)
      (cards : list VehicleWarrantyCard) (vehicle : Vehicle) :
  syncs customer ids p (setWarrantyCards cards vehicle) = syncs customer ids p vehicle.
Proof. reflexivity. Qed.

Lemma syncs_applySync (customer : string) (ids : list string) (p : string)
      (vehicle : Vehicle) (u : Sync) :
  syncs customer ids p (applySync vehicle u) = syncs customer ids p vehicle.
Proof.
  destruct u as [[customer' ids'] card]. simpl. unfold syncVehicle.
  destruct (syncs customer' ids' (partId card) vehicle); reflexivity.
Qed.

Lemma countPart_applySync (vehicle : Vehicle) (p : string) (u : Sync) :
  syncsTo vehicle p u ->
  countPart p (cardsOf (applySync vehicle u)) = Nat.max 1 (countPart p (cardsOf vehicle)).
Proof.
  destruct u as [[customer ids] card]. simpl. intros [Hp Hs].
  unfold syncVehicle. rewrite Hp, Hs. unfold cardsOf at 1. simpl.
  rewrite countPart_upsert, Hp, String.eqb_refl. reflexivity.
Qed.


(** What an accepted upload does to the vehicles is the
    synchronisation block run on the saved invoice. *)
Lemma upload_vehicles (validObjectId : string -> bool) (now : Date.t)
      (invoices invoices' : gmap string Invoice.t) (vehicles vehicles' : list Vehicle)
      (invoiceId : string) (body : Body) (card : Invoice.ItemWarrantyCard) :
  upload validObjectId now invoices vehicles invoiceId body
  = (Uploaded card, invoices', vehicles') ->
  exists invoice' item' data,
    invoices' !! invoiceId = Some invoice'
    /\ b_warrantyCardData body = Some data
    /\ vehicles' = syncVehicles invoice' item' data vehicles.
Proof.
  unfold upload.
  destruct (b_itemIndex body) as [itemIndex|]; [| discriminate].
  destruct (b_warrantyCardData body) as [data|]; [| discriminate].
  destruct (b_filename body) as [filename|]; [| discriminate].
  destruct (_ || _); [discriminate |].
  destruct (negb _); [discriminate |].
  destruct (dataUrlMatch data) as [[mimeType base64Data]|]; [| discriminate].
  destruct (negb _); [discriminate |].
  destruct (tooLarge base64Data); [discriminate |].
  destruct (Db.findById validObjectId invoices invoiceId) as [invoice| |]; try discriminate.
  destruct (_ || _); [discriminate |].
  destruct (Invoice.items invoice !! Z.to_nat itemIndex) as [item|]; [| discriminate].
  intros [= <- <- <-]. do 3 eexists.
  split; [apply lookup_insert_eq |]. split; reflexivity.
Qed.

Lemma syncVehicle_counts (customer : string) (ids : list string)
      (card : VehicleWarrantyCard) (vehicle : Vehicle) (q : string) :
  countPart q (cardsOf (syncVehicle customer ids card vehicle)) = countPart q (cardsOf vehicle)
  \/ (countPart q (cardsOf vehicle) = O
      /\ countPart q (cardsOf (syncVehicle customer ids card vehicle)) = 1%nat).
Proof.
  unfold syncVehicle. destruct (syncs customer ids (partId card) vehicle); [| now left].
  assert (H : countPart q (cardsOf (setWarrantyCards
                               (upsertCard card (cardsOf vehicle)) vehicle))
              = if String.eqb (partId card) q
                then Nat.max 1 (countPart q (cardsOf vehicle))
                else countPart q (cardsOf vehicle)).
  { unfold cardsOf at 1. simpl. apply countPart_upsert. }
  fold (cardsOf vehicle). rewrite H.
  destruct (String.eqb (partId card) q); [| now left].
  destruct (countPart q (cardsOf vehicle)) as [|n] eqn:E; [right | left]; lia.
Qed.

(** An accepted upload never leaves a vehicle with a second card
    under a part it held at most one card of. *)
Lemma upload_keeps_cards_unique (validObjectId : string -> bool) (now : Date.t)
      (invoices invoices' : gmap string Invoice.t) (vehicles vehicles' : list Vehicle)
      (invoiceId : string) (body : Body) (card : Invoice.ItemWarrantyCard) :
  upload validObjectId now invoices vehicles invoiceId body
  = (Uploaded card, invoices', vehicles') ->
  Forall2 (fun v v' =>
             forall q, (countPart q (cardsOf v) <= 1)%nat -> (countPart q (cardsOf v') <= 1)%nat)
          vehicles vehicles'.
Proof.
  intros H. destruct (upload_vehicles _ _ _ _ _ _ _ _ _ H) as (invoice' & item' & data & _ & _ & ->).
  clear H. unfold syncVehicles.
  destruct (Invoice.productId item') as [productIdStr|];
    [| apply Forall2_same_length_lookup_2; [reflexivity | intros; simplify_eq; auto]].
  destruct (Invoice.customerId invoice') as [customer|];
    [| apply Forall2_same_length_lookup_2; [reflexivity | intros; simplify_eq; auto]].
  destruct (invoiceVehicleIds invoice') as [|i ids];
    [apply Forall2_same_length_lookup_2; [reflexivity | intros; simplify_eq; auto] |].
  induction vehicles as [|v vehicles IH]; simpl; [constructor |].
  constructor; [| exact IH]. intros q Hq.
  destruct (syncVehicle_counts customer (i :: ids)
              {| partId := productIdStr; partName := Invoice.name item'; fileData := data |}
              v q) as [-> | [_ ->]]; lia.
Qed.

End WarrantyCardFacts.


Example second_upload_replaces_first :
  let '(_, invoices1, vehicles1) :=
    WarrantyCards.upload anyObjectId jan15 hatchbackInvoices [hatchback None] "i2"
      (cardUpload "data:application/pdf;base64,AAAA") in
  let '(_, _, vehicles2) :=
    WarrantyCards.upload anyObjectId jan15 invoices1 vehicles1 "i2"
      (cardUpload "data:application/pdf;base64,BBBB") in
  map warrantyCards vehicles2 = [Some [brakeCard "data:application/pdf;base64,BBBB"]].
Proof. vm_compute. reflexivity. Qed.


(** * Further properties of the handlers *)

(** ** Part resolver: batches and prefixed identifiers *)

Section PartResolverBatches.
Import PartResolver.
Variable validObjectId : string -> bool.
Variable getPartById : string -> option PredefinedPart.
Variable products : gmap string Product.

Local Abbreviation resolveOne := (resolveOne validObjectId getPartById products).
Local Abbreviation resolveByIds := (resolveByIds validObjectId getPartById products).
Local Abbreviation persisted := (persisted validObjectId products).
Local Abbreviation isMiss := (isMiss validObjectId getPartById products).

Lemma omap_filter_length (ids : list string) :
  (length (omap resolveOne ids) + length (List.filter isMiss ids) = length ids)%nat.
Proof.
  induction ids as [|productId ids IH]; [reflexivity |].
  change (omap resolveOne (productId :: ids))
    with (match resolveOne productId with
          | Some d => d :: omap resolveOne ids
          | None => omap resolveOne ids
          end).
  simpl List.filter. unfold isMiss at 1.
  destruct (resolveOne productId); simpl length; lia.
Qed.

(** X1.  A batch is split between the two answer lists, nothing is
    lost and nothing is answered twice: the resolved products and the
    not-found identifiers together are as many as the identifiers
    asked for.  Resolving two batches in one request gives the answers
    of the first followed by the answers of the second. *)
Theorem resolve_by_ids_splits_batch (ids1 ids2 : list string) :
  exists r1 n1 r2 n2,
    resolveByIds (Some ids1) = Json r1 n1
    /\ resolveByIds (Some ids2) = Json r2 n2
    /\ resolveByIds (Some (ids1 ++ ids2)%list) = Json (r1 ++ r2)%list (n1 ++ n2)%list
    /\ (length r1 + length n1 = length ids1)%nat.
Proof.
  exists (omap resolveOne ids1), (List.filter isMiss ids1),
         (omap resolveOne ids2), (List.filter isMiss ids2).
  rewrite !resolveByIds_lists, omap_app, List.filter_app.
  repeat split; auto. apply omap_filter_length.
Qed.

(** X2.  The legacy prefix is transparent: for an identifier that
    does not itself start with ["product-"], the prefixed form and the
    bare form denote the same persisted product, and each answer
    echoes the identifier in the form it was asked with. *)
Theorem resolve_prefixed_like_bare (productId : string) :
  Js.startsWith "product-" productId = false ->
  persisted (String.append "product-" productId) = persisted productId
  /\ forall p, persisted productId = Some p ->
       resolveOne (String.append "product-" productId)
       = Some (fromDatabase (String.append "product-" productId) p)
       /\ resolveOne productId = Some (fromDatabase productId p)
       /\ pd_id (fromDatabase (String.append "product-" productId) p)
          = String.append "product-" productId.
Proof.
  intros Hbare.
  assert (Hsame : persisted (String.append "product-" productId) = persisted productId).
  { unfold PartResolver.persisted.
    now rewrite mongoId_prefixed, (mongoId_bare productId Hbare). }
  split; [exact Hsame |]. intros p Hp.
  rewrite !resolveOne_cases, Hsame, Hp. auto.
Qed.

End PartResolverBatches.

Lemma resolve_prefixed_like_bare_witness :
  PartResolver.resolveOne hex24 catalog shelf "product-64b0000000000000000000a1"
  = Some (PartResolver.fromDatabase "product-64b0000000000000000000a1" brakePadsProduct).
Proof.
  destruct (resolve_prefixed_like_bare hex24 catalog shelf "64b0000000000000000000a1"
              ltac:(vm_compute; reflexivity)) as [_ H].
  destruct (H brakePadsProduct ltac:(vm_compute; reflexivity)) as [H1 _].
  exact H1.
Defined.

(** ** Payments: what runs of calls keep *)

(** The sum of the amounts of a payment ledger. *)
Definition ledgerTotal (ledger : list Invoice.Payment) : Z :=
  fold_right (fun p sum => Invoice.amount p + sum) 0 ledger.

Section PaymentRuns.
Import Invoice Payments.
Variable validObjectId : string -> bool.
Variable now : Date.t.
Variable userId : string.

Local Abbreviation setPaymentStatus := (setPaymentStatus validObjectId).
Local Abbreviation recordPayment := (recordPayment validObjectId now userId).
Local Abbreviation call := (call validObjectId now userId).
Local Abbreviation run := (run validObjectId now userId).
Local Abbreviation applyPayment := (applyPayment now userId).

(** What one call may do to the invoice it addresses. *)
Definition callStep (c : Call) (invoice invoice' : Invoice.t) : Prop :=
  invoice' = invoice
  \/ (status invoice = approved
      /\ match c with
         | RecordPayment body =>
             b_amount body <= dueAmount invoice /\ invoice' = applyPayment body invoice
         | SetPaymentStatus body =>
             exists s ps,
               b_paymentStatus body = Some s
               /\ parsePaymentStatus s = Some ps
               /\ invoice' = applyPaymentStatus ps (b_paymentMethod body) invoice
         end).

Lemma call_step (invoices : gmap string Invoice.t) (invoiceId : string)
      (invoice : Invoice.t) (c : Call) :
  invoices !! invoiceId = Some invoice ->
  exists invoice',
    snd (call invoices invoiceId c) !! invoiceId = Some invoice'
    /\ callStep c invoice invoice'.
Proof.
  intros Hget.
  assert (Hsame : exists invoice',
             invoices !! invoiceId = Some invoice' /\ callStep c invoice invoice')
    by (exists invoice; split; [exact Hget | now left]).
  destruct c as [body | body]; simpl.
  - unfold Payments.recordPayment.
    destruct (Db.findById validObjectId invoices invoiceId) as [found| |] eqn:Hfind;
      try exact Hsame.
    apply findById_lookup in Hfind. assert (found = invoice) as -> by congruence.
    destruct (status invoice) eqn:Hst; try exact Hsame.
    destruct (dueAmount invoice <? b_amount body) eqn:Hdue; [exact Hsame |].
    eexists. split; [apply lookup_insert_eq |]. right. split; [exact Hst |].
    split; [lia | reflexivity].
  - unfold Payments.setPaymentStatus.
    destruct (b_paymentStatus body) as [s|] eqn:Hs; [| exact Hsame].
    destruct (parsePaymentStatus s) as [ps|] eqn:Hps; [| exact Hsame].
    destruct (_ && _ && _); [exact Hsame |].
    destruct (Db.findById validObjectId invoices invoiceId) as [found| |] eqn:Hfind;
      try exact Hsame.
    apply findById_lookup in Hfind. assert (found = invoice) as -> by congruence.
    destruct (status invoice) eqn:Hst; try exact Hsame.
    eexists. split; [apply lookup_insert_eq |]. right. split; [exact Hst |].
    exists s, ps. auto.
Qed.

(** A property of the invoice that every call of a kind keeps holds
    after each call of a run of calls of that kind. *)
Lemma run_invariant (Q : Call -> Prop) (P : Invoice.t -> Prop) :
  (forall c invoice invoice', Q c -> P invoice -> callStep c invoice invoice' -> P invoice') ->
  forall (cs : list Call) (invoices : gmap string Invoice.t)
         (invoiceId : string) (invoice : Invoice.t),
    Forall Q cs ->
    invoices !! invoiceId = Some invoice -> P invoice ->
    Forall (fun invoices' => exists invoice', invoices' !! invoiceId = Some invoice' /\ P invoice')
           (run invoices invoiceId cs).
Proof.
  intros Hkeep cs. induction cs as [|c cs IH]; intros invoices invoiceId invoice HQ Hget HP;
    simpl; constructor; inversion HQ as [|? ? Hc Hcs]; subst;
    destruct (call_step invoices invoiceId invoice c Hget) as (invoice' & Hget' & Hstep).
  - exists invoice'. split; [exact Hget' |]. eapply Hkeep; eauto.
  - eapply IH; eauto.
Qed.

(** The same for what holds of amounts that were not rounded. *)
Lemma run_invariant_unrounded (Q : Call -> Prop) (P : Invoice.t -> Prop) :
  (forall c invoice invoice',
      Q c -> P invoice -> callStep c invoice invoice' -> unrounded invoice' = true ->
      P invoice') ->
  forall (cs : list Call) (invoices : gmap string Invoice.t)
         (invoiceId : string) (invoice : Invoice.t),
    Forall Q cs ->
    invoices !! invoiceId = Some invoice -> P invoice ->
    forallb (unroundedAt invoiceId) (run invoices invoiceId cs) = true ->
    Forall (fun invoices' => exists invoice', invoices' !! invoiceId = Some invoice' /\ P invoice')
           (run invoices invoiceId cs).
Proof.
  intros Hkeep cs. induction cs as [|c cs IH]; intros invoices invoiceId invoice HQ Hget HP;
    simpl; [constructor |].
  intros Hin. apply andb_true_iff in Hin as [Hc Hcs].
  inversion HQ as [|? ? Hqc Hqcs]; subst.
  destruct (call_step invoices invoiceId invoice c Hget) as (invoice' & Hget' & Hstep).
  unfold unroundedAt in Hc. rewrite Hget' in Hc.
  assert (HP' : P invoice') by (eapply Hkeep; eauto).
  constructor; [exists invoice'; auto | eapply IH; eauto].
Qed.

(** X3.  The due amount never becomes negative, and without rounding
    an invoice is never overpaid.  From a stored invoice with a
    non-negative total and a non-negative due amount, after every call
    of every run of payment calls, whatever the amounts and however
    the sums round, the due amount is still not negative; and when
    the amounts of the invoice add up and the paid and due amounts the
    run stores stay below 2^53 counts of their unit in magnitude, the
    paid amount never exceeds the total. *)
Theorem payments_never_overpay (cs : list Call) (invoices : gmap string Invoice.t)
        (invoiceId : string) (invoice : Invoice.t) :
  invoices !! invoiceId = Some invoice ->
  0 <= totalAmount invoice ->
  0 <= dueAmount invoice ->
  Forall (fun invoices' =>
            exists invoice', invoices' !! invoiceId = Some invoice' /\ 0 <= dueAmount invoice')
         (run invoices invoiceId cs)
  /\ (paidAmount invoice + dueAmount invoice = totalAmount invoice ->
      forallb (unroundedAt invoiceId) (run invoices invoiceId cs) = true ->
      Forall (fun invoices' =>
                exists invoice',
                  invoices' !! invoiceId = Some invoice'
                  /\ paidAmount invoice' <= totalAmount invoice')
             (run invoices invoiceId cs)).
Proof.
  intros Hget Htotal Hdue.
  assert (Hall : Forall (fun _ : Call => True) cs) by (clear; induction cs; constructor; auto).
  split.
  - pose (P := fun i : Invoice.t => 0 <= totalAmount i /\ 0 <= dueAmount i).
    assert (H : Forall (fun invoices' =>
                          exists invoice', invoices' !! invoiceId = Some invoice' /\ P invoice')
                       (run invoices invoiceId cs)).
    { apply (run_invariant (fun _ => True) P) with (invoice := invoice); auto;
        [| split; auto].
      intros c i i' _ (Ht & Hd) [-> | [_ Hstep]]; [split; auto |].
      destruct c as [body | body].
      - destruct Hstep as [Hle ->]. unfold P.
        cbn [totalAmount dueAmount Payments.applyPayment setPayment].
        split; [exact Ht |]. apply NumberFacts.round53_nonneg. lia.
      - destruct Hstep as (s & ps & _ & _ & ->). unfold P. destruct ps; simpl; lia. }
    eapply Forall_impl; [exact H |].
    intros st (invoice' & Hst & _ & Hd). exists invoice'. auto.
  - intros Hbal Hin.
    pose (P := fun i : Invoice.t =>
                 0 <= totalAmount i /\ 0 <= dueAmount i
                 /\ paidAmount i + dueAmount i = totalAmount i).
    assert (H : Forall (fun invoices' =>
                          exists invoice', invoices' !! invoiceId = Some invoice' /\ P invoice')
                       (run invoices invoiceId cs)).
    { apply (run_invariant_unrounded (fun _ => True) P) with (invoice := invoice); auto;
        [| repeat split; auto].
      intros c i i' _ (Ht & Hd & Hb) [-> | [_ Hstep]] Hun; [repeat split; auto |].
      destruct c as [body | body].
      - destruct Hstep as [Hle ->]. unfold P, unrounded in *.
        cbn [totalAmount paidAmount dueAmount Payments.applyPayment setPayment] in *.
        apply andb_true_iff in Hun as [Hp Hq]. apply Z.ltb_lt in Hp, Hq.
        unfold Js.num_add, Js.num_sub in *.
        rewrite (NumberFacts.round53_in_range _ Hp), (NumberFacts.round53_in_range _ Hq).
        lia.
      - destruct Hstep as (s & ps & _ & _ & ->). unfold P. destruct ps; simpl; lia. }
    eapply Forall_impl; [exact H |].
    intros st (invoice' & Hst & Ht & Hd & Hb). exists invoice'. split; [exact Hst | lia].
Qed.

(** X4.  Payments recorded one by one and the ledger agree.  Over a
    run of [recordPayment] calls the ledger only grows at its end; and
    when the paid and due amounts the run stores stay below 2^53 counts
    of their unit in magnitude, so that no sum was rounded, the paid
    amount has grown and the due amount has shrunk by exactly the sum
    of the entries added. *)
Theorem recorded_payments_match_ledger (bodies : list PaymentBody)
        (invoices : gmap string Invoice.t) (invoiceId : string) (invoice : Invoice.t) :
  invoices !! invoiceId = Some invoice ->
  Forall (fun invoices' =>
            exists invoice' added,
              invoices' !! invoiceId = Some invoice'
              /\ payments invoice' = (payments invoice ++ added)%list)
         (run invoices invoiceId (map RecordPayment bodies))
  /\ (forallb (unroundedAt invoiceId) (run invoices invoiceId (map RecordPayment bodies)) = true ->
      Forall (fun invoices' =>
                exists invoice' added,
                  invoices' !! invoiceId = Some invoice'
                  /\ payments invoice' = (payments invoice ++ added)%list
                  /\ paidAmount invoice' = paidAmount invoice + ledgerTotal added
                  /\ dueAmount invoice' = dueAmount invoice - ledgerTotal added)
             (run invoices invoiceId (map RecordPayment bodies))).
Proof.
  intros Hget.
  assert (Hsum : forall l x, ledgerTotal (l ++ [x]) = ledgerTotal l + amount x).
  { intros l x. induction l as [|y l IH]; simpl; lia. }
  assert (Hrecords : Forall (fun c => exists body, c = RecordPayment body)
                            (map RecordPayment bodies))
    by (clear; induction bodies; simpl; constructor; eauto).
  split.
  - pose (P := fun i : Invoice.t => exists added, payments i = (payments invoice ++ added)%list).
    assert (H : Forall (fun invoices' =>
                          exists invoice', invoices' !! invoiceId = Some invoice' /\ P invoice')
                       (run invoices invoiceId (map RecordPayment bodies))).
    { apply (run_invariant (fun c => exists body, c = RecordPayment body) P)
        with (invoice := invoice); auto.
      - intros c i i' [body ->] (added & Hl) [-> | [_ [_ ->]]]; [exists added; auto |].
        eexists (added ++ [_])%list. simpl. rewrite Hl, <- app_assoc. reflexivity.
      - exists []. now rewrite app_nil_r. }
    eapply Forall_impl; [exact H |].
    intros st (invoice' & Hst & added & Hl). exists invoice', added. auto.
  - intros Hin.
    pose (P := fun i : Invoice.t =>
                 exists added,
                   payments i = (payments invoice ++ added)%list
                   /\ paidAmount i = paidAmount invoice + ledgerTotal added
                   /\ dueAmount i = dueAmount invoice - ledgerTotal added).
    assert (H : Forall (fun invoices' =>
                          exists invoice', invoices' !! invoiceId = Some invoice' /\ P invoice')
                       (run invoices invoiceId (map RecordPayment bodies))).
    { apply (run_invariant_unrounded (fun c => exists body, c = RecordPayment body) P)
        with (invoice := invoice); auto.
      - intros c i i' [body ->] (added & Hl & Hp & Hd) [-> | [_ [_ ->]]] Hun;
          [exists added; auto |].
        unfold unrounded in Hun.
        cbn [paidAmount dueAmount Payments.applyPayment setPayment] in Hun.
        apply andb_true_iff in Hun as [Hun1 Hun2]. apply Z.ltb_lt in Hun1, Hun2.
        unfold Js.num_add, Js.num_sub in *.
        eexists (added ++ [_])%list.
        cbn [payments paidAmount dueAmount Payments.applyPayment setPayment].
        unfold Js.num_add, Js.num_sub.
        rewrite (NumberFacts.round53_in_range _ Hun1), (NumberFacts.round53_in_range _ Hun2).
        rewrite Hl, Hsum, <- app_assoc. clear Hun1 Hun2.
        split; [reflexivity | simpl; lia].
      - exists []. rewrite app_nil_r. simpl. split; [reflexivity | lia]. }
    eapply Forall_impl; [exact H |].
    intros st (invoice' & Hst & added & Hl & Hp & Hd). exists invoice', added. auto.
Qed.

(** X5.  Nothing is paid before approval: on an invoice that is not
    [approved], every call of every run of payment calls is refused
    and the store stays as it was. *)
Theorem payments_wait_for_approval (cs : list Call) (invoices : gmap string Invoice.t)
        (invoiceId : string) (invoice : Invoice.t) :
  invoices !! invoiceId = Some invoice ->
  status invoice <> approved ->
  Forall (fun invoices' => invoices' = invoices) (run invoices invoiceId cs)
  /\ forall c, exists code body, fst (call invoices invoiceId c) = Error code body.
Proof.
  intros Hget Hst.
  assert (Hcall : forall c, snd (call invoices invoiceId c) = invoices
                            /\ exists code body, fst (call invoices invoiceId c) = Error code body).
  { intros [body | body]; simpl.
    - unfold Payments.recordPayment.
      destruct (Db.findById validObjectId invoices invoiceId) as [found| |] eqn:Hfind;
        [| simpl; eauto | simpl; eauto].
      apply findById_lookup in Hfind. assert (found = invoice) as -> by congruence.
      destruct (status invoice); simpl; eauto. contradiction.
    - unfold Payments.setPaymentStatus.
      destruct (b_paymentStatus body) as [s|]; [| simpl; eauto].
      destruct (parsePaymentStatus s) as [ps|]; [| simpl; eauto].
      destruct (_ && _ && _); [simpl; eauto |].
      destruct (Db.findById validObjectId invoices invoiceId) as [found| |] eqn:Hfind;
        [| simpl; eauto | simpl; eauto].
      apply findById_lookup in Hfind. assert (found = invoice) as -> by congruence.
      destruct (status invoice); simpl; eauto. contradiction. }
  split; [| intros c; apply Hcall].
  induction cs as [|c cs IH]; simpl; constructor.
  - apply Hcall.
  - destruct (Hcall c) as [-> _]. exact IH.
Qed.

End PaymentRuns.

Lemma payments_never_overpay_witness :
  Forall (fun invoices' =>
            exists invoice',
              invoices' !! "i1" = Some invoice' /\ 0 <= Invoice.dueAmount invoice')
         (Payments.run anyObjectId jan15 "u1" approvedInvoices "i1"
            [pay 300; pay 300; Payments.SetPaymentStatus (toggle "paid"); pay 1; pay (-40)])
  /\ Forall (fun invoices' =>
               exists invoice',
                 invoices' !! "i1" = Some invoice'
                 /\ Invoice.paidAmount invoice' <= Invoice.totalAmount invoice')
            (Payments.run anyObjectId jan15 "u1" approvedInvoices "i1"
               [pay 300; pay 300; Payments.SetPaymentStatus (toggle "paid"); pay 1; pay (-40)]).
Proof.
  destruct (payments_never_overpay anyObjectId jan15 "u1"
              [pay 300; pay 300; Payments.SetPaymentStatus (toggle "paid"); pay 1; pay (-40)]
              approvedInvoices "i1" approvedInvoice
              ltac:(vm_compute; reflexivity) ltac:(vm_compute; discriminate)
              ltac:(vm_compute; discriminate)) as [Hdue Hpaid].
  split; [exact Hdue |].
  apply Hpaid; vm_compute; reflexivity.
Defined.

Definition cash (amount : Z) : Payments.PaymentBody :=
  {| Payments.b_amount := amount; Payments.b_paymentMode := "Cash";
     Payments.b_transactionId := None; Payments.b_notes := None |}.

Lemma recorded_payments_match_ledger_witness :
  Forall (fun invoices' =>
            exists invoice' added,
              invoices' !! "i1" = Some invoice'
              /\ Invoice.payments invoice' = (Invoice.payments approvedInvoice ++ added)%list
              /\ Invoice.paidAmount invoice'
                 = Invoice.paidAmount approvedInvoice + ledgerTotal added
              /\ Invoice.dueAmount invoice'
                 = Invoice.dueAmount approvedInvoice - ledgerTotal added)
         (Payments.run anyObjectId jan15 "u1" approvedInvoices "i1"
            (map Payments.RecordPayment [cash 300; cash 900; cash 200])).
Proof.
  apply (proj2 (recorded_payments_match_ledger anyObjectId jan15 "u1"
                  [cash 300; cash 900; cash 200] approvedInvoices "i1" approvedInvoice
                  ltac:(vm_compute; reflexivity))).
  vm_compute. reflexivity.
Defined.

Lemma payments_wait_for_approval_witness :
  Forall (fun invoices' => invoices' = pendingInvoices)
         (Payments.run anyObjectId jan15 "u1" pendingInvoices "i1"
            [pay 100; Payments.SetPaymentStatus (toggle "paid")]).
Proof.
  apply (payments_wait_for_approval anyObjectId jan15 "u1"
           [pay 100; Payments.SetPaymentStatus (toggle "paid")]
           pendingInvoices "i1" pendingInvoice).
  - vm_compute. reflexivity.
  - vm_compute. discriminate.
Defined.

Section PaymentSettlement.
Import Invoice Payments.
Variable validObjectId : string -> bool.
Variable now : Date.t.
Variable userId : string.

Local Abbreviation setPaymentStatus := (setPaymentStatus validObjectId).
Local Abbreviation recordPayment := (recordPayment validObjectId now userId).

Lemma findById_insert (invoices : gmap string Invoice.t) (invoiceId : string)
      (found invoice' : Invoice.t) :
  Db.findById validObjectId invoices invoiceId = Db.Found found ->
  Db.findById validObjectId (<[invoiceId := invoice']> invoices) invoiceId = Db.Found invoice'.
Proof.
  unfold Db.findById. destruct (validObjectId invoiceId); [| discriminate].
  intros _. now rewrite lookup_insert_eq.
Qed.

(** X6.  Paying the amount that is due settles an approved invoice:
    it is stored as [paid] with nothing due, and from then on every
    payment of a positive amount is refused with "Payment amount
    exceeds due amount" and changes nothing. *)
Theorem full_payment_settles (invoices : gmap string Invoice.t) (invoiceId : string)
        (invoice : Invoice.t) (body next : PaymentBody) :
  Db.findById validObjectId invoices invoiceId = Db.Found invoice ->
  status invoice = approved ->
  b_amount body = dueAmount invoice ->
  0 < b_amount next ->
  exists invoice',
    recordPayment invoices invoiceId body = (Json invoice', <[invoiceId := invoice']> invoices)
    /\ paymentStatus invoice' = paid
    /\ dueAmount invoice' = 0
    /\ paidAmount invoice' = Js.num_add (paidAmount invoice) (dueAmount invoice)
    /\ recordPayment (<[invoiceId := invoice']> invoices) invoiceId next
       = (Error 400 (errorOnly "Payment amount exceeds due amount"),
          <[invoiceId := invoice']> invoices).
Proof.
  intros Hfind Hst Hamount Hnext.
  exists (applyPayment now userId body invoice).
  assert (Hdue : dueAmount (applyPayment now userId body invoice) = 0).
  { cbn [dueAmount Payments.applyPayment setPayment].
    rewrite Hamount. apply NumberFacts.num_sub_diag. }
  split; [| split; [| split; [exact Hdue | split]]].
  - unfold Payments.recordPayment. rewrite Hfind, Hst.
    destruct (dueAmount invoice <? b_amount body) eqn:E; [lia | reflexivity].
  - cbn [paymentStatus Payments.applyPayment setPayment].
    rewrite Hamount, NumberFacts.num_sub_diag. reflexivity.
  - cbn [paidAmount Payments.applyPayment setPayment]. now rewrite Hamount.
  - unfold Payments.recordPayment. rewrite (findById_insert _ _ _ _ Hfind).
    change (status (applyPayment now userId body invoice)) with (status invoice).
    rewrite Hst, Hdue.
    destruct (0 <? b_amount next) eqn:E; [reflexivity | lia].
Qed.

(** X7.  The payment-status toggle is idempotent: sending the same
    request a second time leaves the store as the first left it. *)
Theorem set_payment_status_idempotent (invoices : gmap string Invoice.t)
        (invoiceId : string) (body : StatusBody) :
  snd (setPaymentStatus (snd (setPaymentStatus invoices invoiceId body)) invoiceId body)
  = snd (setPaymentStatus invoices invoiceId body).
Proof.
  unfold Payments.setPaymentStatus.
  destruct (b_paymentStatus body) as [s|]; [| reflexivity].
  destruct (parsePaymentStatus s) as [ps|]; [| reflexivity].
  destruct (_ && _ && _); [reflexivity |].
  destruct (Db.findById validObjectId invoices invoiceId) as [invoice| |] eqn:Hfind;
    cbn [snd]; rewrite ?Hfind; try reflexivity.
  destruct (status invoice) eqn:Hst; cbn [snd]; rewrite ?Hfind, ?Hst; try reflexivity.
  rewrite (findById_insert _ _ _ _ Hfind).
  replace (status (applyPaymentStatus ps (b_paymentMethod body) invoice))
    with approved by (destruct ps; auto).
  cbn [snd]. rewrite insert_insert_eq. f_equal.
  destruct ps; simpl; try reflexivity.
  destruct (truthy (b_paymentMethod body)) eqn:E; rewrite ?E; reflexivity.
Qed.

End PaymentSettlement.

Lemma full_payment_settles_witness :
  exists invoice',
    Payments.recordPayment anyObjectId jan15 "u1" approvedInvoices "i1" (cash 500)
    = (Payments.Json invoice', <[ "i1" := invoice' ]> approvedInvoices)
    /\ Invoice.paymentStatus invoice' = Invoice.paid.
Proof.
  destruct (full_payment_settles anyObjectId jan15 "u1" approvedInvoices "i1"
              approvedInvoice (cash 500) (cash 1)
              ltac:(vm_compute; reflexivity) ltac:(vm_compute; reflexivity)
              ltac:(vm_compute; reflexivity) ltac:(vm_compute; reflexivity))
    as (invoice' & H1 & H2 & _).
  exists invoice'. split; [exact H1 | exact H2].
Defined.

(** ** Invoice rejection: POST /api/invoices/:id/reject *)

Module Reject.
Import Invoice.

Inductive Response :=
| Json (invoice : Invoice.t)
| Error (code : Z) (body : ErrorBody).

Section Handler.
Variable validObjectId : string -> bool.
Variable now : Date.t.
Variable userId : string.

Definition reject (invoices : gmap string Invoice.t) (invoiceId : string)
           (reason : option string) : Response * gmap string Invoice.t :=
  match Db.findById validObjectId invoices invoiceId with
  | Db.CastError => (Error 500 (errorOnly "Failed to reject invoice"), invoices)
  | Db.Missing => (Error 404 (errorOnly "Invoice not found"), invoices)
  | Db.Found invoice =>
      match status invoice with
      | pending_approval =>
          let invoice' :=
            setApproval rejected
              {| approvedBy := None; approvedAt := None;
                 rejectedBy := Some userId; rejectedAt := Some now;
                 rejectionReason := reason |}
              invoice in
          (Json invoice', <[invoiceId := invoice']> invoices)
      | _ => (Error 400 (errorOnly "Invoice is not pending approval"), invoices)
      end
  end.
End Handler.

End Reject.

(** ** Authenticated PDF: GET /api/invoices/:id/pdf *)

Module AuthPdf.
Import Invoice.

Section Handler.
Variable validObjectId : string -> bool.
(** [fs.existsSync] *)
Variable existsSync : string -> bool.
(** [generateInvoicePDF]: the path, or [None] when it throws. *)
Variable pdf : option string.

(** [!pdfPath || !fs.existsSync(pdfPath)] *)
Definition missingPdf (pdfPath : option string) : bool :=
  match pdfPath with
  | Some path => negb (truthy (Some path)) || negb (existsSync path)
  | None => true
  end.

Definition download (invoices : gmap string Invoice.t) (invoiceId : string)
  : PublicPdf.Response * gmap string Invoice.t :=
  match Db.findById validObjectId invoices invoiceId with
  | Db.CastError => (PublicPdf.Error 500 (errorOnly "Failed to download PDF"), invoices)
  | Db.Missing => (PublicPdf.Error 404 (errorOnly "Invoice not found"), invoices)
  | Db.Found invoice =>
      if missingPdf (pdfPath invoice) then
        match pdf with
        | Some path' =>
            (PublicPdf.Stream path', <[invoiceId := setPdfPath path' invoice]> invoices)
        | None => (PublicPdf.Error 500 (errorOnly "Failed to download PDF"), invoices)
        end
      else
        match pdfPath invoice with
        | Some path => (PublicPdf.Stream path, invoices)
        | None => (PublicPdf.Error 500 (errorOnly "Failed to download PDF"), invoices)
        end
  end.
End Handler.

End AuthPdf.

(** ** The operations on stored invoices, as one transition system *)

Module Lifecycle.
Import Invoice.

Record State := mkState {
  invoices : gmap string Invoice.t;
  warranties : list Warranty;
  vehicles : list Vehicle
}.

(** A request to one of the invoice endpoints, with what its
    collaborators do while it is served. *)
Inductive Op :=
| Approve (userId : string) (env : Approve.Env)
| RejectIt (userId : string) (now : Date.t) (reason : option string)
| Pay (userId : string) (now : Date.t) (c : Payments.Call)
| PublicDownload (now : Date.t) (pdf : option string) (token : option string)
| AuthDownload (pdf : option string)
| UploadCard (now : Date.t) (body : WarrantyCards.Body).

Section Step.
Variable validObjectId : string -> bool.
Variable existsSync : string -> bool.
Variable products : gmap string Product.

(** The state after the request [op] on the invoice [invoiceId]. *)
Definition step (st : State) (invoiceId : string) (op : Op) : State :=
  match op with
  | Approve userId env =>
      let '(_, invoices', warranties') :=
        Approve.approve validObjectId userId env products (invoices st) (warranties st)
                        invoiceId in
      {| invoices := invoices'; warranties := warranties'; vehicles := vehicles st |}
  | RejectIt userId now reason =>
      {| invoices := snd (Reject.reject validObjectId now userId (invoices st) invoiceId reason);
         warranties := warranties st; vehicles := vehicles st |}
  | Pay userId now c =>
      {| invoices := snd (Payments.call validObjectId now userId (invoices st) invoiceId c);
         warranties := warranties st; vehicles := vehicles st |}
  | PublicDownload now pdf token =>
      {| invoices := snd (PublicPdf.download validObjectId now existsSync pdf
                            (invoices st) invoiceId token);
         warranties := warranties st; vehicles := vehicles st |}
  | AuthDownload pdf =>
      {| invoices := snd (AuthPdf.download validObjectId existsSync pdf (invoices st) invoiceId);
         warranties := warranties st; vehicles := vehicles st |}
  | UploadCard now body =>
      let '(_, invoices', vehicles') :=
        WarrantyCards.upload validObjectId now (invoices st) (vehicles st) invoiceId body in
      {| invoices := invoices'; warranties := warranties st; vehicles := vehicles' |}
  end.

(** A sequence of requests, each on an invoice of its own. *)
Fixpoint steps (st : State) (ops : list (string * Op)) : State :=
  match ops with
  | [] => st
  | (invoiceId, op) :: rest => steps (step st invoiceId op) rest
  end.
End Step.

(** How a stored invoice may differ from an earlier version of
    itself. *)
Record Evolves (old new : Invoice.t) : Prop := mkEvolves {
  ev_status :
    status new = status old
    \/ (status old = pending_approval /\ (status new = approved \/ status new = rejected));
  ev_subtotal : subtotal new = subtotal old;
  ev_discount : discountAmount new = discountAmount old;
  ev_total : totalAmount new = totalAmount old;
  ev_coupon : couponCode new = couponCode old /\ couponId new = couponId old;
  ev_customer : customerId new = customerId old /\ customerDetails new = customerDetails old;
  ev_vehicles : vehicleDetails new = vehicleDetails old;
  ev_token :
    status old = approved ->
    pdfAccessToken new = pdfAccessToken old /\ pdfTokenExpiry new = pdfTokenExpiry old;
  ev_ledger : exists added, payments new = (payments old ++ added)%list;
  ev_items : length (items new) = length (items old)
}.

End Lifecycle.

Section LifecycleFacts.
Import Invoice Lifecycle.
Variable validObjectId : string -> bool.
Variable existsSync : string -> bool.
Variable products : gmap string Product.

Local Abbreviation step := (step validObjectId existsSync products).
Local Abbreviation steps := (steps validObjectId existsSync products).

Ltac evolves :=
  constructor; simpl; auto;
  try (intros; congruence);
  try (intros; contradiction);
  try (exists []; now rewrite app_nil_r).

Lemma Evolves_refl (invoice : Invoice.t) : Evolves invoice invoice.
Proof. evolves. Qed.

Lemma Evolves_trans (a b c : Invoice.t) : Evolves a b -> Evolves b c -> Evolves a c.
Proof.
  intros [s1 u1 d1 t1 [k1 k1'] [c1 c1'] v1 p1 [l1 Hl1] i1]
         [s2 u2 d2 t2 [k2 k2'] [c2 c2'] v2 p2 [l2 Hl2] i2].
  constructor; try congruence; try (split; congruence).
  - destruct s1 as [s1 | [s1 s1']], s2 as [s2 | [s2 s2']].
    + left. congruence.
    + right. split; [congruence | exact s2'].
    + right. split; [exact s1 |]. destruct s1' as [s1' | s1']; [left | right]; congruence.
    + destruct s1' as [s1' | s1']; congruence.
  - intros Ha.
    assert (Hb : status b = approved).
    { destruct s1 as [s1 | [s1 _]]; congruence. }
    destruct (p1 Ha), (p2 Hb). split; congruence.
  - exists (l1 ++ l2)%list. rewrite Hl2, Hl1. now rewrite app_assoc.
Qed.

(** The two shapes of a handler's write. *)
Definition writes (invoices invoices' : gmap string Invoice.t) (invoiceId : string) : Prop :=
  invoices' = invoices
  \/ exists found new,
      invoices !! invoiceId = Some found
      /\ invoices' = <[invoiceId := new]> invoices
      /\ Evolves found new.

Lemma writes_evolve (invoices invoices' : gmap string Invoice.t) (target : string) :
  writes invoices invoices' target ->
  forall invoiceId invoice,
    invoices !! invoiceId = Some invoice ->
    exists invoice', invoices' !! invoiceId = Some invoice' /\ Evolves invoice invoice'.
Proof.
  intros [-> | (found & new & Hfound & -> & Hev)] invoiceId invoice Hget.
  - exists invoice. split; [exact Hget | apply Evolves_refl].
  - destruct (decide (target = invoiceId)) as [-> | Hne].
    + exists new. rewrite lookup_insert_eq. split; [reflexivity |]. congruence.
    + exists invoice. rewrite lookup_insert_ne by exact Hne.
      split; [exact Hget | apply Evolves_refl].
Qed.

Lemma setApproval_evolves (s : Status) (a : ApprovalStatus) (invoice : Invoice.t) :
  status invoice = pending_approval -> s = approved \/ s = rejected ->
  Evolves invoice (setApproval s a invoice).
Proof.
  intros Hp Hs. evolves.
Qed.

Lemma setToken_evolves (token : string) (expiry : Date.t) (invoice : Invoice.t) :
  status invoice <> approved -> Evolves invoice (setToken token expiry invoice).
Proof.
  intros Hp. evolves.
Qed.

Lemma setPdfPath_evolves (path : string) (invoice : Invoice.t) :
  Evolves invoice (setPdfPath path invoice).
Proof. evolves. Qed.

Lemma setPayment_evolves (ps : PaymentStatus) (method : option string) (paid due : Z)
      (added : list Payment) (invoice : Invoice.t) :
  Evolves invoice (setPayment ps method paid due (payments invoice ++ added)%list invoice).
Proof. evolves. exists added. reflexivity. Qed.

Lemma setItems_evolves (its : list Item) (invoice : Invoice.t) :
  length its = length (items invoice) -> Evolves invoice (setItems its invoice).
Proof. intros H. evolves. Qed.

Lemma approve_writes (userId : string) (env : Approve.Env)
      (invoices : gmap string Invoice.t) (warranties : list Warranty) (invoiceId : string) :
  writes invoices
         (snd (fst (Approve.approve validObjectId userId env products invoices warranties
                      invoiceId)))
         invoiceId.
Proof.
  unfold Approve.approve.
  destruct (Db.findById validObjectId invoices invoiceId) as [invoice| |] eqn:Hfind;
    try (left; reflexivity).
  apply findById_lookup in Hfind.
  destruct (status invoice) eqn:Hst; try (left; reflexivity).
  right. exists invoice.
  assert (Hev1 : Evolves invoice
                   (setToken (Approve.token env) (Approve.tokenExpiry env)
                      (setApproval approved
                         {| approvedBy := Some userId; approvedAt := Some (Approve.now env);
                            rejectedBy := None; rejectedAt := None;
                            rejectionReason := None |} invoice))).
  { evolves. }
  destruct (Approve.pdf env) as [path|]; cbn [fst snd].
  - eexists. split; [exact Hfind |]. split; [apply insert_insert_eq |].
    eapply Evolves_trans; [exact Hev1 | apply setPdfPath_evolves].
  - eexists. split; [exact Hfind |]. split; [reflexivity | exact Hev1].
Qed.

Lemma reject_writes (userId : string) (now : Date.t) (reason : option string)
      (invoices : gmap string Invoice.t) (invoiceId : string) :
  writes invoices (snd (Reject.reject validObjectId now userId invoices invoiceId reason))
         invoiceId.
Proof.
  unfold Reject.reject.
  destruct (Db.findById validObjectId invoices invoiceId) as [invoice| |] eqn:Hfind;
    try (left; reflexivity).
  apply findById_lookup in Hfind.
  destruct (status invoice) eqn:Hst; try (left; reflexivity).
  right. exists invoice. eexists. split; [exact Hfind |]. split; [reflexivity |].
  apply setApproval_evolves; auto.
Qed.

Lemma call_writes (userId : string) (now : Date.t) (c : Payments.Call)
      (invoices : gmap string Invoice.t) (invoiceId : string) :
  writes invoices (snd (Payments.call validObjectId now userId invoices invoiceId c)) invoiceId.
Proof.
  destruct c as [body | body]; simpl.
  - unfold Payments.recordPayment.
    destruct (Db.findById validObjectId invoices invoiceId) as [invoice| |] eqn:Hfind;
      try (left; reflexivity).
    apply findById_lookup in Hfind.
    destruct (status invoice); try (left; reflexivity).
    destruct (dueAmount invoice <? Payments.b_amount body); [left; reflexivity |].
    right. exists invoice. eexists. split; [exact Hfind |]. split; [reflexivity |].
    apply setPayment_evolves.
  - unfold Payments.setPaymentStatus.
    destruct (Payments.b_paymentStatus body) as [s|]; [| left; reflexivity].
    destruct (Payments.parsePaymentStatus s) as [ps|]; [| left; reflexivity].
    destruct (_ && _ && _); [left; reflexivity |].
    destruct (Db.findById validObjectId invoices invoiceId) as [invoice| |] eqn:Hfind;
      try (left; reflexivity).
    apply findById_lookup in Hfind.
    destruct (status invoice); try (left; reflexivity).
    right. exists invoice. eexists. split; [exact Hfind |]. split; [reflexivity |].
    destruct ps; simpl;
      match goal with
      | |- Evolves ?i (setPayment ?p ?m ?a ?b (payments ?i) ?i) =>
          rewrite <- (app_nil_r (payments i)) at 1; apply setPayment_evolves
      end.
Qed.

Lemma public_download_writes (now : Date.t) (pdf token : option string)
      (invoices : gmap string Invoice.t) (invoiceId : string) :
  writes invoices
         (snd (PublicPdf.download validObjectId now existsSync pdf invoices invoiceId token))
         invoiceId.
Proof.
  unfold PublicPdf.download.
  destruct (Db.findById validObjectId invoices invoiceId) as [invoice| |] eqn:Hfind;
    try (left; reflexivity).
  apply findById_lookup in Hfind.
  destruct (status invoice); try (left; reflexivity).
  destruct (PublicPdf.tokenMismatch _ _); [left; reflexivity |].
  destruct (PublicPdf.expired _ _); [left; reflexivity |].
  destruct (pdfPath invoice) as [path|]; [destruct (existsSync path); [left; reflexivity |] |];
    (destruct pdf as [path'|]; [| left; reflexivity]);
    right; exists invoice; eexists; (split; [exact Hfind |]);
    (split; [reflexivity | apply setPdfPath_evolves]).
Qed.

Lemma auth_download_writes (pdf : option string)
      (invoices : gmap string Invoice.t) (invoiceId : string) :
  writes invoices (snd (AuthPdf.download validObjectId existsSync pdf invoices invoiceId))
         invoiceId.
Proof.
  unfold AuthPdf.download.
  destruct (Db.findById validObjectId invoices invoiceId) as [invoice| |] eqn:Hfind;
    try (left; reflexivity).
  apply findById_lookup in Hfind.
  destruct (AuthPdf.missingPdf existsSync (pdfPath invoice)).
  - destruct pdf as [path'|]; [| left; reflexivity].
    right. exists invoice. eexists. split; [exact Hfind |].
    split; [reflexivity | apply setPdfPath_evolves].
  - destruct (pdfPath invoice); left; reflexivity.
Qed.

Lemma upload_writes (now : Date.t) (body : WarrantyCards.Body)
      (invoices : gmap string Invoice.t) (vehicles : list Vehicle) (invoiceId : string) :
  writes invoices
         (snd (fst (WarrantyCards.upload validObjectId now invoices vehicles invoiceId body)))
         invoiceId.
Proof.
  unfold WarrantyCards.upload.
  destruct (WarrantyCards.b_itemIndex body) as [itemIndex|]; [| left; reflexivity].
  destruct (WarrantyCards.b_warrantyCardData body) as [data|]; [| left; reflexivity].
  destruct (WarrantyCards.b_filename body) as [filename|]; [| left; reflexivity].
  destruct (_ || _); [left; reflexivity |].
  destruct (negb _); [left; reflexivity |].
  destruct (WarrantyCards.dataUrlMatch data) as [[mimeType base64Data]|]; [| left; reflexivity].
  destruct (negb _); [left; reflexivity |].
  destruct (WarrantyCards.tooLarge base64Data); [left; reflexivity |].
  destruct (Db.findById validObjectId invoices invoiceId) as [invoice| |] eqn:Hfind;
    try (left; reflexivity).
  apply findById_lookup in Hfind.
  destruct (_ || _); [left; reflexivity |].
  destruct (items invoice !! Z.to_nat itemIndex) as [item|]; [| left; reflexivity].
  right. exists invoice. eexists. split; [exact Hfind |]. split; [reflexivity |].
  apply setItems_evolves. apply length_insert.
Qed.

Lemma step_writes (st : State) (invoiceId : string) (op : Op) :
  writes (invoices st) (invoices (step st invoiceId op)) invoiceId.
Proof.
  destruct op as [userId env | userId now reason | userId now c | now pdf token | pdf | now body];
    simpl.
  - pose proof (approve_writes userId env (invoices st) (warranties st) invoiceId) as H.
    destruct (Approve.approve _ _ _ _ _ _ _) as [[r i] w]. exact H.
  - apply reject_writes.
  - apply call_writes.
  - apply public_download_writes.
  - apply auth_download_writes.
  - pose proof (upload_writes now body (invoices st) (vehicles st) invoiceId) as H.
    destruct (WarrantyCards.upload _ _ _ _ _ _) as [[r i] v]. exact H.
Qed.

(** Whatever requests are served, a stored invoice stays stored and
    [Evolves]. *)
Lemma steps_evolve (ops : list (string * Op)) :
  forall (st : State) (invoiceId : string) (invoice : Invoice.t),
    invoices st !! invoiceId = Some invoice ->
    exists invoice',
      invoices (steps st ops) !! invoiceId = Some invoice' /\ Evolves invoice invoice'.
Proof.
  induction ops as [|[target op] ops IH]; intros st invoiceId invoice Hget; simpl.
  - exists invoice. split; [exact Hget | apply Evolves_refl].
  - destruct (writes_evolve _ _ _ (step_writes st target op) invoiceId invoice Hget)
      as (mid & Hmid & Hev1).
    destruct (IH _ _ _ Hmid) as (invoice' & Hget' & Hev2).
    exists invoice'. split; [exact Hget' | eapply Evolves_trans; eauto].
Qed.

(** X8.  The status of an invoice moves one way.  Whatever sequence
    of approve, reject, payment, download and warranty-card requests
    is served, on whatever invoices, an invoice that is [approved]
    stays [approved] and keeps its access token and expiry, an invoice
    that is [rejected] stays [rejected], and an invoice that is still
    [pending_approval] is afterwards pending, approved or rejected. *)
Theorem invoice_status_is_one_way (ops : list (string * Op)) (st : State)
        (invoiceId : string) (invoice : Invoice.t) :
  invoices st !! invoiceId = Some invoice ->
  exists invoice',
    invoices (steps st ops) !! invoiceId = Some invoice'
    /\ (status invoice = approved ->
        status invoice' = approved
        /\ pdfAccessToken invoice' = pdfAccessToken invoice
        /\ pdfTokenExpiry invoice' = pdfTokenExpiry invoice)
    /\ (status invoice = rejected -> status invoice' = rejected)
    /\ (status invoice = pending_approval ->
        status invoice' = pending_approval \/ status invoice' = approved
        \/ status invoice' = rejected)
    /\ (status invoice' = pending_approval -> status invoice = pending_approval).
Proof.
  intros Hget. destruct (steps_evolve ops st invoiceId invoice Hget) as (invoice' & Hget' & Hev).
  exists invoice'. split; [exact Hget' |].
  destruct Hev as [Hs _ _ _ _ _ _ Htok _ _].
  repeat split.
  - destruct Hs as [Hs | [Hs _]]; congruence.
  - now apply Htok.
  - now apply Htok.
  - intros H. destruct Hs as [Hs | [Hs _]]; congruence.
  - intros H. destruct Hs as [Hs | [_ [Hs | Hs]]]; auto. left. congruence.
  - intros H. destruct Hs as [Hs | [Hs _]]; congruence.
Qed.

(** X9.  What an invoice records at creation is never rewritten.
    Whatever sequence of approve, reject, payment, download and
    warranty-card requests is served, the stored invoice keeps its
    subtotal, discount, total, coupon fields, customer and vehicle
    snapshots and its number of line items, and its payment ledger
    only grows at the end. *)
Theorem invoice_snapshot_is_kept (ops : list (string * Op)) (st : State)
        (invoiceId : string) (invoice : Invoice.t) :
  invoices st !! invoiceId = Some invoice ->
  exists invoice',
    invoices (steps st ops) !! invoiceId = Some invoice'
    /\ subtotal invoice' = subtotal invoice
    /\ discountAmount invoice' = discountAmount invoice
    /\ totalAmount invoice' = totalAmount invoice
    /\ couponCode invoice' = couponCode invoice
    /\ customerDetails invoice' = customerDetails invoice
    /\ vehicleDetails invoice' = vehicleDetails invoice
    /\ length (items invoice') = length (items invoice)
    /\ (exists added, payments invoice' = (payments invoice ++ added)%list)
    /\ couponId invoice' = couponId invoice
    /\ customerId invoice' = customerId invoice.
Proof.
  intros Hget. destruct (steps_evolve ops st invoiceId invoice Hget) as (invoice' & Hget' & Hev).
  exists invoice'. split; [exact Hget' |].
  destruct Hev as [_ Hu Hd Ht [Hk Hk'] [Hc' Hc] Hv _ Hl Hi].
  repeat split; auto.
Qed.

End LifecycleFacts.

Definition approvedShop : Lifecycle.State :=
  {| Lifecycle.invoices := approvedInvoices;
     Lifecycle.warranties := [];
     Lifecycle.vehicles := [hatchback None] |}.

(** A day of requests on invoice [i1]. *)
Definition busyDay : list (string * Lifecycle.Op) :=
  [ ("i1", Lifecycle.RejectIt "u2" jan15 (Some "wrong customer"));
    ("i1", Lifecycle.Approve "u2" roughDay);
    ("i1", Lifecycle.Pay "u1" jan15 (pay 200));
    ("i1", Lifecycle.UploadCard jan15 (cardUpload "data:application/pdf;base64,AAAA"));
    ("i1", Lifecycle.AuthDownload (Some "invoices/INV_0001.pdf"));
    ("i1", Lifecycle.Pay "u1" jan15 (Payments.SetPaymentStatus (toggle "unpaid"))) ].

Lemma invoice_status_is_one_way_witness :
  exists invoice',
    Lifecycle.invoices (Lifecycle.steps anyObjectId (fun _ => false) stock approvedShop busyDay)
      !! "i1" = Some invoice'
    /\ Invoice.status invoice' = Invoice.approved
    /\ Invoice.pdfAccessToken invoice' = Some "5f2a9c".
Proof.
  destruct (invoice_status_is_one_way anyObjectId (fun _ => false) stock busyDay
              approvedShop "i1" approvedInvoice ltac:(vm_compute; reflexivity))
    as (invoice' & Hget & Happroved & _).
  exists invoice'. split; [exact Hget |].
  destruct (Happroved ltac:(vm_compute; reflexivity)) as (Hs & Ht & _).
  split; [exact Hs |]. rewrite Ht. vm_compute. reflexivity.
Defined.

Lemma invoice_snapshot_is_kept_witness :
  exists invoice',
    Lifecycle.invoices (Lifecycle.steps anyObjectId (fun _ => false) stock approvedShop busyDay)
      !! "i1" = Some invoice'
    /\ Invoice.totalAmount invoice' = 500.
Proof.
  destruct (invoice_snapshot_is_kept anyObjectId (fun _ => false) stock busyDay
              approvedShop "i1" approvedInvoice ltac:(vm_compute; reflexivity))
    as (invoice' & Hget & _ & _ & Htotal & _).
  exists invoice'. split; [exact Hget |]. rewrite Htotal. vm_compute. reflexivity.
Defined.

Example busy_day_outcome :
  option_map (fun i => (Invoice.status i, Invoice.paidAmount i, Invoice.dueAmount i,
                        length (Invoice.payments i), Invoice.pdfPath i))
    (Lifecycle.invoices (Lifecycle.steps anyObjectId (fun _ => false) stock approvedShop busyDay)
       !! "i1")
  = Some (Invoice.approved, 0, 500, 1%nat, Some "invoices/INV_0001.pdf").
Proof. vm_compute. reflexivity. Qed.

(** ** Dates computed at approval *)

Module CalendarFacts.
Import Date.

Lemma gtb_same (y m d t : Z) : gtb (mk y m d t) (mk y m d t) = false.
Proof. unfold gtb. simpl. now rewrite !Z.ltb_irrefl, !Z.eqb_refl. Qed.

Lemma later_month_not_before (a : t) (m d tm : Z) :
  0 <= month a < 12 -> monthIndex a < m ->
  gtb a (mk (m / 12) (m mod 12) d tm) = false.
Proof.
  unfold monthIndex, gtb. simpl. intros Hm Hlt.
  destruct (m / 12 <? year a) eqn:E1.
  { apply Z.ltb_lt in E1. exfalso. Z.div_mod_to_equations. lia. }
  destruct (year a =? m / 12) eqn:E2; [| reflexivity].
  apply Z.eqb_eq in E2.
  destruct (m mod 12 <? month a) eqn:E3.
  { apply Z.ltb_lt in E3. exfalso. Z.div_mod_to_equations. lia. }
  destruct (month a =? m mod 12) eqn:E4; [| reflexivity].
  apply Z.eqb_eq in E4. exfalso. Z.div_mod_to_equations. lia.
Qed.

Lemma wellFormed_eta (x : t) :
  wellFormed x -> x = mk (monthIndex x / 12) (monthIndex x mod 12) (date x) (time x).
Proof.
  intros [Hm _]. destruct (DateFacts.monthIndex_split x Hm) as [-> ->]. now destruct x.
Qed.

Lemma monthIndex_mk (m d tm : Z) : monthIndex (mk (m / 12) (m mod 12) d tm) = m.
Proof. unfold monthIndex. simpl. Z.div_mod_to_equations. lia. Qed.

Lemma wellFormed_mk (m d tm : Z) :
  1 <= d <= daysInMonth m -> wellFormed (mk (m / 12) (m mod 12) d tm).
Proof.
  intros Hd. split.
  - simpl. Z.div_mod_to_equations. lia.
  - rewrite monthIndex_mk. exact Hd.
Qed.

Lemma plusDays_later (x : t) (n : Z) :
  wellFormed x -> 0 <= n <= 28 ->
  wellFormed (plusDays x n) /\ gtb x (plusDays x n) = false
  /\ (0 < n -> gtb (plusDays x n) x = true).
Proof.
  intros Hwf Hn. pose proof Hwf as [Hm Hd].
  pose proof (DateFacts.daysInMonth_bounds (monthIndex x)) as Hb.
  pose proof (DateFacts.daysInMonth_bounds (monthIndex x + 1)) as Hb'.
  unfold plusDays. destruct (date x + n <=? daysInMonth (monthIndex x)) eqn:E.
  - apply Z.leb_le in E. split; [| split].
    + split; [exact Hm |]. unfold monthIndex in *. simpl. lia.
    + unfold gtb. simpl. rewrite !Z.ltb_irrefl, !Z.eqb_refl. simpl.
      destruct (date x + n <? date x) eqn:E1; [apply Z.ltb_lt in E1; lia |].
      destruct (date x =? date x + n) eqn:E2; [| reflexivity].
      simpl. reflexivity.
    + intros Hpos. unfold gtb. simpl. rewrite !Z.ltb_irrefl, !Z.eqb_refl. simpl.
      destruct (date x <? date x + n) eqn:E1; [reflexivity |].
      apply Z.ltb_ge in E1. lia.
  - apply Z.leb_gt in E. split; [| split].
    + apply wellFormed_mk. lia.
    + apply later_month_not_before; [exact Hm | lia].
    + intros _. clear - Hm. destruct x as [y m d tm]. unfold gtb, monthIndex. simpl in *.
      destruct (y <? (12 * y + m + 1) / 12) eqn:E1; [reflexivity |].
      apply Z.ltb_ge in E1.
      destruct ((12 * y + m + 1) / 12 =? y) eqn:E2;
        [| apply Z.eqb_neq in E2; exfalso; Z.div_mod_to_equations; lia].
      destruct (m <? (12 * y + m + 1) mod 12) eqn:E3; [reflexivity |].
      apply Z.ltb_ge in E3. apply Z.eqb_eq in E2. exfalso. Z.div_mod_to_equations. lia.
Qed.

Lemma plusMonths_later (x : t) (n : Z) :
  wellFormed x -> 0 <= n ->
  wellFormed (plusMonths x n) /\ gtb x (plusMonths x n) = false.
Proof.
  intros Hwf Hn. pose proof Hwf as [Hm Hd].
  pose proof (DateFacts.daysInMonth_bounds (monthIndex x)) as Hb.
  pose proof (DateFacts.daysInMonth_bounds (monthIndex x + n)) as Hb1.
  pose proof (DateFacts.daysInMonth_bounds (monthIndex x + n + 1)) as Hb2.
  unfold plusMonths. destruct (date x <=? daysInMonth (monthIndex x + n)) eqn:E.
  - apply Z.leb_le in E. split; [apply wellFormed_mk; lia |].
    destruct (Z.eq_dec n 0) as [-> | Hpos].
    + rewrite Z.add_0_r. rewrite (wellFormed_eta x Hwf) at 1. apply gtb_same.
    + apply later_month_not_before; [exact Hm | lia].
  - apply Z.leb_gt in E. split; [apply wellFormed_mk; lia |].
    apply later_month_not_before; [exact Hm | lia].
Qed.

End CalendarFacts.

(** ** Approval, rejection and the access token *)

Section ApprovalOutcomes.
Import Invoice.
Variable validObjectId : string -> bool.
Variable products : gmap string Product.

Local Abbreviation approve := (Approve.approve validObjectId).
Local Abbreviation reject := (Reject.reject validObjectId).
Local Abbreviation download := (PublicPdf.download validObjectId).

Definition notPending (s : Status) : ErrorBody :=
  {| error := "Invoice is not pending approval";
     currentStatus := Some (Status_name s);
     details := None |}.

Lemma approve_pending (userId : string) (env : Approve.Env)
      (invoices : gmap string Invoice.t) (warranties : list Warranty)
      (invoiceId : string) (invoice : Invoice.t) :
  Db.findById validObjectId invoices invoiceId = Db.Found invoice ->
  status invoice = pending_approval ->
  exists invoice',
    approve userId env products invoices warranties invoiceId
    = (Approve.Json invoice', <[invoiceId := invoice']> invoices,
       (warranties ++ Approve.createdWarranties validObjectId env products invoice')%list)
    /\ status invoice' = approved
    /\ pdfAccessToken invoice' = Some (Approve.token env)
    /\ pdfTokenExpiry invoice' = Some (Approve.tokenExpiry env)
    /\ pdfPath invoice' = match Approve.pdf env with
                          | Some path => Some path
                          | None => pdfPath invoice
                          end.
Proof.
  intros Hfind Hst. unfold Approve.approve. rewrite Hfind, Hst.
  destruct (Approve.pdf env) as [path|].
  - eexists. split; [rewrite insert_insert_eq; reflexivity |]. repeat split.
  - eexists. split; [reflexivity |]. repeat split.
Qed.

Lemma findById_stored {A} (coll : gmap string A) (id : string) (found doc : A) :
  Db.findById validObjectId coll id = Db.Found found ->
  Db.findById validObjectId (<[id := doc]> coll) id = Db.Found doc.
Proof.
  unfold Db.findById. destruct (validObjectId id); [| discriminate].
  intros _. now rewrite lookup_insert_eq.
Qed.

(** X10.  An approval happens once.  After an invoice has been
    approved, a second approval (by anyone, whatever the collaborators
    do) is refused with the current status ["approved"], writes
    nothing and creates no further warranty, and a rejection is
    refused as well. *)
Theorem approval_is_final (userId : string) (env : Approve.Env)
        (invoices invoices' : gmap string Invoice.t) (warranties warranties' : list Warranty)
        (invoiceId : string) (invoice' : Invoice.t) :
  approve userId env products invoices warranties invoiceId
  = (Approve.Json invoice', invoices', warranties') ->
  (forall userId2 env2,
      approve userId2 env2 products invoices' warranties' invoiceId
      = (Approve.Error 400 (notPending approved), invoices', warranties'))
  /\ (forall userId2 now2 reason,
         reject now2 userId2 invoices' invoiceId reason
         = (Reject.Error 400 (errorOnly "Invoice is not pending approval"), invoices')).
Proof.
  unfold Approve.approve at 1.
  destruct (Db.findById validObjectId invoices invoiceId) as [invoice| |] eqn:Hfind;
    try discriminate.
  destruct (status invoice) eqn:Hst; try discriminate.
  destruct (approve_pending userId env invoices warranties invoiceId invoice Hfind Hst)
    as (stored & Heq & Hs & _).
  unfold Approve.approve in Heq. rewrite Hfind, Hst in Heq. rewrite Heq.
  intros [= <- <- <-].
  pose proof (findById_stored invoices invoiceId invoice stored Hfind) as Hfind'.
  split.
  - intros userId2 env2. unfold Approve.approve. rewrite Hfind', Hs. reflexivity.
  - intros userId2 now2 reason. unfold Reject.reject. rewrite Hfind', Hs. reflexivity.
Qed.

(** X11.  A rejection is final and issues no token.  Rejecting a
    pending invoice stores it as [rejected] with the reason and the
    rejecting user, leaves its access token as it was, and afterwards
    approval is refused with the current status ["rejected"], a second
    rejection is refused, and the public PDF request is refused for
    every token. *)
Theorem rejection_is_final (userId : string) (now : Date.t) (reason : option string)
        (invoices : gmap string Invoice.t) (invoiceId : string) (invoice : Invoice.t) :
  Db.findById validObjectId invoices invoiceId = Db.Found invoice ->
  status invoice = pending_approval ->
  exists invoice',
    reject now userId invoices invoiceId reason
    = (Reject.Json invoice', <[invoiceId := invoice']> invoices)
    /\ status invoice' = rejected
    /\ approvalStatus invoice'
       = Some {| approvedBy := None; approvedAt := None; rejectedBy := Some userId;
                 rejectedAt := Some now; rejectionReason := reason |}
    /\ pdfAccessToken invoice' = pdfAccessToken invoice
    /\ (forall userId2 env warranties,
           approve userId2 env products (<[invoiceId := invoice']> invoices) warranties invoiceId
           = (Approve.Error 400 (notPending rejected),
              <[invoiceId := invoice']> invoices, warranties))
    /\ (forall userId2 now2 reason2,
           reject now2 userId2 (<[invoiceId := invoice']> invoices) invoiceId reason2
           = (Reject.Error 400 (errorOnly "Invoice is not pending approval"),
              <[invoiceId := invoice']> invoices))
    /\ (forall now2 existsSync pdf token,
           download now2 existsSync pdf (<[invoiceId := invoice']> invoices) invoiceId token
           = (PublicPdf.Error 400 (errorOnly "PDF can only be accessed for approved invoices"),
              <[invoiceId := invoice']> invoices)).
Proof.
  intros Hfind Hst. eexists. split.
  { unfold Reject.reject. rewrite Hfind, Hst. reflexivity. }
  pose proof (findById_stored invoices invoiceId invoice
                (setApproval rejected
                   {| approvedBy := None; approvedAt := None; rejectedBy := Some userId;
                      rejectedAt := Some now; rejectionReason := reason |} invoice) Hfind)
    as Hfind'.
  repeat split.
  - intros userId2 env warranties. unfold Approve.approve. rewrite Hfind'. reflexivity.
  - intros userId2 now2 reason2. unfold Reject.reject. rewrite Hfind'. reflexivity.
  - intros now2 existsSync pdf token. unfold PublicPdf.download. rewrite Hfind'. reflexivity.
Qed.

(** X12.  The public PDF is served only against the stored token.  A
    request that is answered with the file is for an approved invoice
    whose stored token is not empty, equals the token presented, and
    has not expired; a request for an approved invoice with any other
    token is answered 403 "Invalid or missing access token", and one
    with the stored token after its expiry is answered 403 "Access
    token has expired". *)
Theorem public_pdf_is_token_gated (now : Date.t) (existsSync : string -> bool)
        (pdf : option string) (invoices : gmap string Invoice.t) (invoiceId : string)
        (invoice : Invoice.t) (token : option string) :
  Db.findById validObjectId invoices invoiceId = Db.Found invoice ->
  (forall path invoices',
      download now existsSync pdf invoices invoiceId token = (PublicPdf.Stream path, invoices') ->
      status invoice = approved
      /\ (exists stored, pdfAccessToken invoice = Some stored /\ stored <> ""
                         /\ token = Some stored)
      /\ PublicPdf.expired now (pdfTokenExpiry invoice) = false)
  /\ (status invoice = approved -> token <> pdfAccessToken invoice ->
      download now existsSync pdf invoices invoiceId token
      = (PublicPdf.Error 403 (errorOnly "Invalid or missing access token"), invoices))
  /\ (status invoice = approved -> truthy token = true -> token = pdfAccessToken invoice ->
      PublicPdf.expired now (pdfTokenExpiry invoice) = true ->
      download now existsSync pdf invoices invoiceId token
      = (PublicPdf.Error 403 (errorOnly "Access token has expired"), invoices)).
Proof.
  intros Hfind. unfold PublicPdf.download. rewrite Hfind.
  assert (Hmatch : PublicPdf.tokenMismatch (pdfAccessToken invoice) token = false <->
                   exists stored, pdfAccessToken invoice = Some stored /\ stored <> ""
                                  /\ token = Some stored).
  { unfold PublicPdf.tokenMismatch, truthy. split.
    - destruct (pdfAccessToken invoice) as [e|], token as [t|]; simpl;
        try discriminate.
      + destruct (String.eqb e "") eqn:E1, (String.eqb e t) eqn:E2; simpl;
          try discriminate.
        intros _. apply String.eqb_eq in E2. subst t. exists e. repeat split.
        intros ->. discriminate.
      + destruct (String.eqb e ""); discriminate.
    - intros (stored & -> & Hne & ->). simpl. rewrite String.eqb_refl.
      destruct (String.eqb stored "") eqn:E; [| reflexivity].
      apply String.eqb_eq in E. contradiction. }
  split; [| split].
  - intros path invoices'. destruct (status invoice); try discriminate.
    destruct (PublicPdf.tokenMismatch (pdfAccessToken invoice) token) eqn:Hm; [discriminate |].
    destruct (PublicPdf.expired now (pdfTokenExpiry invoice)) eqn:He; [discriminate |].
    intros _. split; [reflexivity |]. split; [now apply Hmatch | reflexivity].
  - intros -> Hne.
    destruct (PublicPdf.tokenMismatch (pdfAccessToken invoice) token) eqn:Hm; [reflexivity |].
    destruct (proj1 Hmatch eq_refl) as (stored & H1 & _ & H2). congruence.
  - intros -> Ht Heq He.
    assert (Hm : PublicPdf.tokenMismatch (pdfAccessToken invoice) token = false).
    { apply Hmatch. destruct token as [t|]; [| discriminate]. exists t.
      repeat split; auto. intros ->. discriminate. }
    now rewrite Hm, He.
Qed.

(** X13.  The token issued by an approval opens the PDF at once.
    After a pending invoice is approved with a non-empty token on a
    valid calendar date, a public request made at that time with that
    token is served whenever the renderer works, and also, whatever
    the renderer does, whenever the file of the stored path exists;
    and the expiry stored is a valid calendar date strictly after the
    approval. *)
Theorem fresh_token_opens_pdf (userId : string) (env : Approve.Env)
        (existsSync : string -> bool) (rendered : string)
        (invoices : gmap string Invoice.t) (warranties : list Warranty)
        (invoiceId : string) (invoice : Invoice.t) :
  Db.findById validObjectId invoices invoiceId = Db.Found invoice ->
  status invoice = pending_approval ->
  Approve.token env <> "" ->
  Date.wellFormed (Approve.now env) ->
  let invoices' := snd (fst (approve userId env products invoices warranties invoiceId)) in
  (exists path,
      fst (download (Approve.now env) existsSync (Some rendered) invoices' invoiceId
             (Some (Approve.token env)))
      = PublicPdf.Stream path)
  /\ Date.wellFormed (Approve.tokenExpiry env)
  /\ Date.gtb (Approve.tokenExpiry env) (Approve.now env) = true
  /\ (forall pdf stored path,
        invoices' !! invoiceId = Some stored ->
        pdfPath stored = Some path -> existsSync path = true ->
        fst (download (Approve.now env) existsSync pdf invoices' invoiceId
               (Some (Approve.token env)))
        = PublicPdf.Stream path).
Proof.
  intros Hfind Hst Htoken Hwf invoices'.
  destruct (approve_pending userId env invoices warranties invoiceId invoice Hfind Hst)
    as (stored & Heq & Hs & Ht & He & Hp).
  subst invoices'. rewrite Heq. cbn [fst snd].
  assert (Hexp : Approve.tokenExpiry env = plusDays (Approve.now env) 7).
  { unfold Approve.tokenExpiry. apply DateFacts.setDate_plusDays; [exact Hwf | lia]. }
  destruct (CalendarFacts.plusDays_later (Approve.now env) 7 Hwf ltac:(lia))
    as (Hwf' & Hnot & Hlater).
  assert (Hm : PublicPdf.tokenMismatch (Some (Approve.token env)) (Some (Approve.token env))
               = false).
  { unfold PublicPdf.tokenMismatch, truthy. rewrite String.eqb_refl.
    destruct (String.eqb (Approve.token env) "") eqn:E; [| reflexivity].
    apply String.eqb_eq in E. contradiction. }
  split; [| rewrite Hexp; split; [exact Hwf' | split; [apply Hlater; lia |]]].
  - unfold PublicPdf.download.
    rewrite (findById_stored invoices invoiceId invoice stored Hfind), Hs, Ht, He.
    rewrite Hm. unfold PublicPdf.expired. rewrite Hexp, Hnot.
    destruct (pdfPath stored) as [path|]; [destruct (existsSync path) |]; cbn [fst]; eauto.
  - intros pdf stored' path Hstored Hpath Hexists.
    rewrite lookup_insert_eq in Hstored. injection Hstored as <-.
    unfold PublicPdf.download.
    rewrite (findById_stored invoices invoiceId invoice stored Hfind), Hs, Ht, He.
    rewrite Hm. unfold PublicPdf.expired. rewrite Hexp, Hnot.
    now rewrite Hpath, Hexists.
Qed.

End ApprovalOutcomes.

Lemma approval_is_final_witness :
  Approve.approve anyObjectId "u2" roughDay stock approvedInvoices
    (Approve.createdWarranties anyObjectId roughDay stock approvedInvoice) "i1"
  = (Approve.Error 400 (notPending Invoice.approved), approvedInvoices,
     Approve.createdWarranties anyObjectId roughDay stock approvedInvoice).
Proof.
  apply (approval_is_final anyObjectId stock "u1" roughDay pendingInvoices approvedInvoices
           [] (Approve.createdWarranties anyObjectId roughDay stock approvedInvoice)
           "i1" approvedInvoice ltac:(vm_compute; reflexivity)).
Defined.

Lemma rejection_is_final_witness :
  exists invoice',
    Reject.reject anyObjectId jan15 "u2" pendingInvoices "i1" (Some "duplicate")
    = (Reject.Json invoice', <[ "i1" := invoice' ]> pendingInvoices)
    /\ Invoice.status invoice' = Invoice.rejected.
Proof.
  destruct (rejection_is_final anyObjectId stock "u2" jan15 (Some "duplicate")
              pendingInvoices "i1" pendingInvoice
              ltac:(vm_compute; reflexivity) ltac:(vm_compute; reflexivity))
    as (invoice' & H1 & H2 & _).
  exists invoice'. split; [exact H1 | exact H2].
Defined.

Lemma public_pdf_is_token_gated_witness :
  PublicPdf.download anyObjectId jan15 (fun _ => true) None approvedInvoices "i1"
    (Some "5f2a9d")
  = (PublicPdf.Error 403 (errorOnly "Invalid or missing access token"), approvedInvoices).
Proof.
  destruct (public_pdf_is_token_gated anyObjectId jan15 (fun _ => true) None
              approvedInvoices "i1" approvedInvoice (Some "5f2a9d")
              ltac:(vm_compute; reflexivity)) as (_ & H & _).
  apply H; [vm_compute; reflexivity | vm_compute; discriminate].
Defined.

Lemma fresh_token_opens_pdf_witness :
  exists path,
    fst (PublicPdf.download anyObjectId jan15 (fun _ => false) (Some "invoices/INV_0001.pdf")
           (snd (fst (Approve.approve anyObjectId "u1" roughDay stock pendingInvoices [] "i1")))
           "i1" (Some "5f2a9c"))
    = PublicPdf.Stream path.
Proof.
  destruct (fresh_token_opens_pdf anyObjectId stock "u1" roughDay (fun _ => false)
              "invoices/INV_0001.pdf" pendingInvoices [] "i1" pendingInvoice
              ltac:(vm_compute; reflexivity) ltac:(vm_compute; reflexivity)
              ltac:(vm_compute; discriminate)
              ltac:(vm_compute; repeat split; discriminate))
    as (H & _).
  exact H.
Defined.

(** ** Warranties created at approval *)

Section WarrantyBounds.
Import Invoice.
Variable validObjectId : string -> bool.
Variable products : gmap string Product.

Lemma digit_value_nonneg (c : ascii) : Js.is_digit c = true -> 0 <= Js.digit_value c <= 9.
Proof.
  unfold Js.is_digit, Js.digit_value. intros H.
  apply andb_true_iff in H as [H1 H2].
  apply Nat.leb_le in H1. apply Nat.leb_le in H2. lia.
Qed.

Lemma parse_digits_nonneg (s : string) : forall acc, 0 <= acc -> 0 <= Js.parse_digits acc s.
Proof.
  induction s as [|c s IH]; simpl; intros acc Hacc; [exact Hacc |].
  destruct (Js.is_digit c) eqn:E; [| exact Hacc].
  apply IH. pose proof (digit_value_nonneg c E). lia.
Qed.

Lemma monthsOf_nonneg (text : string) : 0 <= monthsOf text.
Proof.
  unfold monthsOf. destruct (Js.match_digits text); [| lia].
  now apply parse_digits_nonneg.
Qed.

Lemma omap_length_le {A B} (f : A -> option B) (l : list A) :
  (length (omap f l) <= length l)%nat.
Proof.
  induction l as [|x l IH]; [reflexivity |].
  change (omap f (x :: l)) with (match f x with Some y => y :: omap f l | None => omap f l end).
  destruct (f x); simpl; lia.
Qed.

Lemma filter_length_le {A} (f : A -> bool) (l : list A) :
  (length (List.filter f l) <= length l)%nat.
Proof. induction l as [|x l IH]; simpl; [lia |]. destruct (f x); simpl; lia. Qed.

(** X14.  An approval creates at most one warranty per line item
    that has a warranty and is a product, each for the approved
    invoice and its customer, [active], with a duration that is not
    negative; when the approval falls on a valid calendar date, each
    warranty ends on a valid calendar date that is not before its
    start. *)
Theorem approval_warranties_are_sound (userId : string) (env : Approve.Env)
        (invoices invoices' : gmap string Invoice.t) (warranties warranties' : list Warranty)
        (invoiceId : string) (invoice' : Invoice.t) :
  Approve.approve validObjectId userId env products invoices warranties invoiceId
  = (Approve.Json invoice', invoices', warranties') ->
  exists created,
    warranties' = (warranties ++ created)%list
    /\ (length created <= length (List.filter Approve.eligible (items invoice')))%nat
    /\ forall w, In w created ->
         warranty_invoiceId w = id invoice'
         /\ warranty_customerId w = customerId invoice'
         /\ warranty_status w = "active"
         /\ 0 <= durationMonths w
         /\ (Date.wellFormed (Approve.now env) ->
             Date.wellFormed (endDate w) /\ Date.gtb (startDate w) (endDate w) = false).
Proof.
  unfold Approve.approve.
  destruct (Db.findById validObjectId invoices invoiceId) as [invoice| |]; try discriminate.
  destruct (status invoice); try discriminate.
  destruct (Approve.pdf env) as [path|]; intros [= <- <- <-].
  all: eexists; split; [reflexivity |]; split;
    [unfold Approve.createdWarranties;
     etransitivity; [apply filter_length_le | apply omap_length_le] |].
  all: intros w Hw; unfold Approve.createdWarranties in Hw.
  all: apply filter_In in Hw as [Hw _].
  all: apply list_elem_of_In, list_elem_of_omap in Hw as (item & _ & Hfor).
  all: destruct (warrantyFor_some _ _ _ _ _ _ Hfor) as (pid & p & text & _ & _ & _ & _ & ->).
  all: cbn [warranty_invoiceId warranty_customerId warranty_status durationMonths
            startDate endDate].
  all: repeat (split; [reflexivity |]).
  all: split; [apply monthsOf_nonneg |].
  all: intros Hwf; rewrite (DateFacts.setMonth_plusMonths _ _ Hwf).
  all: apply CalendarFacts.plusMonths_later; [exact Hwf | apply monthsOf_nonneg].
Qed.

End WarrantyBounds.

Lemma approval_warranties_are_sound_witness :
  exists created,
    snd (Approve.approve anyObjectId "u1" roughDay stock pendingInvoices [] "i1") = created
    /\ (length created <= 1)%nat.
Proof.
  destruct (approval_warranties_are_sound anyObjectId stock "u1" roughDay pendingInvoices
              (snd (fst (Approve.approve anyObjectId "u1" roughDay stock pendingInvoices [] "i1")))
              []
              (snd (Approve.approve anyObjectId "u1" roughDay stock pendingInvoices [] "i1"))
              "i1" approvedInvoice ltac:(vm_compute; reflexivity))
    as (created & H1 & H2 & _).
  exists created. split; [exact H1 |]. exact H2.
Defined.

(** ** Warranty-card uploads: the file and what is written *)

Module UploadFacts.
Import Invoice WarrantyCards.

Fixpoint noSemicolon (s : string) : bool :=
  match s with
  | EmptyString => true
  | String c s' => negb (Ascii.eqb c ";"%char) && noSemicolon s'
  end.

(** The cards of a list kept under part [q], in order. *)
Definition cardsFor (q : string) (cards : list VehicleWarrantyCard) : list VehicleWarrantyCard :=
  List.filter (fun wc => String.eqb (partId wc) q) cards.

(** The data URL of a file of type [mimeType] with base64 text
    [base64Data]. *)
Definition dataUrl (mimeType base64Data : string) : string :=
  String.append "data:" (String.append mimeType (String.append ";base64," base64Data)).

Lemma prefix_split (p s : string) :
  String.prefix p s = true -> s = String.append p (Js.drop_chars (String.length p) s).
Proof.
  revert s. induction p as [|c p IH]; intros s.
  - reflexivity.
  - destruct s as [|c' s]; simpl; [discriminate |].
    destruct (ascii_dec c c') as [<- |]; [| discriminate].
    intros H.
    change (String c s = String c (String.append p (Js.drop_chars (String.length p) s))).
    f_equal. now apply IH.
Qed.

Lemma splitSemicolon_some (s a b : string) :
  splitSemicolon s = Some (a, b) ->
  s = String.append a (String ";" b) /\ noSemicolon a = true.
Proof.
  revert a. induction s as [|c s IH]; intros a; simpl; [discriminate |].
  destruct (Ascii.eqb c ";") eqn:E.
  - intros [= <- <-]. apply Ascii.eqb_eq in E. subst c. auto.
  - destruct (splitSemicolon s) as [[a' b']|]; [| discriminate].
    intros [= <- <-]. destruct (IH a' eq_refl) as [-> Hno].
    simpl. rewrite E, Hno. auto.
Qed.

Lemma splitSemicolon_append (a b : string) :
  noSemicolon a = true -> splitSemicolon (String.append a (String ";" b)) = Some (a, b).
Proof.
  induction a as [|c a IH]; simpl; intros H.
  - reflexivity.
  - apply andb_true_iff in H as [Hc Ha]. apply negb_true_iff in Hc.
    now rewrite Hc, (IH Ha).
Qed.

(** What the pattern extracts from a text rebuilds that text. *)
Lemma dataUrlMatch_rebuilds (data mimeType base64Data : string) :
  dataUrlMatch data = Some (mimeType, base64Data) ->
  data = dataUrl mimeType base64Data
  /\ mimeType <> "" /\ noSemicolon mimeType = true
  /\ base64Data <> "" /\ hasLineTerminator base64Data = false.
Proof.
  unfold dataUrlMatch, Js.startsWith.
  destruct (String.prefix "data:" data) eqn:Hp; [| discriminate].
  apply prefix_split in Hp.
  destruct (splitSemicolon (Js.drop_chars 5 data)) as [[m rest]|] eqn:Hs; [| discriminate].
  destruct (String.eqb m "") eqn:Em; [discriminate |].
  destruct (String.prefix "base64," rest) eqn:Hb; [| discriminate].
  apply prefix_split in Hb.
  destruct (String.eqb (Js.drop_chars 7 rest) "" || hasLineTerminator (Js.drop_chars 7 rest))
    eqn:Ee; [discriminate |].
  intros [= <- <-]. apply orb_false_iff in Ee as [Ee El].
  apply splitSemicolon_some in Hs as [Hs Hno].
  split; [| repeat split; auto].
  - unfold dataUrl. rewrite Hp at 1. f_equal.
    simpl String.length. rewrite Hs. f_equal.
    change (String ";" rest = String ";" (String.append "base64," (Js.drop_chars 7 rest))).
    f_equal. exact Hb.
  - intros ->. discriminate.
  - intros H. apply String.eqb_neq in Ee. apply Ee. exact H.
Qed.

(** X15.  Reading a data URL and writing it back agree.  What the
    upload's pattern extracts from a text rebuilds that text, the file
    type it extracts is not empty and has no [;], and the base64 text
    is not empty and has no line break; and every data URL built from
    such a type and such a text is read back as that type and that
    text. *)
Theorem data_url_round_trip (mimeType base64Data : string) :
  (forall data,
      dataUrlMatch data = Some (mimeType, base64Data) ->
      data = dataUrl mimeType base64Data
      /\ mimeType <> "" /\ noSemicolon mimeType = true
      /\ base64Data <> "" /\ hasLineTerminator base64Data = false)
  /\ (mimeType <> "" -> noSemicolon mimeType = true ->
      base64Data <> "" -> hasLineTerminator base64Data = false ->
      dataUrlMatch (dataUrl mimeType base64Data) = Some (mimeType, base64Data)).
Proof.
  split.
  - intros data. apply dataUrlMatch_rebuilds.
  - intros Hm Hno Hb Hl. unfold dataUrlMatch, dataUrl, Js.startsWith.
    rewrite prefix_append.
    pose proof (drop_chars_append "data:"
                  (String.append mimeType (String.append ";base64," base64Data))) as H5.
    simpl String.length in H5. rewrite H5.
    change (String.append ";base64," base64Data)
      with (String ";" (String.append "base64," base64Data)).
    rewrite (splitSemicolon_append _ _ Hno).
    destruct (String.eqb mimeType "") eqn:E; [apply String.eqb_eq in E; contradiction |].
    rewrite prefix_append.
    pose proof (drop_chars_append "base64," base64Data) as H7.
    simpl String.length in H7. rewrite H7, Hl.
    destruct (String.eqb base64Data "") eqn:E'; [apply String.eqb_eq in E'; contradiction |].
    reflexivity.
Qed.

(** A payload that holds U+2028 is not matched by the pattern. *)
Example line_separator_is_not_matched :
  dataUrlMatch
    (String.append "data:image/png;base64,AAAA"
       (String (ascii_of_nat 226) (String (ascii_of_nat 128) (String (ascii_of_nat 168) "AAAA"))))
  = None.
Proof. vm_compute. reflexivity. Qed.

(** What an accepted upload has checked and written. *)
Lemma upload_accepted (validObjectId : string -> bool) (now : Date.t)
      (invoices invoices' : gmap string Invoice.t) (vehicles vehicles' : list Vehicle)
      (invoiceId : string) (body : Body) (card : ItemWarrantyCard) :
  upload validObjectId now invoices vehicles invoiceId body
  = (Uploaded card, invoices', vehicles') ->
  exists itemIndex data file mimeType base64Data invoice item,
    b_itemIndex body = Some itemIndex
    /\ b_warrantyCardData body = Some data
    /\ b_filename body = Some file
    /\ dataUrlMatch data = Some (mimeType, base64Data)
    /\ includes mimeType allowedMimeTypes = true
    /\ tooLarge base64Data = false
    /\ invoices !! invoiceId = Some invoice
    /\ 0 <= itemIndex < Z.of_nat (length (items invoice))
    /\ items invoice !! Z.to_nat itemIndex = Some item
    /\ card = {| url := data; filename := file; uploadedAt := now |}
    /\ let item' :=
         setItemCards (match item_warrantyCards item with Some cs => cs | None => [] end
                       ++ [card])%list item in
       let invoice' := setItems (<[Z.to_nat itemIndex := item']> (items invoice)) invoice in
       invoices' = <[invoiceId := invoice']> invoices
       /\ vehicles' = syncVehicles invoice' item' data vehicles.
Proof.
  unfold upload.
  destruct (b_itemIndex body) as [itemIndex|]; [| discriminate].
  destruct (b_warrantyCardData body) as [data|]; [| discriminate].
  destruct (b_filename body) as [file|]; [| discriminate].
  destruct (_ || _); [discriminate |].
  destruct (negb _); [discriminate |].
  destruct (dataUrlMatch data) as [[mimeType base64Data]|] eqn:Hmatch; [| discriminate].
  destruct (includes mimeType allowedMimeTypes) eqn:Hmime; [| discriminate].
  destruct (tooLarge base64Data) eqn:Hsize; [discriminate |]. simpl negb. cbv iota.
  destruct (Db.findById validObjectId invoices invoiceId) as [invoice| |] eqn:Hfind;
    try discriminate.
  apply findById_lookup in Hfind.
  destruct ((itemIndex <? 0) || (Z.of_nat (length (items invoice)) <=? itemIndex)) eqn:Hb;
    [discriminate |].
  apply orb_false_iff in Hb as [Hb1 Hb2]. apply Z.ltb_ge in Hb1. apply Z.leb_gt in Hb2.
  destruct (items invoice !! Z.to_nat itemIndex) as [item|] eqn:Hitem; [| discriminate].
  intros [= <- <- <-].
  exists itemIndex, data, file, mimeType, base64Data, invoice, item.
  repeat split; auto.
Qed.


Lemma cardsFor_replace (card : VehicleWarrantyCard) (q : string)
      (cards : list VehicleWarrantyCard) (i : nat) :
  findIndex (partId card) cards = Some i -> partId card <> q ->
  cardsFor q (<[i := card]> cards) = cardsFor q cards.
Proof.
  intros Hfind Hq. revert i Hfind.
  induction cards as [|wc cards IH]; intros i; simpl; [discriminate |].
  destruct (String.eqb (partId wc) (partId card)) eqn:E.
  - intros [= <-]. simpl. unfold cardsFor. simpl.
    apply String.eqb_eq in E. rewrite E.
    destruct (String.eqb (partId card) q) eqn:E'; [| reflexivity].
    apply String.eqb_eq in E'. contradiction.
  - destruct (findIndex (partId card) cards) as [j|]; [| discriminate].
    intros [= <-]. simpl. unfold cardsFor in *. simpl. now rewrite (IH j eq_refl).
Qed.

Lemma cardsFor_upsert (card : VehicleWarrantyCard) (q : string)
      (cards : list VehicleWarrantyCard) :
  partId card <> q -> cardsFor q (upsertCard card cards) = cardsFor q cards.
Proof.
  intros Hq. unfold upsertCard.
  destruct (findIndex (partId card) cards) as [i|] eqn:Hfind.
  - now apply cardsFor_replace.
  - unfold cardsFor. rewrite List.filter_app. simpl.
    destruct (String.eqb (partId card) q) eqn:E; [| apply app_nil_r].
    apply String.eqb_eq in E. contradiction.
Qed.

(** X17.  An upload touches only the vehicles it synchronises to, and
    on those only the cards of the uploaded part.  After an accepted
    upload there are as many vehicles as before, each with the
    identity, owner and selected parts it had; a vehicle of another
    customer is left exactly as it was; and on every vehicle the cards
    kept under any other part are the same, in the same order. *)
Theorem upload_leaves_other_cards (validObjectId : string -> bool) (now : Date.t)
        (invoices invoices' : gmap string Invoice.t) (vehicles vehicles' : list Vehicle)
        (invoiceId : string) (body : Body) (card : ItemWarrantyCard) :
  upload validObjectId now invoices vehicles invoiceId body
  = (Uploaded card, invoices', vehicles') ->
  exists invoice item,
    invoices !! invoiceId = Some invoice
    /\ (exists i, b_itemIndex body = Some (Z.of_nat i) /\ items invoice !! i = Some item)
    /\ Forall2 (fun v v' =>
                  vehicle_oid v' = vehicle_oid v
                  /\ vehicleId v' = vehicleId v
                  /\ vehicle_customerId v' = vehicle_customerId v
                  /\ selectedParts v' = selectedParts v
                  /\ (customerId invoice <> Some (vehicle_customerId v) -> v' = v)
                  /\ forall q, productId item <> Some q ->
                       cardsFor q (cardsOf v') = cardsFor q (cardsOf v))
               vehicles vehicles'.
Proof.
  intros H.
  destruct (upload_accepted _ _ _ _ _ _ _ _ _ H)
    as (itemIndex & data & file & mimeType & base64Data & invoice & item
        & Hidx & _ & _ & _ & _ & _ & Hget & Hbounds & Hitem & _ & _ & ->).
  exists invoice, item. split; [exact Hget |].
  split; [exists (Z.to_nat itemIndex); rewrite Z2Nat.id by lia; auto |].
  assert (Hsame : forall l : list Vehicle,
             Forall2 (fun v v' =>
                        vehicle_oid v' = vehicle_oid v /\ vehicleId v' = vehicleId v
                        /\ vehicle_customerId v' = vehicle_customerId v
                        /\ selectedParts v' = selectedParts v
                        /\ (customerId invoice <> Some (vehicle_customerId v) -> v' = v)
                        /\ forall q, productId item <> Some q ->
                             cardsFor q (cardsOf v') = cardsFor q (cardsOf v)) l l).
  { induction l; constructor; auto. repeat split; auto. }
  unfold syncVehicles. cbn [productId setItemCards customerId setItems vehicleDetails name].
  destruct (productId item) as [productIdStr|] eqn:Hpid; [| apply Hsame].
  destruct (customerId invoice) as [customer|] eqn:Hcust; [| apply Hsame].
  unfold invoiceVehicleIds. cbn [vehicleDetails setItems].
  destruct (omap _ (vehicleDetails invoice)) as [|i ids]; [apply Hsame |].
  clear Hsame H. induction vehicles as [|v vehicles IH]; simpl; [constructor |].
  constructor; [| exact IH].
  unfold syncVehicle, syncs. cbn [partId].
  destruct (String.eqb (vehicle_customerId v) customer) eqn:Ec; simpl.
  - destruct (vehicleIdMatch (i :: ids) v && hasProductInSelectedParts productIdStr v);
      repeat split; auto.
    + intros Hne. apply String.eqb_eq in Ec. congruence.
    + intros q Hq. unfold cardsOf at 1. cbn [warrantyCards setWarrantyCards].
      apply cardsFor_upsert. cbn [partId]. congruence.
  - repeat split; auto.
Qed.

End UploadFacts.

(** A first card for the brake pads of the sample invoice. *)
Definition firstUpload :
  WarrantyCards.Response * gmap string Invoice.t * list Vehicle :=
  WarrantyCards.upload anyObjectId jan15 hatchbackInvoices [hatchback None] "i2"
    (cardUpload "data:application/pdf;base64,AAAA").

Definition pdfCard : Invoice.ItemWarrantyCard :=
  {| Invoice.url := "data:application/pdf;base64,AAAA"; Invoice.filename := "card.pdf";
     Invoice.uploadedAt := jan15 |}.


Lemma upload_leaves_other_cards_witness :
  exists invoice item,
    hatchbackInvoices !! "i2" = Some invoice
    /\ (exists i, Some 0 = Some (Z.of_nat i) /\ Invoice.items invoice !! i = Some item)
    /\ Forall2 (fun v v' =>
                  vehicle_oid v' = vehicle_oid v
                  /\ vehicleId v' = vehicleId v
                  /\ vehicle_customerId v' = vehicle_customerId v
                  /\ selectedParts v' = selectedParts v
                  /\ (Invoice.customerId invoice <> Some (vehicle_customerId v) -> v' = v)
                  /\ forall q, Invoice.productId item <> Some q ->
                       UploadFacts.cardsFor q (cardsOf v') = UploadFacts.cardsFor q (cardsOf v))
               [hatchback None] firstUpload.2.
Proof.
  exact (UploadFacts.upload_leaves_other_cards anyObjectId jan15
           hatchbackInvoices firstUpload.1.2 [hatchback None] firstUpload.2 "i2"
           (cardUpload "data:application/pdf;base64,AAAA") pdfCard
           ltac:(vm_compute; reflexivity)).
Defined.

(** ** The products of an invoice: GET /api/invoices/:id/products *)

Module InvoiceProducts.

Import Invoice.

(** An entry of [products] in the response. *)
Record Listed := mkListed {
  l_itemIndex : Z;
  l_productId : string;
  l_name : string;
  l_description : option string;
  l_quantity : Z;
  l_hasWarranty : bool;
  l_warrantyCards : list ItemWarrantyCard
}.

Inductive Response :=
| Json (invoiceNumber : string) (customerId : option string) (products : list Listed)
| Error (code : Z) (body : ErrorBody).

(** The [filter] and [map] callbacks on the line item at position
    [index].  [invoice.items.indexOf(item)] compares by identity and
    the line items are distinct subdocuments, so it is the position
    of the item. *)
Definition listed (index : nat) (item : Item) : option Listed :=
  match type item, productId item with
  | product, Some pid =>
      if truthy (productId item) then
        Some {| l_itemIndex := Z.of_nat index;
                l_productId := pid;
                l_name := name item;
                l_description := description item;
                l_quantity := quantity item;
                l_hasWarranty := hasWarranty item;
                l_warrantyCards := match item_warrantyCards item with
                                   | Some cs => cs
                                   | None => []
                                   end |}
      else None
  | _, _ => None
  end.

(** [invoice.items.filter(...).map(...)], from position [index] on. *)
Fixpoint listFrom (index : nat) (its : list Item) : list Listed :=
  match its with
  | [] => []
  | item :: rest =>
      match listed index item with
      | Some l => l :: listFrom (S index) rest
      | None => listFrom (S index) rest
      end
  end.

Section Handler.
Variable validObjectId : string -> bool.

Definition products (invoices : gmap string Invoice.t) (invoiceId : string) : Response :=
  match Db.findById validObjectId invoices invoiceId with
  | Db.CastError => Error 500 (errorOnly "Failed to fetch invoice products")
  | Db.Missing => Error 404 (errorOnly "Invoice not found")
  | Db.Found invoice =>
      Json (invoiceNumber invoice) (customerId invoice) (listFrom 0 (items invoice))
  end.
End Handler.

End InvoiceProducts.

Module ListingFacts.
Import Invoice WarrantyCards InvoiceProducts.

(** A listed product with another list of cards. *)
Definition setCards (cards : list ItemWarrantyCard) (p : Listed) : Listed :=
  {| l_itemIndex := l_itemIndex p;
     l_productId := l_productId p;
     l_name := l_name p;
     l_description := l_description p;
     l_quantity := l_quantity p;
     l_hasWarranty := l_hasWarranty p;
     l_warrantyCards := cards |}.

Lemma listed_setItemCards (index : nat) (item : Item) (p : Listed)
      (cards : list ItemWarrantyCard) :
  listed index item = Some p ->
  listed index (setItemCards cards item) = Some (setCards cards p).
Proof.
  unfold listed. cbn [type productId setItemCards].
  destruct (type item); [| discriminate].
  destruct (productId item) as [pid|]; [| discriminate].
  destruct (truthy (Some pid)); [| discriminate].
  now intros [= <-].
Qed.

Lemma listed_index (index : nat) (item : Item) (p : Listed) :
  listed index item = Some p ->
  l_itemIndex p = Z.of_nat index
  /\ type item = product
  /\ productId item = Some (l_productId p)
  /\ l_warrantyCards p = match item_warrantyCards item with Some cs => cs | None => [] end.
Proof.
  unfold listed. destruct (type item); [| discriminate].
  destruct (productId item) as [pid|]; [| discriminate].
  destruct (truthy (Some pid)) eqn:Hpid; [| discriminate].
  intros [= <-]. cbn [l_itemIndex l_productId l_warrantyCards]. auto.
Qed.

(** The entry at position [k] of a listing comes from one line item,
    and replacing the cards of that line item replaces the cards of
    that entry and nothing else. *)
Lemma listFrom_lookup (its : list Item) :
  forall (index k : nat) (p : Listed),
    listFrom index its !! k = Some p ->
    exists j item,
      its !! j = Some item
      /\ listed (index + j) item = Some p
      /\ forall cards,
           listFrom index (<[j := setItemCards cards item]> its)
           = <[k := setCards cards p]> (listFrom index its).
Proof.
  induction its as [|item rest IH]; intros index k p; simpl; [discriminate |].
  destruct (listed index item) as [l|] eqn:Hl.
  - destruct k as [|k]; simpl.
    + intros [= <-]. exists O, item. rewrite Nat.add_0_r.
      split; [reflexivity |]. split; [exact Hl |]. intros cards. simpl.
      now rewrite (listed_setItemCards _ _ _ cards Hl).
    + intros H. destruct (IH (S index) k p H) as (j & item0 & Hj & Hp & Hupd).
      exists (S j), item0. rewrite Nat.add_succ_r.
      split; [exact Hj |]. split; [exact Hp |]. intros cards. simpl.
      now rewrite Hl, Hupd.
  - intros H. destruct (IH (S index) k p H) as (j & item0 & Hj & Hp & Hupd).
    exists (S j), item0. rewrite Nat.add_succ_r.
    split; [exact Hj |]. split; [exact Hp |]. intros cards. simpl.
    now rewrite Hl, Hupd.
Qed.

Lemma dataUrlMatch_starts (data mimeType base64Data : string) :
  dataUrlMatch data = Some (mimeType, base64Data) ->
  Js.startsWith "data:" data = true /\ data <> "".
Proof.
  unfold dataUrlMatch. destruct (Js.startsWith "data:" data) eqn:E; [| discriminate].
  intros _. split; [reflexivity |]. intros ->. discriminate.
Qed.

Lemma includes_In (x : string) (l : list string) : In x l -> includes x l = true.
Proof.
  intros H. unfold includes. apply existsb_exists. exists x.
  split; [exact H | apply String.eqb_refl].
Qed.

(** X18.  The listing of an invoice's products tells where to upload.
    For every product the listing shows, an upload addressed to its
    [itemIndex] with a named file that is a data URL of an allowed
    type and of at most 69,905,066 base64 characters is accepted, and
    the next listing is the same listing with that one card added at
    the end of the cards of that product. *)
Theorem listed_product_accepts_card (validObjectId : string -> bool) (now : Date.t)
        (invoices : gmap string Invoice.t) (vehicles : list Vehicle) (invoiceId : string)
        (number : string) (customer : option string) (ps : list Listed)
        (k : nat) (p : Listed) (data file mimeType base64Data : string) :
  products validObjectId invoices invoiceId = Json number customer ps ->
  ps !! k = Some p ->
  file <> "" ->
  dataUrlMatch data = Some (mimeType, base64Data) ->
  In mimeType allowedMimeTypes ->
  Z.of_nat (String.length base64Data) <= 69905066 ->
  let card := {| url := data; filename := file; uploadedAt := now |} in
  exists invoices' vehicles',
    upload validObjectId now invoices vehicles invoiceId
      {| b_itemIndex := Some (l_itemIndex p);
         b_warrantyCardData := Some data;
         b_filename := Some file |}
    = (Uploaded card, invoices', vehicles')
    /\ products validObjectId invoices' invoiceId
       = Json number customer
           (<[k := setCards (l_warrantyCards p ++ [card])%list p]> ps).
Proof.
  intros Hlist Hk Hfile Hmatch Hmime Hsize card.
  unfold products in Hlist.
  destruct (Db.findById validObjectId invoices invoiceId) as [invoice| |] eqn:Hfind;
    try discriminate.
  injection Hlist as <- <- <-.
  destruct (listFrom_lookup _ _ _ _ Hk) as (j & item & Hj & Hp & Hupd).
  simpl in Hp. destruct (listed_index _ _ _ Hp) as (Hidx & _ & _ & Hcards).
  destruct (dataUrlMatch_starts _ _ _ Hmatch) as [Hstart Hdata].
  pose proof (lookup_lt_Some _ _ _ Hj) as Hlt.
  unfold upload. cbn [b_itemIndex b_warrantyCardData b_filename].
  apply String.eqb_neq in Hdata, Hfile. rewrite Hdata, Hfile, Hstart, Hmatch.
  rewrite (includes_In _ _ Hmime). cbn [orb negb].
  assert (Hfits : tooLarge base64Data = false).
  { unfold tooLarge. apply Z.ltb_ge. Z.div_mod_to_equations. lia. }
  rewrite Hfits, Hfind, Hidx.
  assert (Hneg : (Z.of_nat j <? 0) = false) by (apply Z.ltb_ge; lia).
  assert (Hin : (Z.of_nat (length (items invoice)) <=? Z.of_nat j) = false)
    by (apply Z.leb_gt; lia).
  rewrite Hneg, Hin, Nat2Z.id, Hj. cbn [orb].
  do 2 eexists. split; [reflexivity |].
  unfold products. rewrite (findById_stored validObjectId _ _ _ _ Hfind).
  cbn [invoiceNumber customerId items setItems]. f_equal.
  rewrite Hcards. apply Hupd.
Qed.

End ListingFacts.

(** The brake pads as the listing of the sample invoice shows them. *)
Definition listedBrakePads : InvoiceProducts.Listed :=
  {| InvoiceProducts.l_itemIndex := 0;
     InvoiceProducts.l_productId := "p1";
     InvoiceProducts.l_name := "Brake pads";
     InvoiceProducts.l_description := None;
     InvoiceProducts.l_quantity := 1;
     InvoiceProducts.l_hasWarranty := true;
     InvoiceProducts.l_warrantyCards := [] |}.

Lemma listed_product_accepts_card_witness :
  exists invoices' vehicles',
    WarrantyCards.upload anyObjectId jan15 hatchbackInvoices [hatchback None] "i2"
      (cardUpload "data:application/pdf;base64,AAAA")
    = (WarrantyCards.Uploaded pdfCard, invoices', vehicles')
    /\ InvoiceProducts.products anyObjectId invoices' "i2"
       = InvoiceProducts.Json "INV/0002" (Some "c1")
           [ListingFacts.setCards [pdfCard] listedBrakePads].
Proof.
  exact (ListingFacts.listed_product_accepts_card anyObjectId jan15 hatchbackInvoices
           [hatchback None] "i2" "INV/0002" (Some "c1") [listedBrakePads] 0 listedBrakePads
           "data:application/pdf;base64,AAAA" "card.pdf" "application/pdf" "AAAA"
           ltac:(vm_compute; reflexivity) ltac:(reflexivity) ltac:(discriminate)
           ltac:(vm_compute; reflexivity) ltac:(simpl; tauto) ltac:(vm_compute; discriminate)).
Defined.

(** ** Coupons: POST /api/coupons/validate *)

Module Coupons.

Record ValidateBody := mkValidateBody {
  vb_code : option string;              (* [None]: no [code] in the body *)
  vb_customerId : string;
  vb_purchaseAmount : Z
}.

(** The [coupon] object of a positive answer. *)
Record Offer := mkOffer {
  o_code : string;
  o_discountType : string;
  o_discountValue : Z;
  o_discountAmount : Z
}.

Inductive Response :=
| Valid (coupon : Offer)
| Error (status : Z) (message : string).

Section Handler.
(** [coupon.isValid(customerId, amount)]: its [valid] and its
    [reason]; and [coupon.calculateDiscount(amount)] of
    [models/Coupon]. *)
Variable isValid : Coupon -> string -> Z -> bool.
Variable reason : Coupon -> string -> Z -> string.
Variable calculateDiscount : Coupon -> Z -> Z.

Definition validate (coupons : list Coupon) (body : ValidateBody) : Response :=
  match vb_code body with
  | None =>
      (* [code.toUpperCase()] throws on [undefined] *)
      Error 500 "Failed to validate coupon"
  | Some c =>
      match findCouponByCode coupons (Js.toUpperCase c) with
      | None => Error 404 "Coupon not found"
      | Some coupon =>
          if isValid coupon (vb_customerId body) (vb_purchaseAmount body) then
            Valid {| o_code := code coupon;
                     o_discountType := coupon_discountType coupon;
                     o_discountValue := coupon_discountValue coupon;
                     o_discountAmount := calculateDiscount coupon (vb_purchaseAmount body) |}
          else Error 400 (reason coupon (vb_customerId body) (vb_purchaseAmount body))
      end
  end.
End Handler.

End Coupons.

(** ** Invoice creation and its coupon *)

(** The sum of the line totals, from the last item backwards. *)
Definition itemsTotal (its : list Invoice.Item) : Z :=
  foldr (fun item sum => Invoice.total item + sum) 0 its.

Section CreationFacts.
Import Invoice CreateInvoice.
Variable validObjectId : string -> bool.
Variable now : Date.t.
Variable isValid : Coupon -> string -> Z -> bool.
Variable reason : Coupon -> string -> Z -> string.
Variable calculateDiscount : Coupon -> Z -> Z.
Variable newId newInvoiceNumber userId : string.

Local Abbreviation create :=
  (fromServiceVisit validObjectId now isValid calculateDiscount newId newInvoiceNumber userId).
Local Abbreviation applyCoupon := (applyCoupon isValid calculateDiscount).
Local Abbreviation validate := (Coupons.validate isValid reason calculateDiscount).

(** The entry a redemption adds to the coupon's usage history. *)
Definition usageOf (invoice : Invoice.t) (customer : string) : CouponUsage :=
  {| usage_invoiceId := id invoice;
     usage_customerId := customer;
     discountApplied := discountAmount invoice |}.

(** What stands behind an invoice that was created. *)
Lemma created_invoice (st st' : Stores) (body : Body) (invoice : Invoice.t) :
  create st body = (Json invoice, st') ->
  exists visit customer,
    Db.findById validObjectId (visits st) (b_serviceVisitId body) = Db.Found visit
    /\ populateCustomer (customers st) visit = Some customer
    /\ ServiceVisit.status visit = ServiceVisit.completed
    /\ let sub := subtotalOf (b_items body) in
       let co := applyCoupon (coupons st) (b_couponCode body) (customer_id customer) sub in
       invoice = newInvoice now newId newInvoiceNumber userId body customer
                   (List.filter (fun v => String.eqb (vehicle_customerId v) (customer_id customer))
                                (vehicles st))
                   sub co
       /\ st' = {| visits := visits st;
                   customers := customers st;
                   vehicles := vehicles st;
                   coupons := match co_couponId co with
                              | Some cid =>
                                  findByIdAndUpdate cid
                                    (redeem (usageOf invoice (customer_id customer)))
                                    (coupons st)
                              | None => coupons st
                              end;
                   invoices := <[newId := invoice]> (invoices st) |}.
Proof.
  unfold fromServiceVisit.
  destruct (Db.findById validObjectId (visits st) (b_serviceVisitId body))
    as [visit| |] eqn:Hfind; try discriminate.
  destruct (populateCustomer (customers st) visit) as [customer|] eqn:Hpop; [| discriminate].
  destruct (ServiceVisit.status visit) eqn:Hst; try discriminate.
  intros [= <- <-]. exists visit, customer. repeat split; auto.
Qed.

Lemma applyCoupon_cases (coupons : list Coupon) (c customer : string) (sub : Z) :
  c <> "" ->
  applyCoupon coupons (Some c) customer sub
  = match findCouponByCode coupons (Js.toUpperCase c) with
    | Some coupon =>
        if isValid coupon customer sub then
          {| co_discountAmount := calculateDiscount coupon sub;
             co_couponId := Some (coupon_id coupon);
             co_discountType := coupon_discountType coupon;
             co_discountValue := coupon_discountValue coupon |}
        else noCoupon
    | None => noCoupon
    end.
Proof.
  intros Hc. unfold CreateInvoice.applyCoupon.
  destruct (String.eqb c "") eqn:E; [apply String.eqb_eq in E; contradiction | reflexivity].
Qed.

Lemma findCouponByCode_code (coupons : list Coupon) (c : string) (coupon : Coupon) :
  findCouponByCode coupons c = Some coupon -> code coupon = c /\ In coupon coupons.
Proof.
  unfold findCouponByCode. intros H. apply List.find_some in H as [Hin Heq].
  apply String.eqb_eq in Heq. auto.
Qed.


Lemma findByIdAndUpdate_map (cid : string) (f : Coupon -> Coupon) (coupons : list Coupon) :
  NoDup (map coupon_id coupons) ->
  findByIdAndUpdate cid f coupons
  = map (fun k => if String.eqb (coupon_id k) cid then f k else k) coupons.
Proof.
  induction coupons as [|k rest IH]; [reflexivity |].
  cbn [map findByIdAndUpdate]. intros Hnd. apply NoDup_cons in Hnd as [Hnotin Hnd].
  destruct (String.eqb (coupon_id k) cid) eqn:E.
  - f_equal. apply String.eqb_eq in E. subst cid.
    clear IH Hnd. induction rest as [|k' rest IH]; [reflexivity |].
    cbn [map] in *. destruct (String.eqb (coupon_id k') (coupon_id k)) eqn:E'.
    + apply String.eqb_eq in E'. exfalso. apply Hnotin. rewrite E'. left.
    + f_equal. apply IH. intros Hin. apply Hnotin. now right.
  - f_equal. now apply IH.
Qed.

Lemma findCouponByCode_map (g : Coupon -> Coupon) (coupons : list Coupon) (c : string) :
  (forall k, code (g k) = code k) ->
  findCouponByCode (map g coupons) c = option_map g (findCouponByCode coupons c).
Proof.
  intros Hg. unfold findCouponByCode.
  induction coupons as [|k rest IH]; [reflexivity |].
  cbn [map List.find]. rewrite Hg. now destruct (String.eqb (code k) c).
Qed.

(** X20.  A redemption is seen by the next lookup.  When coupon
    identifiers are unique and an invoice was created with a coupon
    applied, the coupon found under the code of the request is the one
    the invoice refers to; after the creation every lookup by code
    finds the coupon it found before, and that one coupon has its use
    counted once more and the usage, with this invoice, its customer
    and the discount granted, added at the end of its history. *)
Theorem redemption_is_found_by_code (st st' : Stores) (body : Body)
        (invoice : Invoice.t) (cid : string) :
  NoDup (map coupon_id (coupons st)) ->
  create st body = (Json invoice, st') ->
  couponId invoice = Some cid ->
  exists customer c coupon,
    customerId invoice = Some customer
    /\ b_couponCode body = Some c
    /\ findCouponByCode (coupons st) (Js.toUpperCase c) = Some coupon
    /\ coupon_id coupon = cid
    /\ findCouponByCode (coupons st') (Js.toUpperCase c)
       = Some (redeem (usageOf invoice customer) coupon)
    /\ forall c',
         findCouponByCode (coupons st') c'
         = option_map (fun k => if String.eqb (coupon_id k) cid
                                then redeem (usageOf invoice customer) k else k)
                      (findCouponByCode (coupons st) c').
Proof.
  intros Hnd Hcreate Hcid.
  destruct (created_invoice _ _ _ _ Hcreate)
    as (visit & customer & _ & _ & _ & Hinvoice & Hst').
  cbv zeta in Hinvoice, Hst'.
  assert (Hco : co_couponId (applyCoupon (coupons st) (b_couponCode body)
                               (customer_id customer) (subtotalOf (b_items body)))
                = Some cid) by (rewrite Hinvoice in Hcid; exact Hcid).
  rewrite Hco in Hst'.
  assert (Hcoupons : coupons st'
                     = map (fun k => if String.eqb (coupon_id k) cid
                                     then redeem (usageOf invoice (customer_id customer)) k
                                     else k) (coupons st)).
  { rewrite Hst'. cbn [coupons]. now apply findByIdAndUpdate_map. }
  assert (Hall : forall c',
             findCouponByCode (coupons st') c'
             = option_map (fun k => if String.eqb (coupon_id k) cid
                                    then redeem (usageOf invoice (customer_id customer)) k
                                    else k)
                          (findCouponByCode (coupons st) c')).
  { intros c'. rewrite Hcoupons. apply findCouponByCode_map.
    intros k. now destruct (String.eqb (coupon_id k) cid). }
  unfold CreateInvoice.applyCoupon in Hco.
  destruct (b_couponCode body) as [c|] eqn:Hcode; [| discriminate].
  destruct (String.eqb c ""); [discriminate |].
  destruct (findCouponByCode (coupons st) (Js.toUpperCase c)) as [coupon|] eqn:Hfind;
    [| discriminate].
  destruct (isValid coupon (customer_id customer) (subtotalOf (b_items body)));
    [| discriminate].
  injection Hco as Hid.
  exists (customer_id customer), c, coupon.
  split; [now rewrite Hinvoice |]. split; [reflexivity |]. split; [exact Hfind |].
  split; [exact Hid |]. split; [| exact Hall].
  rewrite Hall, Hfind. cbn [option_map]. now rewrite Hid, String.eqb_refl.
Qed.

Lemma subtotalOf_acc (its : list Item) (acc : Z) :
  fold_left (fun sum item => sum + total item) its acc = acc + itemsTotal its.
Proof.
  revert acc. induction its as [|item rest IH]; intros acc; simpl; [lia |].
  rewrite IH. unfold itemsTotal. simpl. lia.
Qed.

Lemma findByIdAndUpdate_redeem (cid : string) (u : CouponUsage) (coupons : list Coupon) :
  Forall2 (fun k k' =>
             coupon_id k' = coupon_id k /\ code k' = code k
             /\ coupon_discountType k' = coupon_discountType k
             /\ coupon_discountValue k' = coupon_discountValue k
             /\ (k' = k \/ k' = redeem u k))
          coupons (findByIdAndUpdate cid (redeem u) coupons)
  /\ exists n, forall j, j <> n ->
       findByIdAndUpdate cid (redeem u) coupons !! j = coupons !! j.
Proof.
  induction coupons as [|k rest [IH1 [n IH2]]]; [split; [constructor | exists O; auto] |].
  cbn [findByIdAndUpdate]. destruct (String.eqb (coupon_id k) cid).
  - split.
    + constructor; [repeat split; auto |].
      clear. induction rest; constructor; auto. repeat split; auto.
    + exists O. intros [|j] Hj; [contradiction | reflexivity].
  - split.
    + constructor; [repeat split; auto | exact IH1].
    + exists (S n). intros [|j] Hj; [reflexivity |]. simpl. apply IH2. lia.
Qed.


End CreationFacts.

(** A validity check that accepts every coupon, with its reason. *)
Definition alwaysValid (_ : Coupon) (_ : string) (_ : Z) : bool := true.
Definition noReason (_ : Coupon) (_ : string) (_ : Z) : string := "".

(** The invoice the brake pads of [visitDone] give with the coupon
    [save10], and the shop after it was created. *)
Definition discountedInvoice : Invoice.t :=
  CreateInvoice.newInvoice jan15 "i3" "INV/0003" "u1"
    (invoiceRequest "v2" (Some "save10")) customer1 [] 500
    {| CreateInvoice.co_discountAmount := 50;
       CreateInvoice.co_couponId := Some "k1";
       CreateInvoice.co_discountType := "percentage";
       CreateInvoice.co_discountValue := 10 |}.

Definition shopAfterDiscount : CreateInvoice.Stores :=
  snd (CreateInvoice.fromServiceVisit anyObjectId jan15 alwaysValid tenPercent
         "i3" "INV/0003" "u1" shop (invoiceRequest "v2" (Some "save10"))).


Lemma redemption_is_found_by_code_witness :
  option_map (fun k => (usedCount k, length (usageHistory k)))
    (findCouponByCode (CreateInvoice.coupons shopAfterDiscount) "SAVE10")
  = Some (1, 1%nat).
Proof.
  destruct (redemption_is_found_by_code anyObjectId jan15 alwaysValid tenPercent
              "i3" "INV/0003" "u1" shop shopAfterDiscount
              (invoiceRequest "v2" (Some "save10")) discountedInvoice "k1"
              ltac:(repeat constructor; intros H; inversion H)
              ltac:(vm_compute; reflexivity) ltac:(reflexivity))
    as (customer & c & coupon & _ & _ & _ & _ & _ & Hall).
  rewrite (Hall "SAVE10"). vm_compute. reflexivity.
Defined.


(** ** From creation to settlement *)

Section OrderToCash.
Import Invoice.
Variable validObjectId : string -> bool.
Variable now : Date.t.
Variable isValid : Coupon -> string -> Z -> bool.
Variable calculateDiscount : Coupon -> Z -> Z.
Variable newId newInvoiceNumber userId : string.

Local Abbreviation create :=
  (CreateInvoice.fromServiceVisit validObjectId now isValid calculateDiscount
     newId newInvoiceNumber userId).

(** A payment of the whole amount. *)
Definition inFull (invoice : Invoice.t) (mode : string) : Payments.PaymentBody :=
  {| Payments.b_amount := totalAmount invoice;
     Payments.b_paymentMode := mode;
     Payments.b_transactionId := None;
     Payments.b_notes := None |}.


End OrderToCash.


(** ** The images of a service visit *)

Module ImageFacts.
Import ServiceVisit.

Fixpoint allBase64 (s : string) : bool :=
  match s with
  | EmptyString => true
  | String c s' => is_base64_char c && allBase64 s'
  end.

(** At most two [=] *)
Definition padding (pad : string) : Prop := pad = "" \/ pad = "=" \/ pad = "==".

(** The images the validator lets through: no text at all, an http
    or https URL of any content and size, or an image data URI of one
    of the five kinds whose content is base64 text with its padding, of
    at most 69,905,066 characters. *)
Definition accepted (img : string) : Prop :=
  img = ""
  \/ Js.startsWith "http://" img = true
  \/ Js.startsWith "https://" img = true
  \/ exists p body pad,
       In p dataUriPrefixes
       /\ img = String.append p (String.append body pad)
       /\ allBase64 body = true
       /\ padding pad
       /\ Z.of_nat (String.length (String.append body pad)) <= 69905066.

Lemma skip_base64_split (s : string) :
  exists body, s = String.append body (skip_base64 s) /\ allBase64 body = true.
Proof.
  induction s as [|c s (body & Hs & Hb)]; [exists ""; auto |].
  simpl. destruct (is_base64_char c) eqn:E.
  - exists (String c body). split; [| simpl; now rewrite E].
    change (String c s = String c (String.append body (skip_base64 s))). now f_equal.
  - exists "". auto.
Qed.

Lemma skip_base64_padding (body pad : string) :
  allBase64 body = true -> padding pad ->
  skip_base64 (String.append body pad) = pad.
Proof.
  intros Hb Hp. induction body as [|c body IH].
  - destruct Hp as [-> | [-> | ->]]; reflexivity.
  - simpl in Hb. apply andb_true_iff in Hb as [Hc Hb].
    change (skip_base64 (String c (String.append body pad)) = pad).
    simpl. rewrite Hc. now apply IH.
Qed.

Lemma base64Regex_shape (content : string) :
  base64Regex_test content = true <->
  exists body pad,
    content = String.append body pad /\ allBase64 body = true /\ padding pad.
Proof.
  unfold base64Regex_test. split.
  - intros H. destruct (skip_base64_split content) as (body & Hs & Hb).
    exists body, (skip_base64 content). split; [exact Hs |]. split; [exact Hb |].
    apply orb_true_iff in H as [H | H]; [apply orb_true_iff in H as [H | H] |];
      apply String.eqb_eq in H; unfold padding; auto.
  - intros (body & pad & -> & Hb & Hp). rewrite (skip_base64_padding _ _ Hb Hp).
    destruct Hp as [-> | [-> | ->]]; reflexivity.
Qed.

Lemma dataUri_rest_some (prefixes : list string) (img content : string) :
  dataUri_rest prefixes img = Some content ->
  exists p, In p prefixes /\ img = String.append p content.
Proof.
  induction prefixes as [|p ps IH]; simpl; [discriminate |].
  destruct (Js.startsWith p img) eqn:E.
  - intros [= <-]. exists p. split; [now left |]. now apply UploadFacts.prefix_split.
  - intros H. destruct (IH H) as (q & Hq & Himg). exists q. split; [now right | exact Himg].
Qed.

Lemma dataUri_rest_hit (p : string) (ps : list string) (content : string) :
  dataUri_rest (p :: ps) (String.append p content) = Some content.
Proof.
  simpl. unfold Js.startsWith. now rewrite prefix_append, drop_chars_append.
Qed.

Lemma dataUri_rest_miss (q : string) (ps : list string) (img : string) :
  Js.startsWith q img = false -> dataUri_rest (q :: ps) img = dataUri_rest ps img.
Proof. intros H. simpl. now rewrite H. Qed.

Lemma dataUri_rest_prefixed (p content : string) :
  In p dataUriPrefixes ->
  dataUri_rest dataUriPrefixes (String.append p content) = Some content
  /\ String.eqb (String.append p content) "" = false
  /\ httpUrlRegex_test (String.append p content) = false.
Proof.
  unfold dataUriPrefixes.
  intros [<- | [<- | [<- | [<- | [<- | []]]]]];
    (split; [| split; reflexivity]);
    repeat first [ apply dataUri_rest_hit | rewrite dataUri_rest_miss by reflexivity ].
Qed.

(** An image the validator lets through has one of the accepted
    shapes. *)
Lemma validImage_accepted (img : string) : validImage img = true -> accepted img.
Proof.
  unfold validImage, accepted, httpUrlRegex_test.
  destruct (String.eqb img "") eqn:E; [apply String.eqb_eq in E; auto |].
  destruct (Js.startsWith "http://" img); [auto |].
  destruct (Js.startsWith "https://" img); [auto |]. cbn [orb].
  destruct (dataUri_rest dataUriPrefixes img) as [content|] eqn:Hrest; [| discriminate].
  destruct (base64Regex_test content) eqn:Hb; [| discriminate]. cbn [negb].
  intros Hsize. apply Z.leb_le in Hsize.
  destruct (dataUri_rest_some _ _ _ Hrest) as (p & Hp & ->).
  apply base64Regex_shape in Hb as (body & pad & -> & Hb & Hpad).
  do 3 right. exists p, body, pad. repeat split; auto. lia.
Qed.

(** X23.  What the image validator of the visit update lets through:
    an image is accepted exactly when it is empty, or starts with
    [http://] or [https://] (whatever follows, of whatever size), or
    is [data:image/png], [jpeg], [jpg], [gif] or [webp] in base64
    whose content is letters, digits, [+] and [/] followed by at most
    two [=], at most 69,905,066 characters in all. *)
Theorem valid_image_shape (img : string) : validImage img = true <-> accepted img.
Proof.
  split; [apply validImage_accepted |].
  unfold validImage, accepted, httpUrlRegex_test.
  - intros [-> | [H | [H | (p & body & pad & Hp & -> & Hb & Hpad & Hsize)]]].
    + reflexivity.
    + rewrite H. now destruct (String.eqb img "").
    + rewrite H, orb_true_r. now destruct (String.eqb img "").
    + destruct (dataUri_rest_prefixed p (String.append body pad) Hp) as (Hrest & Hne & Hurl).
      unfold httpUrlRegex_test in Hurl. rewrite Hne, Hurl, Hrest.
      assert (Hre : base64Regex_test (String.append body pad) = true)
        by (apply base64Regex_shape; eauto).
      rewrite Hre. cbn [negb]. apply Z.leb_le. lia.
Qed.

(** X24.  The visit update stores no image the validator refuses.
    Whatever the request asks for and whatever the save hook decides,
    the update leaves every other visit alone, a visit it answers with
    is the one stored under the identifier, and if it stores anything
    or answers with a visit then every before-image and after-image of
    the request is an accepted one. *)
Theorem patch_stores_only_accepted_images (validObjectId : string -> bool) (now : Date.t)
        (notifyOk : bool) (visits : gmap string ServiceVisit.t) (id : string) (body : Body) :
  let result := patch validObjectId now notifyOk visits id body in
  (forall j, j <> id -> snd result !! j = visits !! j)
  /\ (forall visit, fst result = Json visit -> snd result !! id = Some visit)
  /\ (snd result <> visits \/ (exists visit, fst result = Json visit) ->
      forall imgs img,
        b_beforeImages body = Some imgs \/ b_afterImages body = Some imgs ->
        In img imgs -> accepted img).
Proof.
  unfold patch.
  assert (Hnone : forall (message : string),
             (forall j, j <> id -> visits !! j = visits !! j)
             /\ (forall visit, Error 400 message = Json visit -> visits !! id = Some visit)
             /\ (visits <> visits \/ (exists visit, Error 400 message = Json visit) ->
                 forall imgs img,
                   b_beforeImages body = Some imgs \/ b_afterImages body = Some imgs ->
                   In img imgs -> accepted img)).
  { intros message. split; [auto |]. split; [discriminate |].
    intros [H | [v H]]; [contradiction | discriminate]. }
  destruct (Db.findById validObjectId visits id) as [visit| |]; cbn [fst snd].
  2: { split; [auto |]. split; [discriminate |].
       intros [H | [v H]]; [contradiction | discriminate]. }
  2: { apply Hnone. }
  destruct (imagesRejected (b_beforeImages body)) eqn:Hbefore; cbn [fst snd]; [apply Hnone |].
  destruct (imagesRejected (b_afterImages body)) eqn:Hafter; cbn [fst snd]; [apply Hnone |].
  assert (Himages : forall imgs img,
             b_beforeImages body = Some imgs \/ b_afterImages body = Some imgs ->
             In img imgs -> accepted img).
  { intros imgs img [H | H] Hin; [rewrite H in Hbefore | rewrite H in Hafter];
      simpl in *; apply negb_false_iff in Hbefore || apply negb_false_iff in Hafter.
    - apply validImage_accepted.
      unfold validateImages in Hbefore. rewrite forallb_forall in Hbefore. now apply Hbefore.
    - apply validImage_accepted.
      unfold validateImages in Hafter. rewrite forallb_forall in Hafter. now apply Hafter. }
  destruct (preSave now (status visit) (applyBody visit body)) as [saved|]; cbn [fst snd];
    [| apply Hnone].
  destruct (negb (Status_eqb (status visit) (status saved)) && negb notifyOk); cbn [fst snd].
  - split; [intros j Hj; now apply lookup_insert_ne |]. split; [discriminate |].
    intros _. exact Himages.
  - split; [intros j Hj; now apply lookup_insert_ne |].
    split; [intros v [= <-]; apply lookup_insert_eq |].
    intros _. exact Himages.
Qed.

End ImageFacts.

(** ** Vehicle identifiers: the migration POST /api/migrate/vehicle-ids *)

Module VehicleIds.

(** [String(n)] on a sequence number: its decimal digits. *)
Definition decimal (n : nat) : string := NilEmpty.string_of_uint (Nat.to_uint n).

Fixpoint zeros (n : nat) : string :=
  match n with
  | O => EmptyString
  | S n' => String "0" (zeros n')
  end.

(** [s.padStart(targetLength, '0')] *)
Definition padStart (targetLength : nat) (s : string) : string :=
  String.append (zeros (targetLength - String.length s)) s.

(** [`VEH${String(vehicleSeq).padStart(3, '0')}`] *)
Definition vehicleIdOf (vehicleSeq : nat) : string :=
  String.append "VEH" (padStart 3 (decimal vehicleSeq)).

Definition setVehicleId (vid : string) (v : Vehicle) : Vehicle :=
  {| vehicle_oid := vehicle_oid v;
     vehicleId := Some vid;
     vehicle_customerId := vehicle_customerId v;
     vehicleNumber := vehicleNumber v;
     vehicleBrand := vehicleBrand v;
     vehicleModel := vehicleModel v;
     customModel := customModel v;
     variant := variant v;
     color := color v;
     yearOfPurchase := yearOfPurchase v;
     vehiclePhoto := vehiclePhoto v;
     isNewVehicle := isNewVehicle v;
     chassisNumber := chassisNumber v;
     selectedParts := selectedParts v;
     warrantyCards := warrantyCards v;
     vehicle_createdAt := vehicle_createdAt v |}.

(** The query of the migration: [vehicleId] absent, [null] or empty. *)
Definition lacksId (v : Vehicle) : bool := negb (truthy (vehicleId v)).

Section Migration.
(** The counter collection and [getNextSequence('vehicle')] of
    [models/Counter]: the number handed out and the counter after. *)
Variable Counter : Type.
Variable getNextSequence : Counter -> nat * Counter.

(** The loop over the vehicles the query returns, each updated under
    its own [_id]: the collection, the [updated] count and the counter
    after the run. *)
Fixpoint migrate (vehicles : list Vehicle) (counter : Counter)
  : list Vehicle * nat * Counter :=
  match vehicles with
  | [] => ([], O, counter)
  | v :: rest =>
      if lacksId v then
        let '(vehicleSeq, counter1) := getNextSequence counter in
        let '(rest', updated, counter2) := migrate rest counter1 in
        (setVehicleId (vehicleIdOf vehicleSeq) v :: rest', S updated, counter2)
      else
        let '(rest', updated, counter') := migrate rest counter in
        (v :: rest', updated, counter')
  end.
End Migration.

End VehicleIds.

Module VehicleIdFacts.
Import VehicleIds.

Lemma parse_digits_uint (d : Decimal.uint) (acc : nat) :
  Js.parse_digits (Z.of_nat acc) (NilEmpty.string_of_uint d)
  = Z.of_nat (Nat.of_uint_acc d acc).
Proof.
  revert acc. induction d; intros acc; cbn [NilEmpty.string_of_uint Nat.of_uint_acc];
    [reflexivity | ..];
    rewrite <- IHd, Nat.tail_mul_spec;
    change (Js.parse_digits (Z.of_nat acc) (String ?c ?s))
      with (Js.parse_digits (10 * Z.of_nat acc + Js.digit_value c) s);
    f_equal; unfold Js.digit_value;
    match goal with
    | |- context [nat_of_ascii ?c] =>
        let v := eval vm_compute in (nat_of_ascii c) in change (nat_of_ascii c) with v
    end; lia.
Qed.

Lemma all_digits_uint (d : Decimal.uint) : all_digits (NilEmpty.string_of_uint d) = true.
Proof. induction d; simpl; auto. Qed.

Lemma parse_digits_zeros (k : nat) (s : string) :
  Js.parse_digits 0 (String.append (zeros k) s) = Js.parse_digits 0 s.
Proof. induction k as [|k IH]; [reflexivity | exact IH]. Qed.

Lemma all_digits_zeros (k : nat) (s : string) :
  all_digits s = true -> all_digits (String.append (zeros k) s) = true.
Proof. intros H. induction k as [|k IH]; [exact H | exact IH]. Qed.

Lemma length_zeros (k : nat) (s : string) :
  String.length (String.append (zeros k) s) = (k + String.length s)%nat.
Proof. induction k as [|k IH]; [reflexivity |]. simpl. now rewrite <- IH. Qed.

(** X25.  A vehicle identifier is [VEH] followed by the sequence
    number in decimal, filled with zeros on the left to three digits
    and never cut: the digits read back as the number, so two sequence
    numbers never give the same identifier, and no identifier is
    empty. *)
Theorem vehicle_id_reads_back (vehicleSeq : nat) :
  (exists digits,
      vehicleIdOf vehicleSeq = String.append "VEH" digits
      /\ all_digits digits = true
      /\ (3 <= String.length digits)%nat
      /\ Js.parseInt digits = Z.of_nat vehicleSeq)
  /\ truthy (Some (vehicleIdOf vehicleSeq)) = true
  /\ forall other, vehicleIdOf other = vehicleIdOf vehicleSeq -> other = vehicleSeq.
Proof.
  assert (Hparse : forall n, Js.parseInt (padStart 3 (decimal n)) = Z.of_nat n).
  { intros n. unfold Js.parseInt, padStart, decimal. rewrite parse_digits_zeros.
    change 0 with (Z.of_nat 0). rewrite parse_digits_uint.
    f_equal. apply Unsigned.of_to. }
  split; [| split].
  - exists (padStart 3 (decimal vehicleSeq)). split; [reflexivity |].
    split; [apply all_digits_zeros, all_digits_uint |]. split; [| apply Hparse].
    unfold padStart. rewrite length_zeros. lia.
  - reflexivity.
  - intros other H. unfold vehicleIdOf in H.
    assert (Hdigits : padStart 3 (decimal other) = padStart 3 (decimal vehicleSeq)).
    { pose proof (f_equal (Js.drop_chars 3) H) as Hd. exact Hd. }
    apply Nat2Z.inj. now rewrite <- !Hparse, Hdigits.
Qed.

Section MigrationFacts.
Variable Counter : Type.
Variable getNextSequence : Counter -> nat * Counter.

Local Abbreviation migrate := (migrate Counter getNextSequence).

(** X26.  The vehicle-identifier migration completes and is
    idempotent.  Whatever numbers the counter hands out, after a run
    every vehicle has a non-empty identifier, the vehicles that had
    one are exactly as they were, the others differ only in their
    identifier, the count reported is the number of vehicles that
    lacked one, and a second run updates nothing and leaves the
    counter alone. *)
Theorem migration_completes (vehicles : list Vehicle) (counter : Counter) :
  let '(vehicles', updated, counter') := migrate vehicles counter in
  Forall (fun v => lacksId v = false) vehicles'
  /\ Forall2 (fun v v' =>
                (lacksId v = false -> v' = v)
                /\ exists vid, setVehicleId vid v' = setVehicleId vid v)
             vehicles vehicles'
  /\ updated = length (List.filter lacksId vehicles)
  /\ migrate vehicles' counter' = (vehicles', O, counter').
Proof.
  revert counter. induction vehicles as [|v rest IH]; intros counter.
  - simpl. repeat split; constructor.
  - cbn [VehicleIds.migrate List.filter]. destruct (lacksId v) eqn:Hv.
    + destruct (getNextSequence counter) as [vehicleSeq counter1].
      specialize (IH counter1).
      destruct (VehicleIds.migrate Counter getNextSequence rest counter1)
        as [[rest' updated] counter2].
      destruct IH as (Hall & Hsame & Hcount & Hagain).
      split; [constructor; [reflexivity | exact Hall] |].
      split; [constructor; [| exact Hsame] |].
      * split; [congruence |]. exists "". reflexivity.
      * split; [simpl; now rewrite Hcount |].
        cbn [VehicleIds.migrate]. change (lacksId (setVehicleId _ v)) with
          (negb (truthy (Some (vehicleIdOf vehicleSeq)))).
        replace (truthy (Some (vehicleIdOf vehicleSeq))) with true by reflexivity.
        cbn [negb]. now rewrite Hagain.
    + specialize (IH counter).
      destruct (VehicleIds.migrate Counter getNextSequence rest counter)
        as [[rest' updated] counter'].
      destruct IH as (Hall & Hsame & Hcount & Hagain).
      split; [constructor; [exact Hv | exact Hall] |].
      split; [constructor; [| exact Hsame] |].
      * split; [reflexivity |]. exists "". reflexivity.
      * split; [exact Hcount |]. cbn [VehicleIds.migrate]. now rewrite Hv, Hagain.
Qed.

End MigrationFacts.

End VehicleIdFacts.

(** ** The Invoices page: marking an invoice paid and unpaid *)

Module InvoicesPage.
Import Invoice.

(** The type of [selectedPaymentMethod]. *)
Inductive Method := UPI | Cash | Card | NetBanking | Cheque.

Definition Method_name (m : Method) : string :=
  match m with
  | UPI => "UPI"
  | Cash => "Cash"
  | Card => "Card"
  | NetBanking => "Net Banking"
  | Cheque => "Cheque"
  end.

(** The body [togglePaidStatusMutation] sends for an invoice whose
    payment status on the page is [currentStatus]. *)
Definition togglePaidStatus (currentStatus : PaymentStatus) (paymentMethod : option string)
  : Payments.StatusBody :=
  match currentStatus with
  | paid =>
      {| Payments.b_paymentStatus := Some "unpaid"; Payments.b_paymentMethod := None |}
  | _ =>
      {| Payments.b_paymentStatus := Some "paid"; Payments.b_paymentMethod := paymentMethod |}
  end.

(** [handleMarkPaid]: the request sent at once for a paid invoice;
    otherwise the payment-method dialog opens and nothing is sent. *)
Definition handleMarkPaid (invoice : Invoice.t) : option Payments.StatusBody :=
  match paymentStatus invoice with
  | paid => Some (togglePaidStatus paid None)
  | _ => None
  end.

(** [confirmMarkPaid]: the request sent from the dialog. *)
Definition confirmMarkPaid (selectedInvoice : Invoice.t) (selectedPaymentMethod : Method)
  : Payments.StatusBody :=
  togglePaidStatus (paymentStatus selectedInvoice)
                   (Some (Method_name selectedPaymentMethod)).

(** The request a click on the paid toggle ends in, the dialog being
    confirmed with [selectedPaymentMethod] when it opens. *)
Definition click (invoice : Invoice.t) (selectedPaymentMethod : Method)
  : Payments.StatusBody :=
  match handleMarkPaid invoice with
  | Some request => request
  | None => confirmMarkPaid invoice selectedPaymentMethod
  end.

End InvoicesPage.

Section PageToggle.
Import Invoice InvoicesPage.
Variable validObjectId : string -> bool.

Local Abbreviation setPaymentStatus := (Payments.setPaymentStatus validObjectId).

(** X27.  The paid toggle of the Invoices page against the server.
    For an approved invoice every request the toggle sends is served:
    an invoice that is not paid is stored as [paid] with the whole
    total paid, nothing due and the method chosen in the dialog; a
    paid one is stored as [unpaid] with nothing paid, the total due
    and no method.  So marking an invoice paid and clicking again
    always ends at [unpaid] with nothing paid, also for an invoice
    that was partly paid before, and the ledger is the same
    throughout. *)
Theorem page_toggle_is_served (invoices : gmap string Invoice.t) (invoiceId : string)
        (invoice : Invoice.t) (method again : Method) :
  Db.findById validObjectId invoices invoiceId = Db.Found invoice ->
  status invoice = approved ->
  exists invoice1 invoice2,
    setPaymentStatus invoices invoiceId (click invoice method)
    = (Payments.Json invoice1, <[invoiceId := invoice1]> invoices)
    /\ (paymentStatus invoice <> paid ->
        paymentStatus invoice1 = paid
        /\ paidAmount invoice1 = totalAmount invoice
        /\ dueAmount invoice1 = 0
        /\ paymentMethod invoice1 = Some (Method_name method))
    /\ (paymentStatus invoice = paid ->
        paymentStatus invoice1 = unpaid
        /\ paidAmount invoice1 = 0
        /\ dueAmount invoice1 = totalAmount invoice
        /\ paymentMethod invoice1 = None)
    /\ setPaymentStatus (<[invoiceId := invoice1]> invoices) invoiceId (click invoice1 again)
       = (Payments.Json invoice2, <[invoiceId := invoice2]> invoices)
    /\ (paymentStatus invoice <> paid ->
        paymentStatus invoice2 = unpaid
        /\ paidAmount invoice2 = 0
        /\ dueAmount invoice2 = totalAmount invoice
        /\ paymentMethod invoice2 = None)
    /\ payments invoice1 = payments invoice
    /\ payments invoice2 = payments invoice
    /\ totalAmount invoice2 = totalAmount invoice
    /\ status invoice2 = approved.
Proof.
  intros Hfind Hst.
  assert (Hmethod : forall m, Payments.isPaymentMethod (Method_name m) = true)
    by (intros []; reflexivity).
  assert (Htruthy : forall m, truthy (Some (Method_name m)) = true)
    by (intros []; reflexivity).
  assert (Hserve : forall (stored : gmap string Invoice.t) (found : Invoice.t) (m : Method),
             Db.findById validObjectId stored invoiceId = Db.Found found ->
             status found = approved ->
             setPaymentStatus stored invoiceId (click found m)
             = (Payments.Json
                  (match paymentStatus found with
                   | paid => Payments.applyPaymentStatus unpaid None found
                   | _ => Payments.applyPaymentStatus paid (Some (Method_name m)) found
                   end),
                <[invoiceId :=
                    match paymentStatus found with
                    | paid => Payments.applyPaymentStatus unpaid None found
                    | _ => Payments.applyPaymentStatus paid (Some (Method_name m)) found
                    end]> stored)).
  { intros stored found m Hf Hs.
    unfold Payments.setPaymentStatus, click, handleMarkPaid, confirmMarkPaid, togglePaidStatus.
    destruct (paymentStatus found);
      cbn [Payments.b_paymentStatus Payments.b_paymentMethod Payments.parsePaymentStatus];
      simpl Payments.parsePaymentStatus; cbv iota;
      rewrite ?Htruthy, ?Hmethod; cbn [andb negb truthy]; now rewrite Hf, Hs. }
  pose proof (Hserve invoices invoice method Hfind Hst) as H1.
  set (invoice1 := match paymentStatus invoice with
                   | paid => Payments.applyPaymentStatus unpaid None invoice
                   | _ => Payments.applyPaymentStatus paid (Some (Method_name method)) invoice
                   end) in *.
  assert (Hst1 : status invoice1 = approved)
    by (subst invoice1; destruct (paymentStatus invoice); exact Hst).
  pose proof (Hserve (<[invoiceId := invoice1]> invoices) invoice1 again
                (findById_stored validObjectId _ _ _ invoice1 Hfind) Hst1) as H2.
  rewrite insert_insert_eq in H2.
  eexists invoice1, _. split; [exact H1 |].
  split; [| split; [| split; [exact H2 |]]].
  - intros Hnot. subst invoice1. destruct (paymentStatus invoice) eqn:E; try contradiction;
      destruct method; cbn; auto.
  - intros Hpaid. subst invoice1. rewrite Hpaid. cbn. auto.
  - subst invoice1. destruct (paymentStatus invoice) eqn:E; destruct method; cbn;
      rewrite ?E; cbn; repeat split; auto; try contradiction; try (intros; congruence).
Qed.

End PageToggle.

Lemma page_toggle_is_served_witness :
  exists invoice1 invoice2,
    Payments.setPaymentStatus anyObjectId approvedInvoices "i1"
      (InvoicesPage.click approvedInvoice InvoicesPage.Cash)
    = (Payments.Json invoice1, <[ "i1" := invoice1 ]> approvedInvoices)
    /\ Invoice.paymentStatus invoice1 = Invoice.paid
    /\ Invoice.paidAmount invoice1 = 500
    /\ Payments.setPaymentStatus anyObjectId (<[ "i1" := invoice1 ]> approvedInvoices) "i1"
         (InvoicesPage.click invoice1 InvoicesPage.UPI)
       = (Payments.Json invoice2, <[ "i1" := invoice2 ]> approvedInvoices)
    /\ Invoice.paymentStatus invoice2 = Invoice.unpaid
    /\ Invoice.dueAmount invoice2 = 500.
Proof.
  destruct (page_toggle_is_served anyObjectId approvedInvoices "i1" approvedInvoice
              InvoicesPage.Cash InvoicesPage.UPI
              ltac:(vm_compute; reflexivity) ltac:(vm_compute; reflexivity))
    as (invoice1 & invoice2 & H1 & Hpaid & _ & H2 & Hunpaid & _).
  destruct (Hpaid ltac:(vm_compute; discriminate)) as (Hp1 & Hp2 & _).
  destruct (Hunpaid ltac:(vm_compute; discriminate)) as (Hu1 & _ & Hu3 & _).
  exists invoice1, invoice2.
  split; [exact H1 |]. split; [exact Hp1 |]. split; [rewrite Hp2; reflexivity |].
  split; [exact H2 |]. split; [exact Hu1 |]. rewrite Hu3. reflexivity.
Defined.
